(** * Conversation / streaming session manager of the analysis client

    A shallow embedding of [lib/api.ts] (the REST resource clients, the
    conversation normaliser inside [conversationsApi.create] and the
    streaming consumer [messagesApi.generateAgentResponseStream]) and of
    [pages/AnalysisAgentPage.tsx] (the session controller), followed by the
    properties of the specification that were checked against them.

    Conventions of the embedding:
    - decoded payloads, stream events and messages are JavaScript values of
      type [value]: the source handles all of them as [any];
    - JavaScript strings are Rocq strings; the model agrees with the source
      on ASCII text (lengths count bytes, not UTF-16 units, and [trim]
      knows the ASCII white space only);
    - numbers are the integers, plus [NaN]; fractions and infinities never
      matter to the code under study except through truthiness;
    - objects list their own properties in enumeration order, and two
      objects obtained from different decodings are never the same object;
    - [fetch], [JSON.parse], [Date.now()] and the clock are the outside
      world: a [backend] answers requests, the decoder of frames is a
      parameter, and the handlers receive the time as an argument;
    - a handler of the page runs as one step: what other tasks do between
      its awaits is not interleaved with it.  React applies functional
      updates in the order they were queued, so state updates take effect
      in program order.  The invocations of the stream callbacks, where the
      interleaving hazard of the source lies, are steps of their own;
    - the effect that reloads the messages of a conversation when it
      changes is a step of its own too: a change of the conversation makes
      the effect due, a render runs it and sends the request, and the
      reload is in flight until it settles;
    - logging to the console is not modelled. *)

From Stdlib Require Import ZArith List String Ascii Bool Lia.
From Stdlib Require Import DecimalString.
Import ListNotations.

Local Open Scope list_scope.
Local Open Scope string_scope.

(** ** JavaScript values *)

#[local] Set Warnings "-register-all".

Inductive number : Type :=
| NaN
| Int (z : Z).

Inductive value : Type :=
| VUndef
| VNull
| VBool (b : bool)
| VNum (n : number)
| VStr (s : string)
| VArr (elems : list value) (extra : list (string * value))
| VObj (props : list (string * value)).

(** An array literal, and the empty object. *)
Definition arr (elems : list value) : value := VArr elems [].

Module Js.

Definition is_empty (s : string) : bool :=
  match s with EmptyString => true | String _ _ => false end.

(** ToBoolean. *)
Definition truthy (v : value) : bool :=
  match v with
  | VUndef | VNull => false
  | VBool b => b
  | VNum NaN => false
  | VNum (Int z) => negb (Z.eqb z 0)
  | VStr s => negb (is_empty s)
  | VArr _ _ | VObj _ => true
  end.

(** [a || b] *)
Definition or (a b : value) : value := if truthy a then a else b.

(** [a ?? b] *)
Definition nullish (v : value) : bool :=
  match v with VUndef | VNull => true | _ => false end.

Definition coalesce (a b : value) : value := if nullish a then b else a.

(** [typeof v === 'string'], [typeof v === 'object'], [Array.isArray(v)] *)
Definition is_string (v : value) : bool :=
  match v with VStr _ => true | _ => false end.

Definition typeof_object (v : value) : bool :=
  match v with VNull | VArr _ _ | VObj _ => true | _ => false end.

Definition isArray (v : value) : bool :=
  match v with VArr _ _ => true | _ => false end.

Fixpoint lookup (k : string) (ps : list (string * value)) : value :=
  match ps with
  | [] => VUndef
  | (k', v) :: r => if String.eqb k' k then v else lookup k r
  end.

(** [o?.k] for a property name [k] that is neither an index nor
    ["length"]: the value of [o.k] when [o] is not null or undefined,
    and [undefined] otherwise.  Primitives have no such property. *)
Definition prop (o : value) (k : string) : value :=
  match o with
  | VObj ps => lookup k ps
  | VArr _ extra => lookup k extra
  | _ => VUndef
  end.

(** [a[0]] on an array. *)
Definition first (v : value) : value :=
  match v with
  | VArr (e :: _) _ => e
  | _ => VUndef
  end.

(** [a.length > 0] on an array. *)
Definition nonempty (v : value) : bool :=
  match v with
  | VArr (_ :: _) _ => true
  | _ => false
  end.

Fixpoint assign (k : string) (x : value) (ps : list (string * value))
  : list (string * value) :=
  match ps with
  | [] => [(k, x)]
  | (k', v) :: r =>
      if String.eqb k' k then (k', x) :: r else (k', v) :: assign k x r
  end.

(** [o.k = x] on an object or an array (a primitive ignores it). *)
Definition set_prop (o : value) (k : string) (x : value) : value :=
  match o with
  | VObj ps => VObj (assign k x ps)
  | VArr es extra => VArr es (assign k x extra)
  | _ => o
  end.

Definition decimal (z : Z) : string := NilZero.string_of_int (Z.to_int z).

Fixpoint index_props (i : nat) (es : list value) : list (string * value) :=
  match es with
  | [] => []
  | e :: r => (decimal (Z.of_nat i), e) :: index_props (S i) r
  end.

Fixpoint char_props (i : nat) (s : string) : list (string * value) :=
  match s with
  | EmptyString => []
  | String c r =>
      (decimal (Z.of_nat i), VStr (String c EmptyString)) :: char_props (S i) r
  end.

(** The own enumerable properties copied by [{...o}]. *)
Definition own_props (o : value) : list (string * value) :=
  match o with
  | VObj ps => ps
  | VArr es extra => (index_props 0 es ++ extra)%list
  | VStr s => char_props 0 s
  | _ => []
  end.

(** [{...o, k: x}] *)
Definition spread_with (o : value) (k : string) (x : value) : value :=
  VObj (assign k x (own_props o)).

Definition number_to_string (n : number) : string :=
  match n with NaN => "NaN" | Int z => decimal z end.

(** ToString; an array joins its elements with commas, writing nothing for
    null and undefined ones, and a plain object is ["[object Object]"]. *)
Fixpoint to_string (v : value) : string :=
  match v with
  | VUndef => "undefined"
  | VNull => "null"
  | VBool true => "true"
  | VBool false => "false"
  | VNum n => number_to_string n
  | VStr s => s
  | VArr es _ =>
      (fix join (l : list value) : string :=
         match l with
         | [] => ""
         | e :: r =>
             (if nullish e then "" else to_string e)
             ++ match r with [] => "" | _ :: _ => "," ++ join r end
         end) es
  | VObj _ => "[object Object]"
  end.

(** ToNumber of a primitive that is not a string. *)
Definition to_number (v : value) : number :=
  match v with
  | VNull | VBool false => Int 0
  | VBool true => Int 1
  | VNum n => n
  | _ => NaN
  end.

Definition num_add (a b : number) : number :=
  match a, b with
  | Int x, Int y => Int (x + y)
  | _, _ => NaN
  end.

(** Does ToPrimitive give a string? (strings, arrays and objects) *)
Definition stringish (v : value) : bool :=
  match v with VStr _ | VArr _ _ | VObj _ => true | _ => false end.

(** [a + b] *)
Definition plus (a b : value) : value :=
  if stringish a || stringish b
  then VStr (to_string a ++ to_string b)
  else VNum (num_add (to_number a) (to_number b)).

(** [a === s] for a string [s]. *)
Definition is_str (a : value) (s : string) : bool :=
  match a with VStr t => String.eqb t s | _ => false end.

(** [a === b]; arrays and objects compare by reference, and the two sides
    always come from different decodings wherever the source uses it. *)
Definition strict_eq (a b : value) : bool :=
  match a, b with
  | VUndef, VUndef | VNull, VNull => true
  | VBool x, VBool y => Bool.eqb x y
  | VNum (Int x), VNum (Int y) => Z.eqb x y
  | VStr x, VStr y => String.eqb x y
  | _, _ => false
  end.

(** ASCII white space and line terminators removed by [trim]. *)
Definition is_space (c : ascii) : bool :=
  let n := nat_of_ascii c in
  (Nat.eqb n 32 || (Nat.leb 9 n && Nat.leb n 13))%bool.

Fixpoint trim_start (s : string) : string :=
  match s with
  | EmptyString => EmptyString
  | String c r => if is_space c then trim_start r else s
  end.

(** [s] without its trailing white space. *)
Fixpoint trim_end (s : string) : string :=
  match s with
  | EmptyString => EmptyString
  | String c r =>
      match trim_end r with
      | EmptyString => if is_space c then EmptyString else String c EmptyString
      | t => String c t
      end
  end.

Definition trim (s : string) : string := trim_end (trim_start s).

(** [s.startsWith(p)] is [String.prefix p s]; [s.substring(n)]: *)
Fixpoint drop (n : nat) (s : string) : string :=
  match n, s with
  | O, _ => s
  | S m, EmptyString => EmptyString
  | S m, String _ r => drop m r
  end.

End Js.

(** ** Exceptions and results *)

(** A thrown error object: its [name] and its [message]. *)
Record exn : Type := mkExn { exn_name : string; exn_message : string }.

(** [new Error(message)] *)
Definition Error (message : string) : exn := mkExn "Error" message.

(** The TypeError of reading property [key] of null or undefined (V8's
    wording of the message). *)
Definition TypeError (receiver key : string) : exn :=
  mkExn "TypeError"
    ("Cannot read properties of " ++ receiver ++ " (reading '" ++ key ++ "')").

(** The SyntaxError of [response.json()] on a body that is not JSON. *)
Definition SyntaxError : exn := mkExn "SyntaxError" "Unexpected token in JSON".

(** [String(err)], that is [Error.prototype.toString]. *)
Definition exn_to_string (e : exn) : string :=
  if Js.is_empty (exn_name e) then exn_message e
  else if Js.is_empty (exn_message e) then exn_name e
  else exn_name e ++ ": " ++ exn_message e.

Inductive res (A : Type) : Type :=
| Ok (a : A)
| Throw (e : exn).

Arguments Ok {A} a.
Arguments Throw {A} e.

(** [o.k] on a receiver that may be null or undefined. *)
Definition get (o : value) (k : string) : res value :=
  match o with
  | VUndef => Throw (TypeError "undefined" k)
  | VNull => Throw (TypeError "null" k)
  | _ => Ok (Js.prop o k)
  end.

(** ** The conversation normaliser ([conversationsApi.create], after the
    body has been decoded) *)

(** [tryGetId]: the identity search.  Every recursive call is on a part of
    [obj]; the two local functions walk a property list so that the calls
    [tryGetId(obj.data)] and [tryGetId(v)] are structural.  The equations
    the source reads as are [tryGetId_array] and [tryGetId_object] below. *)
Fixpoint tryGetId (obj : value) : value :=
  let at_key :=
    fix at_key (k : string) (ps : list (string * value)) : value :=
      match ps with
      | [] => VNull                      (* tryGetId(undefined) *)
      | (k', v) :: r => if String.eqb k' k then tryGetId v else at_key k r
      end in
  let search :=
    fix search (ps : list (string * value)) : value :=
      match ps with
      | [] => VNull
      | (_, v) :: r =>
          if Js.truthy v && Js.typeof_object v
          then (let nested := tryGetId v in
                if Js.truthy nested then nested else search r)
          else search r
      end in
  match obj with
  | VUndef | VNull | VBool _ | VNum _ => VNull
  | VStr s => if Js.is_empty s then VNull else obj
  | VArr es extra =>
      if Js.truthy (Js.lookup "id" extra) then Js.lookup "id" extra
      else if Js.truthy (Js.lookup "conversation_id" extra)
      then Js.lookup "conversation_id" extra
      else if Js.truthy (Js.lookup "data" extra) then at_key "data" extra
      else match es with
           | [] => VNull                 (* tryGetId(undefined) *)
           | e :: _ => tryGetId e
           end
  | VObj ps =>
      if Js.truthy (Js.lookup "id" ps) then Js.lookup "id" ps
      else if Js.truthy (Js.lookup "conversation_id" ps)
      then Js.lookup "conversation_id" ps
      else if Js.truthy (Js.lookup "data" ps) then at_key "data" ps
      else search ps
  end.

(** The property loop of [tryGetId], as a function of its own. *)
Fixpoint search_props (ps : list (string * value)) : value :=
  match ps with
  | [] => VNull
  | (_, v) :: r =>
      if Js.truthy v && Js.typeof_object v
      then (let nested := tryGetId v in
            if Js.truthy nested then nested else search_props r)
      else search_props r
  end.

(** The steps of [conversationsApi.create] on the decoded body [result]. *)
Module Normalize.

(** [conv && conv.data] unwrapping (line 101) *)
Definition unwrap_data (conv : value) : value :=
  if Js.truthy conv && Js.truthy (Js.prop conv "data")
  then Js.prop conv "data" else conv.

(** [Array.isArray(conv) && conv.length > 0] (lines 105 and 137) *)
Definition pick_first (conv : value) : value :=
  if Js.isArray conv && Js.nonempty conv then Js.first conv else conv.

(** the identity search and the assignment [conv.id = id] (line 109) *)
Definition fill_id (conv : value) : value :=
  if Js.truthy conv && Js.typeof_object conv
  then (let id := tryGetId conv in
        if Js.truthy id && negb (Js.truthy (Js.prop conv "id"))
        then Js.set_prop conv "id" id else conv)
  else conv.

(** a bare string becomes [{ id: conv, title: title || '' }] (line 134) *)
Definition promote_string (title conv : value) : value :=
  if Js.is_string conv
  then VObj [("id", conv); ("title", Js.or title (VStr ""))]
  else conv.

(** [conv && !conv.id && conv.data] (line 140) *)
Definition unwrap_late (conv : value) : value :=
  if Js.truthy conv && negb (Js.truthy (Js.prop conv "id"))
     && Js.truthy (Js.prop conv "data")
  then Js.prop conv "data" else conv.

(** Does the function log its warning? (line 145) *)
Definition warns (conv : value) : bool :=
  negb (Js.truthy conv) || negb (Js.truthy (Js.prop conv "id")).

Definition normalize (title result : value) : res value :=
  match get result "conversation" with
  | Throw e => Throw e
  | Ok c =>
      let conv := Js.or c result in
      let conv := unwrap_data conv in
      let conv := pick_first conv in
      let conv := fill_id conv in
      let conv := promote_string title conv in
      let conv := pick_first conv in
      let conv := unwrap_late conv in
      Ok conv
  end.

End Normalize.

(** The identity of a normalised entity. *)
Definition identity (r : res value) : value :=
  match r with
  | Ok conv => Js.prop conv "id"
  | Throw _ => VUndef
  end.

Definition obj1 (k : string) (v : value) : value := VObj [(k, v)].

(** ** The backend and the REST resource clients ([lib/api.ts]) *)

Record File : Type := mkFile { file_name : string; file_data : string }.

(** The requests the clients build against [API_BASE_URL]. *)
Inductive request : Type :=
| GetDocuments
| PostIngestAuto (file : File)
| DeleteDocument (id : string)
| GetQuery (q : string)
| PostConversations (title : value)
| GetConversations
| GetMessages (conversation_id : value)
| PostMessages (conversation_id : value) (role content : string)
| PostGenerate (conversation_id : value) (content : string)
| PostGenerateStream (conversation_id : value) (content : string).

(** A response: its status, its raw body text, and the body decoded as JSON
    when it is JSON. *)
Record Response : Type :=
  mkResponse { status : Z; text : string; json_body : option value }.

(** [response.ok] *)
Definition ok (r : Response) : bool :=
  (200 <=? status r)%Z && (status r <=? 299)%Z.

Inductive outcome : Type :=
| Resolves (r : Response)
| Rejects (e : exn).

Definition backend : Type := request -> outcome.

(** Code that runs against a backend: it may throw, and it threads a state
    [S] (for the clients, the log of the requests issued so far). *)
Definition prog (S A : Type) : Type := backend -> S -> res A * S.

Definition ret {S A} (a : A) : prog S A := fun _ st => (Ok a, st).
Definition throw {S A} (e : exn) : prog S A := fun _ st => (Throw e, st).
Definition bind {S A B} (c : prog S A) (k : A -> prog S B) : prog S B :=
  fun be st =>
    match c be st with
    | (Ok a, st') => k a be st'
    | (Throw e, st') => (Throw e, st')
    end.
Definition lift {S A} (r : res A) : prog S A := fun _ st => (r, st).

Notation "x <- c ;; k" := (bind c (fun x => k))
  (at level 61, c at next level, right associativity).
Notation "c ;;; k" := (bind c (fun _ => k))
  (at level 61, right associativity).

Definition api (A : Type) : Type := prog (list request) A.

(** [await fetch(...)] *)
Definition fetch (rq : request) : api Response :=
  fun be log =>
    (match be rq with Resolves r => Ok r | Rejects e => Throw e end,
     (log ++ [rq])%list).

(** [await response.json()] *)
Definition json (r : Response) : api value :=
  match json_body r with
  | Some v => ret v
  | None => throw SyntaxError
  end.

(** Running a client call against a backend, from an empty request log. *)
Definition run {A} (c : api A) (be : backend) : res A * list request :=
  c be [].

Module documentsApi.

Definition getAll : api value :=
  response <- fetch GetDocuments ;;
  if negb (ok response)
  then throw (Error ("Failed to fetch documents: "
                     ++ Js.decimal (status response) ++ " " ++ text response))
  else
    result <- json response ;;
    documents <- lift (get result "documents") ;;
    if Js.isArray documents then ret documents
    else if Js.isArray result then ret result
    else ret (arr []).

Definition upload (file : File) : api value :=
  response <- fetch (PostIngestAuto file) ;;
  if negb (ok response) then throw (Error "Failed to upload document")
  else
    result <- json response ;;
    document <- lift (get result "document") ;;
    ret (Js.or document result).

Definition delete (id : string) : api unit :=
  response <- fetch (DeleteDocument id) ;;
  if negb (ok response) then throw (Error "Failed to delete document")
  else ret tt.

End documentsApi.

Module queriesApi.

Definition create (queryText : string) : api value :=
  response <- fetch (GetQuery queryText) ;;
  if negb (ok response) then throw (Error "Failed to create query")
  else
    result <- json response ;;
    query <- lift (get result "query") ;;
    ret (VObj [("query", query);
               ("sources", Js.or (Js.prop result "sources") (arr []))]).

End queriesApi.

Module conversationsApi.

Definition create (title : value) : api value :=
  response <- fetch (PostConversations title) ;;
  if negb (ok response) then throw (Error "Failed to create conversation")
  else
    result <- json response ;;
    lift (Normalize.normalize title result).

Definition getAll : api value :=
  response <- fetch GetConversations ;;
  if negb (ok response) then throw (Error "Failed to fetch conversations")
  else
    result <- json response ;;
    conversations <- lift (get result "conversations") ;;
    ret (Js.or conversations result).

End conversationsApi.

Module messagesApi.

Definition getByConversation (conversationId : value) : api value :=
  if negb (Js.truthy conversationId) then ret (arr [])
  else
    response <- fetch (GetMessages conversationId) ;;
    if negb (ok response) then throw (Error "Failed to fetch messages")
    else
      result <- json response ;;
      messages <- lift (get result "messages") ;;
      ret (Js.or messages result).

Definition create (conversationId : value) (role content : string)
  : api value :=
  if negb (Js.truthy conversationId)
  then throw (Error "conversationId is required")
  else
    response <- fetch (PostMessages conversationId role content) ;;
    if negb (ok response) then throw (Error "Failed to create message")
    else
      result <- json response ;;
      message <- lift (get result "message") ;;
      ret (Js.or message result).

Definition generateAgentResponse (userMessage : string)
    (conversationId : value) : api value :=
  response <- fetch (PostGenerate conversationId userMessage) ;;
  if negb (ok response) then throw (Error "Failed to generate response")
  else json response.

End messagesApi.

(** A backend that answers every request with the same response. *)
Definition always (r : Response) : backend := fun _ => Resolves r.

Definition ok_json (v : value) : Response := mkResponse 200 "" (Some v).

(** ** The streaming consumer ([messagesApi.generateAgentResponseStream]) *)

Definition newline : ascii := "010"%char.

Definition is_newline (c : ascii) : bool := Ascii.eqb c newline.

(** Prefix the first part of a split with one more character. *)
Definition cons_head (c : ascii) (parts : list string) : list string :=
  match parts with
  | [] => [String c EmptyString]
  | p :: ps => String c p :: ps
  end.

(** [s.split('\n\n')]: the parts between successive, non-overlapping blank
    line boundaries, found from the left; never an empty list. *)
Fixpoint split_blank (s : string) : list string :=
  match s with
  | EmptyString => [EmptyString]
  | String c r =>
      match r with
      | EmptyString => [s]
      | String c2 r2 =>
          if is_newline c && is_newline c2
          then EmptyString :: split_blank r2
          else cons_head c (split_blank r)
      end
  end.

(** [{ type: 'error', error }] *)
Definition error_event (description : string) : value :=
  VObj [("type", VStr "error"); ("error", VStr description)].

(** [err?.message || String(err)] *)
Definition describe (e : exn) : string :=
  if Js.is_empty (exn_message e) then exn_to_string e else exn_message e.

(** What the transport hands to the consumer's pending [await]. *)
Inductive transport : Type :=
| Responds (r : Response) (has_body : bool)  (* fetch resolves *)
| ChunkRead (text : string)      (* read(): { done: false, value }, decoded *)
| DoneRead                       (* read(): { done: true } *)
| Failure (e : exn).             (* the pending fetch or read rejects *)

Inductive phase : Type :=
| AwaitResponse
| Reading (buffer : string)
| Closed.

(** One stream: where its consumer stands, and whether its handle's
    [stop()] has aborted the signal given to [fetch]. *)
Record stream : Type := mkStream { at_phase : phase; aborted : bool }.

Definition opened : stream := mkStream AwaitResponse false.

(** The handle's [stop()], that is [controller.abort()]. *)
Definition stop (s : stream) : stream := mkStream (at_phase s) true.

(** The rejection with which an aborted fetch or read fails; the wording of
    [msg] is the browser's. *)
Definition AbortError (msg : string) : exn := mkExn "AbortError" msg.

Section Consumer.

(** [JSON.parse], [None] when it throws.  The caller is taken to pass an
    [onEvent], as the controller always does; the events below are the
    arguments of its successive calls. *)
Variable parse : string -> option value.

(** The body of the loop over [parts]. *)
Definition on_part (part : string) : list value :=
  if Js.is_empty (Js.trim part) then []
  else
    let raw := if String.prefix "data: " part then Js.drop 6 part else part in
    match parse raw with
    | Some event => [event]
    | None => []
    end.

(** One successful read: the new buffer and the events passed to
    [onEvent], in order. *)
Definition on_chunk (buffer text : string) : string * list value :=
  let parts := split_blank (buffer ++ text) in
  (last parts EmptyString, flat_map on_part (removelast parts)).

(** One resumption of the consumer: its next phase and the events it
    passes to [onEvent]. *)
Definition consume (p : phase) (t : transport) : phase * list value :=
  match p, t with
  | Closed, _ => (Closed, [])
  | _, Failure e => (Closed, [error_event (describe e)])
  | AwaitResponse, Responds r has_body =>
      if negb (ok r)
      then (Closed, [error_event (Js.decimal (status r) ++ " " ++ text r)])
      else if has_body then (Reading EmptyString, []) else (Closed, [])
  | Reading buffer, ChunkRead text =>
      let (buffer', events) := on_chunk buffer text in
      (Reading buffer', events)
  | Reading _, DoneRead => (Closed, [])
  | _, _ => (p, [])               (* not what the pending await waits for *)
  end.

Definition step (s : stream) (t : transport) : stream * list value :=
  let (p, events) := consume (at_phase s) t in
  (mkStream p (aborted s), events).

(** All the events a stream passes to [onEvent] over a run of its
    transport. *)
Fixpoint emitted (s : stream) (ts : list transport) : list value :=
  match ts with
  | [] => []
  | t :: r => let (s', events) := step s t in (events ++ emitted s' r)%list
  end.

(** The events of the complete frames of a text. *)
Definition frames (whole : string) : list value :=
  flat_map on_part (removelast (split_blank whole)).

End Consumer.

(** A stream event ends the turn when its type is [final] or [error]. *)
Definition terminal (event : value) : bool :=
  Js.is_str (Js.prop event "type") "final"
  || Js.is_str (Js.prop event "type") "error".

(** ** The session controller ([pages/AnalysisAgentPage.tsx]) *)

(** A stream handle: the position of its stream among those opened. *)
Definition handle : Type := nat.

(** The component's state: its [useState] cells and
    [streamControllerRef.current]. *)
Record Session : Type := mkSession {
  currentConversation : value;
  messages : list value;
  isLoading : bool;
  initialQuery : string;
  hasStarted : bool;
  workflowResult : value;
  streamControllerRef : option handle
}.

Definition initial_session : Session :=
  mkSession VNull [] false "" false VNull None.

Definition setCurrentConversation (c : value) (s : Session) : Session :=
  mkSession c (messages s) (isLoading s) (initialQuery s) (hasStarted s)
            (workflowResult s) (streamControllerRef s).
Definition setMessages (ms : list value) (s : Session) : Session :=
  mkSession (currentConversation s) ms (isLoading s) (initialQuery s)
            (hasStarted s) (workflowResult s) (streamControllerRef s).
Definition setIsLoading (b : bool) (s : Session) : Session :=
  mkSession (currentConversation s) (messages s) b (initialQuery s)
            (hasStarted s) (workflowResult s) (streamControllerRef s).
Definition setInitialQuery (q : string) (s : Session) : Session :=
  mkSession (currentConversation s) (messages s) (isLoading s) q
            (hasStarted s) (workflowResult s) (streamControllerRef s).
Definition setHasStarted (b : bool) (s : Session) : Session :=
  mkSession (currentConversation s) (messages s) (isLoading s)
            (initialQuery s) b (workflowResult s) (streamControllerRef s).
Definition setWorkflowResult (r : value) (s : Session) : Session :=
  mkSession (currentConversation s) (messages s) (isLoading s)
            (initialQuery s) (hasStarted s) r (streamControllerRef s).
Definition setStreamControllerRef (h : option handle) (s : Session) : Session :=
  mkSession (currentConversation s) (messages s) (isLoading s)
            (initialQuery s) (hasStarted s) (workflowResult s) h.

(** Which handler opened a stream, and what its event callback closes
    over: the placeholder identity and the conversation of that turn. *)
Inductive origin : Type := FromStartAnalysis | FromSendMessage.

Record closure : Type := mkClosure {
  opened_by : origin;
  assistantId : string;
  conversation : value
}.

(** [prev.map(m => m.id === assistantId ? f(m) : m)] *)
Fixpoint update_where (id : string) (f : value -> value) (prev : list value)
  : res (list value) :=
  match prev with
  | [] => Ok []
  | m :: r =>
      match get m "id" with
      | Throw e => Throw e
      | Ok mid =>
          match update_where id f r with
          | Throw e => Throw e
          | Ok r' => Ok ((if Js.is_str mid id then f m else m) :: r')
          end
      end
  end.

(** [{ ...m, content: (m.content || '') + event.partial }] *)
Definition append_partial (event m : value) : value :=
  Js.spread_with m "content"
    (Js.plus (Js.or (Js.prop m "content") (VStr "")) (Js.prop event "partial")).

(** [event.result || event.workflow_result || event] *)
Definition result_of (event : value) : value :=
  Js.or (Js.or (Js.prop event "result") (Js.prop event "workflow_result")) event.

(** [{ ...m, content: result?.final_output || m.content }] *)
Definition fallback_final (result m : value) : value :=
  Js.spread_with m "content"
    (Js.or (Js.prop result "final_output") (Js.prop m "content")).

(** [{ ...m, content: `Error: ${event.error || '...'}` }] *)
Definition mark_error (event m : value) : value :=
  Js.spread_with m "content"
    (VStr ("Error: "
           ++ Js.to_string (Js.or (Js.prop event "error")
                                  (VStr "An error occurred during analysis.")))).

(** The event callback given to [generateAgentResponseStream] by the
    handler [opened_by c]; [self] is the handle that call returned.  A
    [Throw] is the TypeError of [event.type] on a null event, or of [m.id]
    on a null message when the list is mapped. *)
Definition on_event (c : closure) (self : handle) (event : value) (s : Session)
  : res Session :=
  match get event "type" with
  | Throw e => Throw e
  | Ok type =>
      if Js.is_str type "partial" then
        match update_where (assistantId c) (append_partial event) (messages s) with
        | Throw e => Throw e
        | Ok ms => Ok (setMessages ms s)
        end
      else if Js.is_str type "final" then
        let assistant_msg := Js.prop event "assistant_message" in
        let result := result_of event in
        match update_where (assistantId c)
                (if Js.truthy assistant_msg
                 then (fun _ => assistant_msg) else fallback_final result)
                (messages s) with
        | Throw e => Throw e
        | Ok ms =>
            let s := setMessages ms s in
            let s := match opened_by c with
                     | FromStartAnalysis => setStreamControllerRef (Some self) s
                     | FromSendMessage => s
                     end in
            let s := setWorkflowResult (Js.or result VNull) s in
            if Js.truthy (Js.prop event "conversation_id")
               && negb (Js.strict_eq (Js.prop (conversation c) "id")
                                     (Js.prop event "conversation_id"))
            then Ok (setCurrentConversation
                       (Js.spread_with (conversation c) "id"
                                       (Js.prop event "conversation_id")) s)
            else Ok s
        end
      else if Js.is_str type "error" then
        match update_where (assistantId c) (mark_error event) (messages s) with
        | Throw e => Throw e
        | Ok ms => Ok (setMessages ms s)
        end
      else Ok s                          (* 'status' and anything else *)
  end.

(** What the controller does to the outside, in order. *)
Inductive effect : Type :=
| Requested (rq : request)
| Stopped (h : handle)
| Alerted (msg : string).

(** The component together with the streams it has opened (each with the
    callback it was given), the trace of its effects, and what React and
    the network still owe it: whether [currentConversation] has changed
    since the effect on it last ran ([effect_due]), and the reloads of the
    message list whose request is in flight, each with the result its
    [await] will give ([reloads]). *)
Record World : Type := mkWorld {
  session : Session;
  streams : list (closure * stream);
  trace : list effect;
  effect_due : bool;
  reloads : list (res value)
}.

Definition initial_world : World := mkWorld initial_session [] [] false [].

Definition modify (f : Session -> Session) : prog World unit :=
  fun _ w =>
    (Ok tt, mkWorld (f (session w)) (streams w) (trace w) (effect_due w)
                    (reloads w)).

Definition emit (e : effect) : prog World unit :=
  fun _ w =>
    (Ok tt, mkWorld (session w) (streams w) (trace w ++ [e])%list
                    (effect_due w) (reloads w)).

(** A client call made by the controller. *)
Definition call {A} (c : api A) : prog World A :=
  fun be w =>
    let (r, log) := run c be in
    (r, mkWorld (session w) (streams w) (trace w ++ map Requested log)%list
                (effect_due w) (reloads w)).

(** [setCurrentConversation(c)]: the effect on [currentConversation] is
    due at the next render unless [c] is the value the cell holds (an
    object built by the caller never is; [null] over [null] is). *)
Definition adopt (c : value) : prog World unit :=
  fun _ w =>
    (Ok tt,
     mkWorld (setCurrentConversation c (session w)) (streams w) (trace w)
             (effect_due w
              || negb (Js.strict_eq c (currentConversation (session w))))
             (reloads w)).

Fixpoint stop_nth (h : handle) (ss : list (closure * stream))
  : list (closure * stream) :=
  match ss, h with
  | [], _ => []
  | (c, s) :: r, O => (c, stop s) :: r
  | cs :: r, S h' => cs :: stop_nth h' r
  end.

(** [if (streamControllerRef.current) { try { ....stop(); } catch (e) {} }] *)
Definition stop_existing : prog World unit :=
  fun _ w =>
    match streamControllerRef (session w) with
    | Some h =>
        (Ok tt, mkWorld (session w) (stop_nth h (streams w))
                        (trace w ++ [Stopped h])%list
                        (effect_due w) (reloads w))
    | None => (Ok tt, w)
    end.

(** [messagesApi.generateAgentResponseStream(content, id, callback)]: the
    request is issued at once and the new handle returned. *)
Definition generateAgentResponseStream (content : string)
    (conversationId : value) (callback : closure) : prog World handle :=
  fun _ w =>
    (Ok (List.length (streams w)),
     mkWorld (session w) (streams w ++ [(callback, opened)])%list
             (trace w ++ [Requested (PostGenerateStream conversationId content)])%list
             (effect_due w) (reloads w)).

(** [try { body } catch (error) { handler(error) } finally { final }] for a
    handler and a final block that do not throw. *)
Definition try_catch_finally (body : prog World unit)
    (handler : exn -> prog World unit) (final : prog World unit)
  : prog World unit :=
  fun be w =>
    match body be w with
    | (Ok _, w') => final be w'
    | (Throw e, w') => (handler e ;;; final) be w'
    end.

(** [`stream-${Date.now()}`] and the placeholder built from it. *)
Definition stream_id (now : Z) : string := "stream-" ++ Js.decimal now.

Definition placeholder (id : string) (conversationId : value)
    (created_at : string) : value :=
  VObj [("id", VStr id); ("conversation_id", conversationId);
        ("role", VStr "assistant"); ("content", VStr "");
        ("created_at", VStr created_at)].

(** [x?.id ?? x?.conversation_id ?? (typeof x === 'string' ? x : undefined)] *)
Definition id_of (x : value) : value :=
  Js.coalesce (Js.coalesce (Js.prop x "id") (Js.prop x "conversation_id"))
              (if Js.is_string x then x else VUndef).

(** [convId ? { ...conversation, id: convId } : conversation], for
    [convId] the identity read off [conversation] by [id_of]. *)
Definition with_id (conversation : value) : value :=
  let convId := id_of conversation in
  if Js.truthy convId
  then Js.spread_with conversation "id" convId else conversation.

(** A render of the page.  When [currentConversation] has changed since
    the effect on it last ran (l.16-20), the effect runs: with a
    conversation it calls [loadMessages], which runs up to its [await]: the
    request for the messages of the conversation is sent and the reload is
    in flight. *)
Definition render : prog World unit :=
  fun be w =>
    if negb (effect_due w) then (Ok tt, w)
    else
      let currentConversation := currentConversation (session w) in
      let w := mkWorld (session w) (streams w) (trace w) false (reloads w) in
      if negb (Js.truthy currentConversation) then (Ok tt, w)
      else
        let conversationId := id_of currentConversation in
        if negb (Js.truthy conversationId) then (Ok tt, w)
        else
          let (msgs, log) :=
            run (messagesApi.getByConversation conversationId) be in
          (Ok tt,
           mkWorld (session w) (streams w)
                   (trace w ++ map Requested log)%list false
                   (reloads w ++ [msgs])%list).

(** [await c] in a handler that has just changed the conversation: the
    request of [c] is sent, the page renders while the handler waits, and
    the handler resumes with the result of [c]. *)
Definition awaiting {A} (c : api A) : prog World A :=
  fun be w =>
    let (r, w') := call c be w in
    (r, snd (render be w')).

(** [initialQuery.slice(0, 50) + (initialQuery.length > 50 ? '...' : '')] *)
Definition title_of (initialQuery : string) : value :=
  VStr (String.substring 0 50 initialQuery
        ++ (if Nat.ltb 50 (String.length initialQuery) then "..." else "")).

(** [handleStartAnalysis], for a submit at time [now]; the handler runs as
    one step (what other tasks do between its awaits is not interleaved),
    but for the render that its own change of the conversation (l.53)
    brings about while the creation of the user's message is awaited. *)
Definition handleStartAnalysis (now : Z) (created_at : string)
  : prog World unit :=
  fun be w =>
    let initialQuery := initialQuery (session w) in
    if Js.is_empty (Js.trim initialQuery) then (Ok tt, w)
    else
      (modify (setIsLoading true) ;;;
       modify (setHasStarted true) ;;;
       try_catch_finally
         (conversation <-
            call (conversationsApi.create (title_of initialQuery)) ;;
          let normalizedConversation := with_id conversation in
          if negb (Js.truthy normalizedConversation)
             || negb (Js.truthy (Js.prop normalizedConversation "id"))
          then throw (Error "Conversation id missing from server response; see console for the raw server response.")
          else
            adopt normalizedConversation ;;;
            userMessage <-
              awaiting (messagesApi.create (Js.prop normalizedConversation "id")
                                           "user" (Js.trim initialQuery)) ;;
            let assistantId := stream_id now in
            let assistantPlaceholder :=
              placeholder assistantId (Js.prop normalizedConversation "id")
                          created_at in
            modify (setMessages [userMessage; assistantPlaceholder]) ;;;
            stop_existing ;;;
            controller <-
              generateAgentResponseStream
                (Js.trim initialQuery) (Js.prop normalizedConversation "id")
                (mkClosure FromStartAnalysis assistantId normalizedConversation) ;;
            ret tt)
         (fun error =>
            emit (Alerted (if Js.is_empty (exn_message error)
                           then "Failed to start analysis. Please try again."
                           else exn_message error)))
         (modify (setIsLoading false))) be w.

(** [handleSendMessage(content)] *)
Definition handleSendMessage (content : string) (now : Z) (created_at : string)
  : prog World unit :=
  fun be w =>
    let currentConversation := currentConversation (session w) in
    if negb (Js.truthy currentConversation) then (Ok tt, w)
    else
      (modify (setIsLoading true) ;;;
       try_catch_finally
         (let conversationId := id_of currentConversation in
          if negb (Js.truthy conversationId)
          then throw (Error "No conversation id")
          else
            userMessage <-
              call (messagesApi.create conversationId "user" content) ;;
            modify (fun s => setMessages (messages s ++ [userMessage])%list s) ;;;
            let assistantId := stream_id now in
            let assistantPlaceholder :=
              placeholder assistantId conversationId created_at in
            modify (fun s =>
                      setMessages (messages s ++ [assistantPlaceholder])%list s) ;;;
            stop_existing ;;;
            controller <-
              generateAgentResponseStream
                content conversationId
                (mkClosure FromSendMessage assistantId currentConversation) ;;
            modify (setStreamControllerRef (Some controller)))
         (fun error =>
            emit (Alerted "Failed to send message. Please try again."))
         (modify (setIsLoading false))) be w.

(** The cleanup of the unmount effect. *)
Definition unmount : prog World unit :=
  stop_existing ;;; modify (setStreamControllerRef None).

(** [handleNewConversation] *)
Definition handleNewConversation : prog World unit :=
  adopt VNull ;;;
  modify (fun s => setHasStarted false (setInitialQuery "" (setMessages [] s))).

(** The events on which the callback of [c] calls
    [setCurrentConversation]: the final events that carry a conversation
    identity other than that of the conversation the callback closes
    over (l.93-94, l.154-155). *)
Definition adopts (c : closure) (event : value) : bool :=
  Js.is_str (Js.prop event "type") "final"
  && (Js.truthy (Js.prop event "conversation_id")
      && negb (Js.strict_eq (Js.prop (conversation c) "id")
                            (Js.prop event "conversation_id"))).

(** The callback of stream [h] is invoked with [event].  When it throws,
    the rejection of the callback's promise is nobody's to handle and the
    state stays as it was.  The conversation the callback adopts is a new
    object, so the effect on [currentConversation] is due at the next
    render. *)
Definition deliver (h : handle) (event : value) (w : World) : World :=
  match nth_error (streams w) h with
  | None => w
  | Some (c, _) =>
      match on_event c h event (session w) with
      | Ok s' =>
          mkWorld s' (streams w) (trace w)
                  (effect_due w || adopts c event) (reloads w)
      | Throw _ => w
      end
  end.

Fixpoint remove_nth {A} (k : nat) (l : list A) : list A :=
  match l, k with
  | [], _ => []
  | _ :: r, O => r
  | x :: r, S k' => x :: remove_nth k' r
  end.

(** The reload in flight at position [k] settles and [loadMessages]
    resumes after its [await]: a list replaces the whole message list, a
    failure is logged to the console and changes nothing.  A result that
    is not an array is given to [setMessages] all the same; the cell then
    holds no list and the answer is [None]. *)
Definition loaded (k : nat) (w : World) : option World :=
  match nth_error (reloads w) k with
  | None => Some w
  | Some (Ok (VArr msgs _)) =>
      Some (mkWorld (setMessages msgs (session w)) (streams w) (trace w)
                    (effect_due w) (remove_nth k (reloads w)))
  | Some (Ok _) => None
  | Some (Throw _) =>
      Some (mkWorld (session w) (streams w) (trace w) (effect_due w)
                    (remove_nth k (reloads w)))
  end.

Definition deliver_all (h : handle) (events : list value) (w : World) : World :=
  fold_left (fun w event => deliver h event w) events w.

Fixpoint set_stream (h : handle) (s' : stream) (ss : list (closure * stream))
  : list (closure * stream) :=
  match ss, h with
  | [], _ => []
  | (c, _) :: r, O => (c, s') :: r
  | cs :: r, S h' => cs :: set_stream h' s' r
  end.

(** What can happen to the mounted component. *)
Inductive action : Type :=
| TypeQuery (q : string)
| SubmitStart (now : Z) (created_at : string)
| SubmitSend (content : string) (now : Z) (created_at : string)
| NewConversation
| Unmount
| Net (h : handle) (t : transport)    (* the pending await of stream h settles *)
| Render                              (* React renders the page *)
| Loaded (k : nat).                   (* the reload in flight at k settles *)

Section Run.

Variable parse : string -> option value.
Variable be : backend.

(** The transport of stream [h] settles with [t]: its consumer resumes
    and hands every event it emits to the callback. *)
Definition net (h : handle) (t : transport) (w : World) : World :=
  match nth_error (streams w) h with
  | None => w
  | Some (_, s) =>
      let (s', events) := step parse s t in
      deliver_all h events
        (mkWorld (session w) (set_stream h s' (streams w)) (trace w)
                 (effect_due w) (reloads w))
  end.

Definition perform (w : World) (a : action) : World :=
  match a with
  | TypeQuery q => snd (modify (setInitialQuery q) be w)
  | SubmitStart now created_at => snd (handleStartAnalysis now created_at be w)
  | SubmitSend content now created_at =>
      snd (handleSendMessage content now created_at be w)
  | NewConversation => snd (handleNewConversation be w)
  | Unmount => snd (unmount be w)
  | Net h t => net h t w
  | Render => snd (render be w)
  | Loaded k =>
      match loaded k w with
      | Some w' => w'
      | None => snd (unmount be w)
          (* the list cannot be rendered: React removes the page, and the
             cleanup of its effects runs *)
      end
  end.

Definition perform_all (w : World) (acts : list action) : World :=
  fold_left perform acts w.

End Run.

(** ** Vocabulary of the properties *)

(** [s.includes(x)] *)
Fixpoint includes (s x : string) : bool :=
  String.prefix x s
  || match s with
     | EmptyString => false
     | String _ r => includes r x
     end.

(** An error carries a response's status code and raw body text when its
    message shows both. *)
Definition carries (e : exn) (r : Response) : bool :=
  includes (exn_message e) (Js.decimal (status r))
  && includes (exn_message e) (text r).

(** The non-streaming operations of the resource clients. *)
Inductive operation : Type :=
| DocumentList
| DocumentUpload (file : File)
| DocumentDelete (id : string)
| QueryCreate (queryText : string)
| ConversationCreate (title : value)
| ConversationList
| MessageList (conversationId : value)
| MessageCreate (conversationId : value) (role content : string).

(** The call of an operation ([undefined] stands for the result of the
    [void] one), the request it sends, and the message of the error it
    throws on a non-success status. *)
Definition invoke (op : operation) : api value :=
  match op with
  | DocumentList => documentsApi.getAll
  | DocumentUpload file => documentsApi.upload file
  | DocumentDelete id => _ <- documentsApi.delete id ;; ret VUndef
  | QueryCreate queryText => queriesApi.create queryText
  | ConversationCreate title => conversationsApi.create title
  | ConversationList => conversationsApi.getAll
  | MessageList conversationId => messagesApi.getByConversation conversationId
  | MessageCreate conversationId role content =>
      messagesApi.create conversationId role content
  end.

Definition request_of (op : operation) : request :=
  match op with
  | DocumentList => GetDocuments
  | DocumentUpload file => PostIngestAuto file
  | DocumentDelete id => DeleteDocument id
  | QueryCreate queryText => GetQuery queryText
  | ConversationCreate title => PostConversations title
  | ConversationList => GetConversations
  | MessageList conversationId => GetMessages conversationId
  | MessageCreate conversationId role content =>
      PostMessages conversationId role content
  end.

Definition failure_message (op : operation) (r : Response) : string :=
  match op with
  | DocumentList =>
      "Failed to fetch documents: " ++ Js.decimal (status r) ++ " " ++ text r
  | DocumentUpload _ => "Failed to upload document"
  | DocumentDelete _ => "Failed to delete document"
  | QueryCreate _ => "Failed to create query"
  | ConversationCreate _ => "Failed to create conversation"
  | ConversationList => "Failed to fetch conversations"
  | MessageList _ => "Failed to fetch messages"
  | MessageCreate _ _ _ => "Failed to create message"
  end.

(** The message operations reach the backend only with a conversation
    identity that is not falsy. *)
Definition reaches_backend (op : operation) : bool :=
  match op with
  | MessageList conversationId | MessageCreate conversationId _ _ =>
      Js.truthy conversationId
  | _ => true
  end.

(** The text of a sequence of chunks. *)
Definition join_all (chunks : list string) : string :=
  fold_right String.append EmptyString chunks.

(** Does a sequence of events stop at its first terminal event? *)
Fixpoint ends_at_terminal (events : list value) : bool :=
  match events with
  | [] => true
  | e :: r =>
      if terminal e
      then match r with [] => true | _ :: _ => false end
      else ends_at_terminal r
  end.

(** The callback of one stream invoked with a sequence of events. *)
Fixpoint on_events (c : closure) (self : handle) (events : list value)
    (s : Session) : res Session :=
  match events with
  | [] => Ok s
  | e :: r =>
      match on_event c self e s with
      | Ok s' => on_events c self r s'
      | Throw x => Throw x
      end
  end.

(** A [partial] event with fragment [f]. *)
Definition carries_fragment (event : value) (f : string) : Prop :=
  Js.is_str (Js.prop event "type") "partial" = true
  /\ Js.prop event "partial" = VStr f.

Definition is_final (event : value) : bool :=
  Js.is_str (Js.prop event "type") "final".

(** The [final_output] a final event supplies. *)
Definition final_output (event : value) : value :=
  Js.prop (result_of event) "final_output".

(** Is [m] the message a callback with placeholder identity [id] updates? *)
Definition targets (id : string) (m : value) : bool :=
  Js.is_str (Js.prop m "id") id.

Definition is_digit (c : ascii) : bool :=
  Nat.leb 48 (nat_of_ascii c) && Nat.leb (nat_of_ascii c) 57.

(** A property name that is not an array index: it does not start with a
    digit. *)
Definition named (k : string) : bool :=
  match k with
  | EmptyString => true
  | String c _ => negb (is_digit c)
  end.

(** What a [partial] event does to one message: a targeted message is
    respread with the fragment added to its content, its identity and role
    kept; any other message is left alone. *)
Definition partial_step (id : string) (event m m' : value) : Prop :=
  if targets id m
  then m' = append_partial event m
       /\ Js.prop m' "id" = Js.prop m "id"
       /\ Js.prop m' "role" = Js.prop m "role"
       /\ Js.prop m' "content"
          = Js.plus (Js.or (Js.prop m "content") (VStr "")) (Js.prop event "partial")
       /\ (forall t f,
             Js.prop m "content" = VStr t ->
             Js.prop event "partial" = VStr f ->
             Js.prop m' "content" = VStr (t ++ f))
  else m' = m.

(** What a run of partial events followed by a final event without
    [assistant_message] leaves in a message: a targeted message whose
    content was the text [t] ends with the final output when that is not
    falsy, and with [t] followed by the fragments otherwise. *)
Definition settled (id : string) (fragments : list string) (final : value)
    (m m' : value) : Prop :=
  if targets id m
  then forall t,
      Js.prop m "content" = VStr t ->
      Js.prop m' "content"
      = if Js.truthy (final_output final) then final_output final
        else VStr (t ++ join_all fragments)
  else m' = m.


(** What the callback of a stream with placeholder identity [id] does to
    one message for an update [f] of the placeholder. *)
Definition update_one (id : string) (f : value -> value) (m : value) : value :=
  if targets id m then f m else m.

(** The update of the placeholder an event asks for, if any; it depends on
    the event alone. *)
Definition message_update (event : value) : option (value -> value) :=
  match get event "type" with
  | Throw _ => None
  | Ok type =>
      if Js.is_str type "partial" then Some (append_partial event)
      else if Js.is_str type "final"
      then Some (if Js.truthy (Js.prop event "assistant_message")
                 then (fun _ => Js.prop event "assistant_message")
                 else fallback_final (result_of event))
      else if Js.is_str type "error" then Some (mark_error event)
      else None
  end.

(** Stream events as they reach the callbacks, each with the handle of its
    stream. *)
Definition deliver_seq (ds : list (handle * value)) (w : World) : World :=
  fold_left (fun w d => deliver (fst d) (snd d) w) ds w.


(** A message list the state updaters can map: no entry is null or
    undefined. *)
Definition mappable (ms : list value) : Prop :=
  Forall (fun m => Js.nullish m = false) ms.

(** State [idle] of the session: no conversation, and no handler at work. *)
Definition idle (s : Session) : Prop :=
  currentConversation s = VNull /\ isLoading s = false.

(** Conversation creation fails: a non-success status, or a created
    conversation off which no identity can be read. *)
Definition creation_fails (be : backend) (title : value) : Prop :=
  (exists r, be (PostConversations title) = Resolves r /\ ok r = false)
  \/ (exists conversation,
        fst (run (conversationsApi.create title) be) = Ok conversation
        /\ Js.truthy (id_of conversation) = false).









(** The messages shown once the reload in flight at [k] has settled. *)
Definition shown_after (k : nat) (w : World) : option (list value) :=
  option_map (fun w' => messages (session w')) (loaded k w).

(** ** Concrete backends, frames and decoders used in the examples *)

Definition dq : string := String (ascii_of_nat 34) EmptyString.

Definition blank_line : string := String newline (String newline EmptyString).

(** The frame [{"type":"final"}] and the value [JSON.parse] gives for it. *)
Definition final_frame : string :=
  "{" ++ dq ++ "type" ++ dq ++ ":" ++ dq ++ "final" ++ dq ++ "}".

Definition final_value : value := obj1 "type" (VStr "final").

(** The frame [{"type":"partial","partial":"x"}] and its value. *)
Definition partial_frame : string :=
  "{" ++ dq ++ "type" ++ dq ++ ":" ++ dq ++ "partial" ++ dq ++ ","
  ++ dq ++ "partial" ++ dq ++ ":" ++ dq ++ "x" ++ dq ++ "}".

Definition partial_event (f : string) : value :=
  VObj [("type", VStr "partial"); ("partial", VStr f)].

(** A decoder that agrees with [JSON.parse] on the two frames above and
    rejects every other text. *)
Definition decode_table (raw : string) : option value :=
  if String.eqb raw final_frame then Some final_value
  else if String.eqb raw partial_frame then Some (partial_event "x")
  else None.

(** A backend that creates conversation [c1] and echoes created messages. *)
Definition demo_backend : backend :=
  fun rq =>
    match rq with
    | PostConversations title =>
        Resolves (ok_json (VObj [("id", VStr "c1"); ("title", title)]))
    | PostMessages cid role content =>
        Resolves (ok_json (obj1 "message"
          (VObj [("id", VStr ("m-" ++ content)); ("conversation_id", cid);
                 ("role", VStr role); ("content", VStr content)])))
    | _ => Resolves (mkResponse 404 "not found" None)
    end.

(** The same backend, which also serves one stored message for every
    conversation. *)
Definition stored_message : value :=
  VObj [("id", VStr "srv-1"); ("role", VStr "user"); ("content", VStr "stored")].

Definition serving_backend : backend :=
  fun rq =>
    match rq with
    | GetMessages _ => Resolves (ok_json (arr [stored_message]))
    | _ => demo_backend rq
    end.

(** A final event that names the conversation [id]. *)
Definition final_for (id : string) : value :=
  VObj [("type", VStr "final"); ("conversation_id", VStr id)].


Definition browser_abort : exn := AbortError "The user aborted a request.".

(** ** The reload effect of the agent page ([loadMessages]) *)

(** [loadMessages]: the effect that runs when [currentConversation]
    changes.  The state cell [messages] is given whatever the client
    returns; when that is not an array the cell no longer holds a list and
    the result is [None]. *)
Definition loadMessages (be : backend) (w : World) : option World :=
  let currentConversation := currentConversation (session w) in
  if negb (Js.truthy currentConversation) then Some w
  else
    let conversationId := id_of currentConversation in
    if negb (Js.truthy conversationId) then Some w
    else
      match run (messagesApi.getByConversation conversationId) be with
      | (Ok (VArr msgs _), log) =>
          Some (mkWorld (setMessages msgs (session w)) (streams w)
                        (trace w ++ map Requested log)%list
                        (effect_due w) (reloads w))
      | (Ok _, _) => None
      | (Throw _, log) =>                          (* console.error *)
          Some (mkWorld (session w) (streams w)
                        (trace w ++ map Requested log)%list
                        (effect_due w) (reloads w))
      end.

(** ** The other pages ([pages/IngestPage.tsx], [pages/QueryPage.tsx]) and
    the upload widget ([components/FileUpload.tsx]) *)

(** [try { body } catch (error) { handler(error) } finally { final }] over
    any state, for a handler and a final block that do not throw. *)
Definition attempt {S} (body : prog S unit) (handler : exn -> prog S unit)
    (final : prog S unit) : prog S unit :=
  fun be st =>
    match body be st with
    | (Ok _, st') => final be st'
    | (Throw e, st') => (handler e ;;; final) be st'
    end.

Module IngestPage.

Record State : Type := mkState {
  documents : list value;
  isUploading : bool;
  isLoading : bool
}.

(** The page and what it has done to the outside. *)
Record Page : Type := mkPage { state : State; effects : list effect }.

Definition initial : Page := mkPage (mkState [] false true) [].

Definition setDocuments (ds : list value) (s : State) : State :=
  mkState ds (isUploading s) (isLoading s).
Definition setIsUploading (b : bool) (s : State) : State :=
  mkState (documents s) b (isLoading s).
Definition setIsLoading (b : bool) (s : State) : State :=
  mkState (documents s) (isUploading s) b.

Definition modify (f : State -> State) : prog Page unit :=
  fun _ p => (Ok tt, mkPage (f (state p)) (effects p)).

Definition emit (e : effect) : prog Page unit :=
  fun _ p => (Ok tt, mkPage (state p) (effects p ++ [e])%list).

Definition call {A} (c : api A) : prog Page A :=
  fun be p =>
    let (r, log) := run c be in
    (r, mkPage (state p) (effects p ++ map Requested log)%list).

(** [Array.isArray(docs) ? docs : []], as the list of its elements. *)
Definition array_or_empty (docs : value) : list value :=
  match docs with
  | VArr es _ => es
  | _ => []
  end.

(** [loadDocuments] *)
Definition loadDocuments : prog Page unit :=
  attempt
    (docs <- call documentsApi.getAll ;;
     modify (setDocuments (array_or_empty docs)))
    (fun error => ret tt)                          (* console.error *)
    (modify (setIsLoading false)).

(** [handleUpload(file)] *)
Definition handleUpload (file : File) : prog Page unit :=
  modify (setIsUploading true) ;;;
  attempt
    (_ <- call (documentsApi.upload file) ;;
     loadDocuments)
    (fun error => emit (Alerted "Failed to upload document. Please try again."))
    (modify (setIsUploading false)).

(** [documents.filter((doc) => doc.id !== id)] *)
Fixpoint without_id (id : string) (docs : list value) : res (list value) :=
  match docs with
  | [] => Ok []
  | doc :: r =>
      match get doc "id" with
      | Throw e => Throw e
      | Ok doc_id =>
          match without_id id r with
          | Throw e => Throw e
          | Ok r' => Ok (if Js.is_str doc_id id then r' else doc :: r')
          end
      end
  end.

(** [handleDelete(id)]; [confirmed] is the answer to the [confirm]
    dialog. *)
Definition handleDelete (id : string) (confirmed : bool) : prog Page unit :=
  fun be p =>
    if negb confirmed then (Ok tt, p)
    else
      attempt
        (_ <- call (documentsApi.delete id) ;;
         remaining <- lift (without_id id (documents (state p))) ;;
         modify (setDocuments remaining))
        (fun error =>
           emit (Alerted "Failed to delete document. Please try again."))
        (ret tt) be p.

End IngestPage.

Module FileUpload.

(** A file picked in the browser: the file and its MIME type. *)
Record Picked : Type := mkPicked { file : File; type : string }.

Definition allowedTypes : list string :=
  ["application/pdf"; "text/plain"; "text/markdown";
   "application/vnd.openxmlformats-officedocument.wordprocessingml.document";
   "application/msword"].

Definition allowedExtensions : list string :=
  [".pdf"; ".txt"; ".md"; ".docx"; ".doc"].

Definition is_dot (c : ascii) : bool := Ascii.eqb c "."%char.

(** [s.split('.')] *)
Fixpoint split_dot (s : string) : list string :=
  match s with
  | EmptyString => [EmptyString]
  | String c r =>
      if is_dot c then EmptyString :: split_dot r
      else cons_head c (split_dot r)
  end.

(** [toLowerCase] on ASCII letters. *)
Definition lower (c : ascii) : ascii :=
  let n := nat_of_ascii c in
  if Nat.leb 65 n && Nat.leb n 90 then ascii_of_nat (n + 32) else c.

Fixpoint toLowerCase (s : string) : string :=
  match s with
  | EmptyString => EmptyString
  | String c r => String (lower c) (toLowerCase r)
  end.

(** [a.includes(x)] on an array of strings. *)
Definition includes_string (a : list string) (x : string) : bool :=
  existsb (String.eqb x) a.

(** ['.' + file.name.split('.').pop()?.toLowerCase()] *)
Definition fileExtension (name : string) : string :=
  "." ++ toLowerCase (last (split_dot name) EmptyString).

Definition accepted (f : Picked) : bool :=
  includes_string allowedTypes (type f)
  || includes_string allowedExtensions (fileExtension (file_name (file f))).

(** [handleFile(file)], with the page's [handleUpload] as [onUpload]. *)
Definition handleFile (f : Picked) : prog IngestPage.Page unit :=
  if negb (accepted f)
  then IngestPage.emit
         (Alerted "Please upload PDF, TXT, DOCX, or MD files only.")
  else IngestPage.handleUpload (file f).

End FileUpload.

Module QueryPage.

Record State : Type := mkState {
  query : string;
  isQuerying : bool;
  answer : value;
  sources : list value
}.

Record Page : Type := mkPage { state : State; effects : list effect }.

Definition initial : Page := mkPage (mkState "" false VNull []) [].

Definition setQuery (q : string) (s : State) : State :=
  mkState q (isQuerying s) (answer s) (sources s).
Definition setIsQuerying (b : bool) (s : State) : State :=
  mkState (query s) b (answer s) (sources s).
Definition setAnswer (a : value) (s : State) : State :=
  mkState (query s) (isQuerying s) a (sources s).
Definition setSources (l : list value) (s : State) : State :=
  mkState (query s) (isQuerying s) (answer s) l.

Definition modify (f : State -> State) : prog Page unit :=
  fun _ p => (Ok tt, mkPage (f (state p)) (effects p)).

Definition emit (e : effect) : prog Page unit :=
  fun _ p => (Ok tt, mkPage (state p) (effects p ++ [e])%list).

Definition call {A} (c : api A) : prog Page A :=
  fun be p =>
    let (r, log) := run c be in
    (r, mkPage (state p) (effects p ++ map Requested log)%list).

(** [handleSubmit] *)
Definition handleSubmit : prog Page unit :=
  fun be p =>
    let query := query (state p) in
    if Js.is_empty (Js.trim query) then (Ok tt, p)
    else
      (modify (setIsQuerying true) ;;;
       modify (setAnswer VNull) ;;;
       modify (setSources []) ;;;
       attempt
         (result <- call (queriesApi.create (Js.trim query)) ;;
          if negb (Js.truthy result) || negb (Js.truthy (Js.prop result "query"))
          then throw (Error "Invalid query response")
          else
            modify (setAnswer (Js.coalesce
                                 (Js.prop (Js.prop result "query") "answer")
                                 (VStr ""))) ;;;
            modify (setSources
                      (IngestPage.array_or_empty (Js.prop result "sources"))))
         (fun error =>
            emit (Alerted "Failed to execute query. Please try again."))
         (modify (setIsQuerying false))) be p.

End QueryPage.

(** ** The chat box ([components/ChatInterface.tsx]) *)

Module ChatInterface.

(** [handleSubmit]: the content handed to [onSendMessage], if any, and the
    input field afterwards.  [isLoading] is the property the page passes
    down. *)
Definition handleSubmit (input : string) (isLoading : bool)
  : option string * string :=
  if negb (Js.is_empty (Js.trim input)) && negb isLoading
  then (Some (Js.trim input), EmptyString)
  else (None, input).

End ChatInterface.

(** ** The first ingestion form ([frontend/src/pages/Ingest.js]) *)

Module Ingest.

Record State : Type := mkState { file : value; message : value }.

Definition setMessage (m : value) (s : State) : State := mkState (file s) m.

(** How the promise of [axios.post] settles: with a response, of which the
    handler reads [data], or with an error. *)
Inductive settled : Type :=
| Fulfilled (data : value)
| Rejected (error : value).

(** [error.response?.data?.message] *)
Definition detail (error : value) : res value :=
  match get error "response" with
  | Throw e => Throw e
  | Ok response => Ok (Js.prop (Js.prop response "data") "message")
  end.

(** [handleSubmit], over [JSON.stringify] and the transport. *)
Definition handleSubmit (stringify : value -> value)
    (post : value -> settled) (s : State) : res State :=
  if negb (Js.truthy (file s)) then Ok s
  else
    match post (file s) with
    | Fulfilled data =>
        Ok (setMessage
              (Js.plus (VStr "Ingestion successful: ") (stringify data)) s)
    | Rejected error =>
        match detail error with
        | Throw e => Throw e
        | Ok d =>
            Ok (setMessage
                  (Js.or (Js.plus (VStr "Error: ") d)
                         (Js.prop error "message")) s)
        end
    end.

End Ingest.

(** ** Vocabulary of the further properties *)

(** A text without a line feed. *)
Fixpoint single_line (s : string) : bool :=
  match s with
  | EmptyString => true
  | String c r => negb (is_newline c) && single_line r
  end.

(** The bytes of a sequence of frames as the backend writes them: each
    payload after the marker [data: ] and before a blank line. *)
Fixpoint framed (payloads : list string) : string :=
  match payloads with
  | [] => EmptyString
  | p :: r => "data: " ++ p ++ blank_line ++ framed r
  end.

(** What decoding one payload gives the callback. *)
Definition decoded (parse : string -> option value) (payload : string)
  : list value :=
  match parse payload with
  | Some event => [event]
  | None => []
  end.

(** A text without a dot. *)
Fixpoint dotless (s : string) : bool :=
  match s with
  | EmptyString => true
  | String c r => negb (FileUpload.is_dot c) && dotless r
  end.

(** The handle on record names a stream that was opened. *)
Definition handle_on_record_valid (w : World) : Prop :=
  match streamControllerRef (session w) with
  | Some h => h < List.length (streams w)
  | None => True
  end.

(** Every stream of [ss] is still there in [ss'], at the same handle and
    with the same callback, still aborted if it was and still closed if it
    was. *)
Definition persists (ss ss' : list (closure * stream)) : Prop :=
  forall h c st,
    nth_error ss h = Some (c, st) ->
    exists st',
      nth_error ss' h = Some (c, st')
      /\ (aborted st = true -> aborted st' = true)
      /\ (at_phase st = Closed -> at_phase st' = Closed).

(** No message of the list carries the placeholder identity [id]. *)
Definition absent (id : string) (ms : list value) : Prop :=
  Forall (fun m => targets id m = false) ms.

(** ** The model on concrete inputs *)

Example trim_ex : Js.trim "  a b
 " = "a b".
Proof. reflexivity. Qed.

Example to_string_ex :
  Js.to_string (arr [VNum (Int 1); VNull; arr [VStr "x"; VBool true]]) = "1,,x,true".
Proof. reflexivity. Qed.

Example plus_ex :
  Js.plus (VStr "ab") (VNum (Int (-3))) = VStr "ab-3"
  /\ Js.plus VUndef (VNum (Int 1)) = VNum NaN.
Proof. split; reflexivity. Qed.

Example normalize_nested_wrapper :
  identity (Normalize.normalize VUndef
              (obj1 "value" (obj1 "row" (obj1 "conversation_id" (VNum (Int 7))))))
  = VNum (Int 7).
Proof. reflexivity. Qed.

Example normalize_array_of_array :
  Normalize.normalize VUndef (arr [arr [obj1 "id" (VStr "a")]])
  = Ok (obj1 "id" (VStr "a")).
Proof. reflexivity. Qed.

Example normalize_null_body :
  Normalize.normalize VUndef VNull = Throw (TypeError "null" "conversation").
Proof. reflexivity. Qed.

Example getAll_wrapped :
  run documentsApi.getAll
      (always (ok_json (obj1 "documents" (arr [obj1 "id" (VStr "d1")]))))
  = (Ok (arr [obj1 "id" (VStr "d1")]), [GetDocuments]).
Proof. reflexivity. Qed.

Example getAll_bare_array :
  run documentsApi.getAll (always (ok_json (arr [VStr "d"])))
  = (Ok (arr [VStr "d"]), [GetDocuments]).
Proof. reflexivity. Qed.

Example getAll_failure :
  run documentsApi.getAll (always (mkResponse 503 "busy" None))
  = (Throw (Error "Failed to fetch documents: 503 busy"), [GetDocuments]).
Proof. reflexivity. Qed.

Example split_blank_ex :
  split_blank "a

b
c

" = ["a"; "b
c"; ""].
Proof. reflexivity. Qed.

Example split_blank_three_newlines :
  split_blank (String newline (String newline (String newline "x")))
  = [""; String newline "x"].
Proof. reflexivity. Qed.

Example title_short : title_of "Revenue trend Q1" = VStr "Revenue trend Q1".
Proof. reflexivity. Qed.

Example title_long :
  title_of "0123456789012345678901234567890123456789012345678901234"
  = VStr "01234567890123456789012345678901234567890123456789...".
Proof. reflexivity. Qed.

(** The slip of [handleStartAnalysis]: it records its stream handle only
    when the [final] event arrives, so a turn sent while the first stream
    is in flight finds [streamControllerRef.current] empty and stops
    nothing. *)
Example start_stream_not_recorded :
  let w := perform_all decode_table demo_backend initial_world
             [TypeQuery "Revenue trend Q1"; SubmitStart 1000 "t0"] in
  let w' := perform decode_table demo_backend w (SubmitSend "more" 2000 "t1") in
  streamControllerRef (session w) = None
  /\ ~ In (Stopped 0) (trace w')
  /\ map (fun cs => aborted (snd cs)) (streams w') = [false; false].
Proof.
  cbv zeta. split; [reflexivity|]. split; [|reflexivity].
  vm_compute. intuition discriminate.
Qed.

(** The scenario of the specification: prompt [Revenue trend Q1], the
    stream emits [Rev], [enue is up] and a final event without message. *)
Example revenue_scenario :
  let w := perform_all decode_table demo_backend initial_world
             [TypeQuery "Revenue trend Q1"; SubmitStart 1000 "t0"] in
  let final := VObj [("type", VStr "final"); ("assistant_message", VNull);
                     ("result", obj1 "visualizations" (arr []))] in
  let w' := deliver_all 0 [partial_event "Rev"; partial_event "enue is up"; final] w in
  Js.prop (currentConversation (session w)) "title" = VStr "Revenue trend Q1"
  /\ map (fun m => (Js.prop m "role", Js.prop m "content")) (messages (session w'))
     = [(VStr "user", VStr "Revenue trend Q1");
        (VStr "assistant", VStr "Revenue is up")]
  /\ workflowResult (session w') = obj1 "visualizations" (arr []).
Proof. cbv zeta. repeat split. Qed.

(** The scenario of the specification: the stream request is answered with
    status 500 and body [overloaded]. *)
Example overloaded_scenario :
  let w := perform_all decode_table demo_backend initial_world
             [TypeQuery "Revenue trend Q1"; SubmitStart 1000 "t0";
              Net 0 (Responds (mkResponse 500 "overloaded" None) true)] in
  map (fun m => Js.prop m "content") (messages (session w))
  = [VStr "Revenue trend Q1"; VStr "Error: 500 overloaded"]
  /\ map (fun cs => at_phase (snd cs)) (streams w) = [Closed].
Proof. cbv zeta. repeat split. Qed.

(** A final event with an authoritative message replaces the placeholder
    wholesale and adopts the conversation identity the event carries. *)
Example final_with_message :
  let w := perform_all decode_table demo_backend initial_world
             [TypeQuery "Revenue trend Q1"; SubmitStart 1000 "t0"] in
  let reply := VObj [("id", VStr "m-9"); ("role", VStr "assistant");
                     ("content", VStr "Up 4%")] in
  let final := VObj [("type", VStr "final"); ("assistant_message", reply);
                     ("conversation_id", VStr "c2")] in
  let w' := deliver_all 0 [partial_event "Rev"; final] w in
  nth_error (messages (session w')) 1 = Some reply
  /\ Js.prop (currentConversation (session w')) "id" = VStr "c2"
  /\ streamControllerRef (session w') = Some 0.
Proof. cbv zeta. repeat split. Qed.

(** The reload that follows the start: the request for the messages of the
    new conversation goes out while the user's message is created, and when
    it settles, the list the backend serves replaces the user's message and
    the placeholder. *)
Example start_reload_replaces_placeholder :
  let w := perform_all decode_table serving_backend initial_world
             [TypeQuery "Revenue trend Q1"; SubmitStart 1000 "t0"] in
  let w' := perform decode_table serving_backend w (Loaded 0) in
  trace w
  = [Requested (PostConversations (VStr "Revenue trend Q1"));
     Requested (PostMessages (VStr "c1") "user" "Revenue trend Q1");
     Requested (GetMessages (VStr "c1"));
     Requested (PostGenerateStream (VStr "c1") "Revenue trend Q1")]
  /\ reloads w = [Ok (arr [stored_message])]
  /\ map (fun m => Js.prop m "id") (messages (session w))
     = [VStr "m-Revenue trend Q1"; VStr "stream-1000"]
  /\ messages (session w') = [stored_message]
  /\ messages (session (deliver 0 (partial_event "Rev") w')) = [stored_message].
Proof. cbv zeta. repeat split. Qed.

(** The reload that an adopted conversation brings about: after a final
    event that names conversation [c2], the next render requests the
    messages of [c2], and when that reload settles the list the backend
    serves is the message list. *)
Example adoption_reloads_the_list :
  let w := perform_all decode_table demo_backend initial_world
             [TypeQuery "Revenue trend Q1"; SubmitStart 1000 "t0"] in
  let w1 := deliver 0 (final_for "c2") w in
  let w2 := perform_all decode_table serving_backend w1 [Render; Loaded 1] in
  effect_due w = false
  /\ effect_due w1 = true
  /\ Js.prop (currentConversation (session w1)) "id" = VStr "c2"
  /\ map (fun m => Js.prop m "id") (messages (session w1))
     = [VStr "m-Revenue trend Q1"; VStr "stream-1000"]
  /\ trace w2 = (trace w ++ [Requested (GetMessages (VStr "c2"))])%list
  /\ messages (session w2) = [stored_message].
Proof. cbv zeta. repeat split. Qed.

(** ** The identity search, as the source reads *)

Lemma tryGetId_object (ps : list (string * value)) :
  tryGetId (VObj ps) =
  if Js.truthy (Js.prop (VObj ps) "id") then Js.prop (VObj ps) "id"
  else if Js.truthy (Js.prop (VObj ps) "conversation_id")
  then Js.prop (VObj ps) "conversation_id"
  else if Js.truthy (Js.prop (VObj ps) "data")
  then tryGetId (Js.prop (VObj ps) "data")
  else search_props ps.
Proof.
  cbn [tryGetId Js.prop].
  destruct (Js.truthy (Js.lookup "id" ps)); [reflexivity|].
  destruct (Js.truthy (Js.lookup "conversation_id" ps)); [reflexivity|].
  destruct (Js.truthy (Js.lookup "data" ps)) eqn:Hdata.
  - clear -Hdata. induction ps as [|[k v] r IH]; [discriminate|].
    cbn [Js.lookup] in *. destruct (String.eqb k "data"); [reflexivity|].
    apply IH, Hdata.
  - clear. induction ps as [|[k v] r IH]; [reflexivity|].
    cbn [search_props]. rewrite IH. reflexivity.
Qed.

Lemma tryGetId_array (es : list value) (extra : list (string * value)) :
  tryGetId (VArr es extra) =
  if Js.truthy (Js.prop (VArr es extra) "id") then Js.prop (VArr es extra) "id"
  else if Js.truthy (Js.prop (VArr es extra) "conversation_id")
  then Js.prop (VArr es extra) "conversation_id"
  else if Js.truthy (Js.prop (VArr es extra) "data")
  then tryGetId (Js.prop (VArr es extra) "data")
  else tryGetId (Js.first (VArr es extra)).
Proof.
  cbn [tryGetId Js.prop Js.first].
  destruct (Js.truthy (Js.lookup "id" extra)); [reflexivity|].
  destruct (Js.truthy (Js.lookup "conversation_id" extra)); [reflexivity|].
  destruct (Js.truthy (Js.lookup "data" extra)) eqn:Hdata.
  - clear -Hdata. induction extra as [|[k v] r IH]; [discriminate|].
    cbn [Js.lookup] in *. destruct (String.eqb k "data"); [reflexivity|].
    apply IH, Hdata.
  - destruct es; reflexivity.
Qed.

(** ** The normaliser *)

(** C5. Normalising a bare string gives an entity whose identity is that
    string; normalising [{data: {id: x}}] gives identity [x]; normalising
    an array whose first element is [{id: a}] gives identity [a], whatever
    follows (so [[{id:"a"}, {id:"b"}]] gives ["a"]); and the outcome of
    [conversationsApi.create] is a function of the title and of the
    backend's answer alone: it does not depend on what was requested
    before. *)
Theorem normalize_identities :
  (forall title s,
      identity (Normalize.normalize title (VStr s)) = VStr s)
  /\ (forall title x,
         identity (Normalize.normalize title (obj1 "data" (obj1 "id" (VStr x))))
         = VStr x)
  /\ (forall title a rest,
         identity (Normalize.normalize title (arr (obj1 "id" (VStr a) :: rest)))
         = VStr a)
  /\ (forall title,
         identity (Normalize.normalize title
                     (arr [obj1 "id" (VStr "a"); obj1 "id" (VStr "b")]))
         = VStr "a")
  /\ (forall title be log log',
         fst (conversationsApi.create title be log)
         = fst (conversationsApi.create title be log')).
Proof.
  repeat split.
  - intros title [|c s]; reflexivity.
  - intros title [|c x]; reflexivity.
  - intros title [|c a] rest; reflexivity.
  - intros title be log log'.
    unfold conversationsApi.create, bind, fetch, json, throw, ret, lift.
    destruct (be (PostConversations title)) as [r|e]; [|reflexivity].
    destruct (ok r); cbn [negb]; [|reflexivity].
    destruct (json_body r); reflexivity.
Qed.

(** ** The resource clients *)

(** C10. Fetching the messages of a null or undefined conversation
    identity returns an empty list, and creating a message for an undefined
    one throws, in both cases without a request to the backend: the log of
    requests, the only state a client call has, is left as it was. *)
Theorem missing_identity_short_circuits :
  forall (be : backend) (log : list request) (role content : string),
    messagesApi.getByConversation VNull be log = (Ok (arr []), log)
    /\ messagesApi.getByConversation VUndef be log = (Ok (arr []), log)
    /\ messagesApi.create VUndef role content be log
       = (Throw (Error "conversationId is required"), log).
Proof. intros. repeat split. Qed.

(** C7, on the code as it is.  The list of conversations and the list of
    messages hand back the decoded payload itself when it holds no list,
    here the empty object, and the list of documents throws on the payload
    [null]; only the list of documents falls back to the empty sequence. *)
Theorem list_without_array_passes_through :
  run conversationsApi.getAll (always (ok_json (VObj [])))
  = (Ok (VObj []), [GetConversations])
  /\ run (messagesApi.getByConversation (VStr "c1")) (always (ok_json (VObj [])))
     = (Ok (VObj []), [GetMessages (VStr "c1")])
  /\ run documentsApi.getAll (always (ok_json VNull))
     = (Throw (TypeError "null" "documents"), [GetDocuments])
  /\ run documentsApi.getAll (always (ok_json (VObj [])))
     = (Ok (arr []), [GetDocuments]).
Proof. repeat split. Qed.

Lemma append_assoc (a b c : string) : (a ++ b) ++ c = a ++ b ++ c.
Proof. induction a as [|x a IH]; cbn; congruence. Qed.

Lemma append_empty (a : string) : a ++ "" = a.
Proof. induction a as [|x a IH]; cbn; congruence. Qed.

Lemma prefix_append (x b : string) : String.prefix x (x ++ b) = true.
Proof.
  induction x as [|c x IH]; cbn.
  - destruct b; reflexivity.
  - destruct (ascii_dec c c) as [_|n]; [exact IH|contradiction].
Qed.

Lemma includes_append (a x b : string) : includes (a ++ x ++ b) x = true.
Proof.
  induction a as [|c a IH].
  - cbn [String.append]. pose proof (prefix_append x b) as H.
    destruct (x ++ b); cbn [includes]; rewrite H; reflexivity.
  - cbn [String.append includes]. rewrite IH. apply orb_true_r.
Qed.

Lemma includes_suffix (a x : string) : includes (a ++ x) x = true.
Proof.
  pose proof (includes_append a x "") as H.
  rewrite append_empty in H. exact H.
Qed.

(** C8, as the code has it.  On a non-success status every non-streaming
    operation that reaches the backend fails, after its one request, with
    an error whose message is [failure_message]: a fixed text naming the
    operation, except for the list of documents, the only one whose error
    carries the status code and the raw body text. *)
Theorem failure_on_bad_status :
  forall (op : operation) (be : backend) (r : Response),
    reaches_backend op = true ->
    be (request_of op) = Resolves r ->
    ok r = false ->
    run (invoke op) be = (Throw (Error (failure_message op r)), [request_of op])
    /\ (op = DocumentList -> carries (Error (failure_message op r)) r = true).
Proof.
  intros op be r Hreach Hbe Hok. split.
  - destruct op; cbn [invoke request_of failure_message reaches_backend] in *;
      unfold run, documentsApi.getAll, documentsApi.upload, documentsApi.delete,
        queriesApi.create, conversationsApi.create, conversationsApi.getAll,
        messagesApi.getByConversation, messagesApi.create, bind, fetch;
      try rewrite Hreach; cbn [negb]; rewrite Hbe, Hok; reflexivity.
  - intros ->. unfold carries, failure_message, Error. cbn [exn_message].
    rewrite includes_append.
    replace ("Failed to fetch documents: " ++ Js.decimal (status r) ++ " " ++ text r)
      with (("Failed to fetch documents: " ++ Js.decimal (status r) ++ " ") ++ text r).
    + rewrite includes_suffix. reflexivity.
    + rewrite !append_assoc. reflexivity.
Qed.

Lemma failure_on_bad_status_witness :
  let op := DocumentUpload (mkFile "q1.csv" "a,b") in
  let r := mkResponse 500 "overloaded" None in
  reaches_backend op = true
  /\ always r (request_of op) = Resolves r
  /\ ok r = false
  /\ run (invoke op) (always r)
     = (Throw (Error "Failed to upload document"), [request_of op]).
Proof.
  cbv zeta.
  split; [reflexivity|]. split; [reflexivity|]. split; [reflexivity|].
  apply (failure_on_bad_status (DocumentUpload (mkFile "q1.csv" "a,b"))
           (always (mkResponse 500 "overloaded" None))
           (mkResponse 500 "overloaded" None));
    reflexivity.
Defined.

(** C8 as stated fails: the upload answered with status 500 and body
    [overloaded] throws an error that shows neither. *)
Lemma upload_error_carries_nothing :
  let r := mkResponse 500 "overloaded" None in
  ok r = false
  /\ exists e,
       run (documentsApi.upload (mkFile "q1.csv" "a,b")) (always r)
       = (Throw e, [PostIngestAuto (mkFile "q1.csv" "a,b")])
       /\ includes (exn_message e) (Js.decimal (status r)) = false
       /\ includes (exn_message e) (text r) = false
       /\ carries e r = false.
Proof.
  cbv zeta. split; [reflexivity|].
  exists (Error "Failed to upload document"). repeat split.
Qed.

(** ** The streaming consumer *)

Lemma split_blank_two (c c2 : ascii) (r2 : string) :
  split_blank (String c (String c2 r2))
  = if is_newline c && is_newline c2
    then EmptyString :: split_blank r2
    else cons_head c (split_blank (String c2 r2)).
Proof. reflexivity. Qed.

Lemma split_blank_nonempty (s : string) : split_blank s <> [].
Proof.
  destruct s as [|c [|c2 r2]]; [discriminate|discriminate|].
  rewrite split_blank_two.
  destruct (is_newline c && is_newline c2); [discriminate|].
  unfold cons_head. destruct (split_blank (String c2 r2)); discriminate.
Qed.

(** A text without a boundary starts its only part with its own first
    character. *)
Lemma split_blank_single (c : ascii) (r p : string) :
  split_blank (String c r) = [p] -> exists p', p = String c p'.
Proof.
  destruct r as [|c2 r2].
  - intros [= <-]. eauto.
  - rewrite split_blank_two. destruct (is_newline c && is_newline c2).
    + intros [= _ H]. destruct (split_blank_nonempty _ H).
    + unfold cons_head. destruct (split_blank (String c2 r2)) as [|q qs].
      * intros [= <-]. eauto.
      * intros [= <- _]. eauto.
Qed.

Lemma removelast_cons {A} (x : A) (l : list A) :
  l <> [] -> removelast (x :: l) = x :: removelast l.
Proof. destruct l; [contradiction|reflexivity]. Qed.

Lemma last_cons {A} (x : A) (l : list A) (d : A) :
  l <> [] -> last (x :: l) d = last l d.
Proof. destruct l; [contradiction|reflexivity]. Qed.

(** Splitting a text that arrives in two pieces: the complete parts of the
    first piece, then the split of its unfinished tail followed by the
    second piece. *)
Lemma split_blank_append (a b : string) :
  split_blank (a ++ b)
  = (removelast (split_blank a)
       ++ split_blank (last (split_blank a) EmptyString ++ b))%list.
Proof.
  remember (String.length a) as n eqn:Hn.
  revert a Hn. induction n as [n IH] using lt_wf_ind. intros a Hn.
  destruct a as [|c [|c2 r2]].
  - reflexivity.
  - reflexivity.
  - change (String c (String c2 r2) ++ b) with (String c (String c2 (r2 ++ b))).
    rewrite !split_blank_two.
    destruct (is_newline c && is_newline c2) eqn:Hb.
    + rewrite (IH (String.length r2) ltac:(subst n; cbn; lia) r2 eq_refl).
      rewrite removelast_cons by apply split_blank_nonempty.
      rewrite last_cons by apply split_blank_nonempty.
      reflexivity.
    + change (String c2 (r2 ++ b)) with (String c2 r2 ++ b).
      rewrite (IH (String.length (String c2 r2)) ltac:(subst n; cbn; lia)
                  (String c2 r2) eq_refl).
      destruct (split_blank (String c2 r2)) as [|p [|q l]] eqn:Hs.
      * destruct (split_blank_nonempty _ Hs).
      * destruct (split_blank_single _ _ _ Hs) as [p' ->].
        cbn [removelast last cons_head app].
        change (String c (String c2 p') ++ b) with (String c (String c2 (p' ++ b))).
        rewrite split_blank_two, Hb. reflexivity.
      * cbn [cons_head].
        rewrite !removelast_cons by discriminate.
        rewrite !last_cons by discriminate.
        reflexivity.
Qed.

Lemma removelast_append {A} (l l' : list A) :
  l' <> [] -> removelast (l ++ l')%list = (l ++ removelast l')%list.
Proof.
  intros Hl'. induction l as [|x l IH]; [reflexivity|].
  cbn [app]. rewrite removelast_cons, IH; [reflexivity|].
  destruct l; [exact Hl'|discriminate].
Qed.

Lemma last_append {A} (l l' : list A) (d : A) :
  l' <> [] -> last (l ++ l')%list d = last l' d.
Proof.
  intros Hl'. induction l as [|x l IH]; [reflexivity|].
  cbn [app]. rewrite last_cons; [exact IH|].
  destruct l; [exact Hl'|discriminate].
Qed.

Section ConsumerFacts.

Variable parse : string -> option value.

Lemma emitted_closed (ab : bool) (ts : list transport) :
  emitted parse (mkStream Closed ab) ts = [].
Proof. induction ts as [|t ts IH]; [reflexivity|exact IH]. Qed.

(** One read, seen from the whole text received so far. *)
Lemma on_chunk_whole (whole text : string) :
  let buffer := last (split_blank whole) EmptyString in
  frames parse (whole ++ text)
  = (frames parse whole ++ snd (on_chunk parse buffer text))%list
  /\ last (split_blank (whole ++ text)) EmptyString
     = fst (on_chunk parse buffer text).
Proof.
  cbv zeta. unfold frames, on_chunk. cbn [fst snd].
  rewrite split_blank_append.
  rewrite removelast_append by apply split_blank_nonempty.
  rewrite last_append by apply split_blank_nonempty.
  rewrite flat_map_app. split; reflexivity.
Qed.

(** Reading chunk after chunk emits the frames of the text as a whole:
    how the bytes are cut into chunks does not matter, and neither does
    what has been emitted before. *)
Lemma emitted_reading (chunks : list string) :
  forall (whole : string) (ab : bool) (rest : list transport),
    (frames parse whole
       ++ emitted parse
            (mkStream (Reading (last (split_blank whole) EmptyString)) ab)
            (map ChunkRead chunks ++ rest))%list
    = (frames parse (whole ++ join_all chunks)
         ++ emitted parse
              (mkStream
                 (Reading (last (split_blank (whole ++ join_all chunks))
                                EmptyString)) ab)
              rest)%list.
Proof.
  induction chunks as [|text chunks IH]; intros whole ab rest.
  - cbn [join_all fold_right map app]. rewrite append_empty. reflexivity.
  - cbn [join_all fold_right map app emitted].
    unfold step. cbn [at_phase aborted consume].
    destruct (on_chunk_whole whole text) as [Hframes Hbuffer].
    destruct (on_chunk parse (last (split_blank whole) "") text)
      as [buffer' events] eqn:Hchunk.
    cbn [fst snd] in Hframes, Hbuffer. subst buffer'.
    rewrite app_assoc, <- Hframes, IH.
    fold (join_all chunks). rewrite append_assoc. reflexivity.
Qed.

Lemma emitted_chunks (chunks : list string) (ab : bool)
    (rest : list transport) :
  emitted parse (mkStream (Reading EmptyString) ab)
          (map ChunkRead chunks ++ rest)
  = (frames parse (join_all chunks)
       ++ emitted parse
            (mkStream
               (Reading (last (split_blank (join_all chunks)) EmptyString))
               ab)
            rest)%list.
Proof. exact (emitted_reading chunks EmptyString ab rest). Qed.

End ConsumerFacts.

(** C3, as the code has it.  While the transport delivers bytes the
    consumer emits one event for every complete, decodable frame of the text
    received, in order of arrival, whether or not an event emitted before
    was terminal; it stops emitting when the transport closes, and whatever
    comes after that emits nothing. *)
Theorem frames_emitted_until_close :
  forall (parse : string -> option value) (r : Response)
         (chunks : list string) (rest : list transport),
    ok r = true ->
    emitted parse opened (Responds r true :: map ChunkRead chunks)
    = frames parse (join_all chunks)
    /\ emitted parse opened
         (Responds r true :: map ChunkRead chunks ++ DoneRead :: rest)
       = frames parse (join_all chunks).
Proof.
  intros parse r chunks rest Hok.
  unfold opened. cbn [emitted]. unfold step. cbn [at_phase aborted consume].
  rewrite Hok. cbn [negb app]. split.
  - rewrite <- (app_nil_r (map ChunkRead chunks)), emitted_chunks.
    apply app_nil_r.
  - rewrite emitted_chunks. cbn [emitted]. unfold step.
    cbn [at_phase aborted consume]. rewrite emitted_closed.
    apply app_nil_r.
Qed.

Lemma frames_emitted_until_close_witness :
  let r := mkResponse 200 "" None in
  let chunks := ["data: " ++ final_frame ++ String newline "";
                 String newline ("data: " ++ partial_frame ++ blank_line ++ "da")] in
  ok r = true
  /\ emitted decode_table opened
       (Responds r true :: map ChunkRead chunks
          ++ DoneRead :: [ChunkRead ("data: " ++ final_frame ++ blank_line)])
     = [final_value; partial_event "x"].
Proof.
  cbv zeta. split; [reflexivity|].
  etransitivity.
  - apply (frames_emitted_until_close decode_table (mkResponse 200 "" None)).
    reflexivity.
  - reflexivity.
Defined.

(** C3 as stated fails: a well-formed frame that follows a [final] frame
    in the bytes is emitted after the terminal event. *)
Lemma frame_after_final_is_emitted :
  let events :=
    emitted decode_table opened
      [Responds (mkResponse 200 "" None) true;
       ChunkRead ("data: " ++ final_frame ++ blank_line
                  ++ "data: " ++ partial_frame ++ blank_line)] in
  events = [final_value; partial_event "x"]
  /\ terminal final_value = true
  /\ ends_at_terminal events = false.
Proof. cbv zeta. repeat split. Qed.

(** C2, as the code has it.  A failure of the transport is reported in the
    same way whether or not the handle's [stop()] caused it: while the
    stream has not ended the callback receives exactly one synthetic error
    event with the failure's description, and nothing after it; a stream
    that had already ended emits nothing. *)
Theorem failure_after_stop_is_reported :
  forall (parse : string -> option value) (s : stream) (e : exn)
         (rest : list transport),
    emitted parse (stop s) (Failure e :: rest)
    = match at_phase s with
      | Closed => []
      | _ => [error_event (describe e)]
      end
    /\ emitted parse (stop s) (Failure e :: rest)
       = emitted parse s (Failure e :: rest).
Proof.
  intros parse [p ab] e rest. unfold stop. cbn [emitted at_phase].
  unfold step. cbn [at_phase aborted].
  destruct p as [|buffer|]; cbn [consume]; rewrite !emitted_closed;
    split; reflexivity.
Qed.

(** C2 as stated fails: a stream stopped by its handle, whether it waits
    for the response or for the next chunk, passes an error event to the
    callback when the abort rejects its pending await. *)
Lemma stop_emits_error_event :
  aborted (stop opened) = true
  /\ emitted decode_table (stop opened) [Failure browser_abort]
     = [error_event "The user aborted a request."]
  /\ (let reading :=
        fst (step decode_table opened (Responds (mkResponse 200 "" None) true)) in
      at_phase reading = Reading ""
      /\ emitted decode_table (stop reading) [Failure browser_abort]
         = [error_event "The user aborted a request."]).
Proof. cbv zeta. repeat split. Qed.

(** ** Objects: reading a property after an assignment *)

Lemma lookup_assign_same (k : string) (x : value) (ps : list (string * value)) :
  Js.lookup k (Js.assign k x ps) = x.
Proof.
  induction ps as [|[k' v] r IH]; cbn [Js.assign Js.lookup].
  - rewrite String.eqb_refl. reflexivity.
  - destruct (String.eqb k' k) eqn:E; cbn [Js.lookup]; rewrite E;
      [reflexivity|exact IH].
Qed.

Lemma lookup_assign_other (k k' : string) (x : value)
    (ps : list (string * value)) :
  k' <> k -> Js.lookup k' (Js.assign k x ps) = Js.lookup k' ps.
Proof.
  intros Hk. induction ps as [|[k0 v] r IH]; cbn [Js.assign Js.lookup].
  - destruct (String.eqb_spec k k'); [congruence|reflexivity].
  - destruct (String.eqb_spec k0 k) as [->|Hk0]; cbn [Js.lookup].
    + destruct (String.eqb_spec k k'); [congruence|reflexivity].
    + rewrite IH. reflexivity.
Qed.

Lemma decimal_of_nat_digit (i : nat) :
  exists c s, Js.decimal (Z.of_nat i) = String c s /\ is_digit c = true.
Proof.
  unfold Js.decimal. destruct i as [|i].
  - cbn. eauto.
  - change (Z.of_nat (S i)) with (Z.pos (Pos.of_succ_nat i)).
    cbn [Z.to_int NilZero.string_of_int].
    unfold NilZero.string_of_uint.
    destruct (Pos.to_uint (Pos.of_succ_nat i)); cbn; eauto.
Qed.

Lemma index_key_not_named (i : nat) (k : string) :
  named k = true -> String.eqb (Js.decimal (Z.of_nat i)) k = false.
Proof.
  intros Hk. destruct (decimal_of_nat_digit i) as (c & s & -> & Hc).
  destruct (String.eqb_spec (String c s) k) as [<-|]; [|reflexivity].
  cbn in Hk. rewrite Hc in Hk. discriminate.
Qed.

Lemma lookup_index_props (k : string) (es : list value)
    (extra : list (string * value)) :
  named k = true ->
  forall i, Js.lookup k (Js.index_props i es ++ extra)%list = Js.lookup k extra.
Proof.
  intros Hk. induction es as [|e es IH]; intros i; [reflexivity|].
  cbn [Js.index_props app Js.lookup].
  rewrite index_key_not_named by exact Hk. apply IH.
Qed.

Lemma lookup_char_props (k : string) (s : string) :
  named k = true -> forall i, Js.lookup k (Js.char_props i s) = VUndef.
Proof.
  intros Hk. induction s as [|c s IH]; intros i; [reflexivity|].
  cbn [Js.char_props Js.lookup].
  rewrite index_key_not_named by exact Hk. apply IH.
Qed.

Lemma lookup_own_props (m : value) (k : string) :
  named k = true -> Js.lookup k (Js.own_props m) = Js.prop m k.
Proof.
  intros Hk. destruct m; cbn [Js.own_props Js.prop Js.lookup];
    try reflexivity.
  - apply lookup_char_props, Hk.
  - apply lookup_index_props, Hk.
Qed.

(** [{...m, k: x}.k] is [x], and a spread keeps every other named
    property of [m]. *)
Lemma prop_spread_same (m : value) (k : string) (x : value) :
  Js.prop (Js.spread_with m k x) k = x.
Proof. apply lookup_assign_same. Qed.

Lemma prop_spread_other (m : value) (k k' : string) (x : value) :
  k' <> k -> named k' = true ->
  Js.prop (Js.spread_with m k x) k' = Js.prop m k'.
Proof.
  intros Hk Hn. unfold Js.spread_with. cbn [Js.prop].
  rewrite lookup_assign_other by exact Hk. apply lookup_own_props, Hn.
Qed.

(** ** The event callback *)

Lemma get_not_nullish (m : value) (k : string) :
  Js.nullish m = false -> get m k = Ok (Js.prop m k).
Proof. destruct m; first [discriminate|reflexivity]. Qed.

(** On a list without null entries the state updater is the plain map. *)
Lemma update_where_map (id : string) (f : value -> value) (prev : list value) :
  mappable prev ->
  update_where id f prev
  = Ok (map (fun m => if targets id m then f m else m) prev).
Proof.
  induction 1 as [|m r Hm _ IH]; [reflexivity|].
  cbn [update_where map]. rewrite (get_not_nullish _ _ Hm), IH. reflexivity.
Qed.

(** Whenever the updater returns, it has changed targeted entries only. *)
Lemma update_where_frame (id : string) (f : value -> value) :
  forall prev ms,
    update_where id f prev = Ok ms ->
    Forall2 (fun m m' => m' = if targets id m then f m else m) prev ms.
Proof.
  induction prev as [|m r IH]; intros ms; cbn [update_where].
  - intros [= <-]. constructor.
  - destruct (get m "id") as [mid|e] eqn:Hget; [|discriminate].
    destruct (update_where id f r) as [r'|e]; [|discriminate].
    intros [= <-]. constructor; [|apply IH; reflexivity].
    destruct m; cbn in Hget; try discriminate; injection Hget as <-;
      reflexivity.
Qed.

Lemma type_read (event : value) (t : string) :
  Js.is_str (Js.prop event "type") t = true ->
  get event "type" = Ok (Js.prop event "type").
Proof. destruct event; cbn; first [discriminate|reflexivity]. Qed.

Lemma plus_strings (t f : string) :
  Js.plus (Js.or (VStr t) (VStr "")) (VStr f) = VStr (t ++ f).
Proof. destruct t; reflexivity. Qed.

Lemma is_str_eq (v : value) (t : string) :
  Js.is_str v t = true -> v = VStr t.
Proof.
  destruct v; try discriminate. cbn.
  intros H. apply String.eqb_eq in H. congruence.
Qed.

Lemma on_event_partial (c : closure) (self : handle) (event : value)
    (s : Session) :
  Js.is_str (Js.prop event "type") "partial" = true ->
  mappable (messages s) ->
  on_event c self event s
  = Ok (setMessages
          (map (fun m => if targets (assistantId c) m
                         then append_partial event m else m) (messages s)) s).
Proof.
  intros Htype Hmap. unfold on_event.
  rewrite (type_read _ _ Htype), Htype, update_where_map by exact Hmap.
  reflexivity.
Qed.

Lemma append_partial_step (id : string) (event m : value) :
  partial_step id event m (if targets id m then append_partial event m else m).
Proof.
  unfold partial_step. destruct (targets id m); [|reflexivity].
  unfold append_partial. repeat split.
  - apply prop_spread_other; [discriminate|reflexivity].
  - apply prop_spread_other; [discriminate|reflexivity].
  - apply prop_spread_same.
  - intros t f Ht Hf. rewrite prop_spread_same, Ht, Hf. apply plus_strings.
Qed.

(** C9. A [partial] event maps the message list entry by entry: the
    entries whose identity is the placeholder's get the fragment appended
    to their content and keep their identity and role, every other entry is
    unchanged, and so are the length and the order of the list and the rest
    of the session. *)
Theorem partial_touches_placeholder_only :
  forall (c : closure) (self : handle) (event : value) (s : Session),
    Js.is_str (Js.prop event "type") "partial" = true ->
    mappable (messages s) ->
    exists ms,
      on_event c self event s = Ok (setMessages ms s)
      /\ List.length ms = List.length (messages s)
      /\ Forall2 (partial_step (assistantId c) event) (messages s) ms.
Proof.
  intros c self event s Htype Hmap.
  eexists. split; [apply on_event_partial; assumption|].
  split; [apply length_map|].
  clear. induction (messages s) as [|m r IH]; cbn [map]; constructor;
    [apply append_partial_step|exact IH].
Qed.

Lemma partial_touches_placeholder_only_witness :
  let c := mkClosure FromSendMessage "stream-2000" (obj1 "id" (VStr "c1")) in
  let user := VObj [("id", VStr "m-1"); ("role", VStr "user");
                    ("content", VStr "more")] in
  let s := setMessages [user; placeholder "stream-2000" (VStr "c1") "t1"]
                       initial_session in
  Js.is_str (Js.prop (partial_event "Rev") "type") "partial" = true
  /\ mappable (messages s)
  /\ exists ms,
       on_event c 1 (partial_event "Rev") s = Ok (setMessages ms s)
       /\ List.length ms = List.length (messages s)
       /\ Forall2 (partial_step "stream-2000" (partial_event "Rev"))
                  (messages s) ms.
Proof.
  cbv zeta. split; [reflexivity|]. split; [repeat constructor|].
  apply (partial_touches_placeholder_only
           (mkClosure FromSendMessage "stream-2000" (obj1 "id" (VStr "c1"))) 1
           (partial_event "Rev")).
  - reflexivity.
  - repeat constructor.
Defined.

Lemma on_event_final (c : closure) (self : handle) (event : value)
    (s : Session) :
  is_final event = true ->
  Js.truthy (Js.prop event "assistant_message") = false ->
  mappable (messages s) ->
  exists s',
    on_event c self event s = Ok s'
    /\ messages s'
       = map (fun m => if targets (assistantId c) m
                       then fallback_final (result_of event) m else m)
             (messages s).
Proof.
  unfold is_final. intros Htype Hmsg Hmap. unfold on_event.
  rewrite (type_read _ _ Htype), Htype, Hmsg.
  rewrite (is_str_eq _ _ Htype). cbn [Js.is_str String.eqb Ascii.eqb Bool.eqb].
  rewrite update_where_map by exact Hmap.
  destruct (Js.truthy (Js.prop event "conversation_id")
            && negb (Js.strict_eq (Js.prop (conversation c) "id")
                                  (Js.prop event "conversation_id")));
    eexists; (split; [reflexivity|]); destruct (opened_by c); reflexivity.
Qed.

Lemma mappable_map (f : value -> value) (id : string) (ms : list value) :
  (forall m, Js.nullish (f m) = false) ->
  mappable ms ->
  mappable (map (fun m => if targets id m then f m else m) ms).
Proof.
  intros Hf. induction 1 as [|m r Hm _ IH]; cbn [map]; constructor;
    [|exact IH].
  destruct (targets id m); [apply Hf|exact Hm].
Qed.

Lemma Forall2_map_left {A B C} (R : B -> C -> Prop) (g : A -> B) :
  forall (l : list A) (l' : list C),
    Forall2 R (map g l) l' -> Forall2 (fun a c => R (g a) c) l l'.
Proof.
  induction l as [|a l IH]; intros l' H; inversion H; subst; constructor;
    auto.
Qed.

(** C6, as the code has it.  After partial events with fragments f1..fn
    and a final event with no [assistant_message], the placeholder's
    content is the concatenation f1+...+fn, unless the final event's result
    supplies a [final_output] that is not falsy (not the empty string),
    which then is the content; every other message is unchanged. *)
Theorem partials_then_final :
  forall (c : closure) (self : handle) (events : list value)
         (fragments : list string) (final : value) (s : Session),
    Forall2 carries_fragment events fragments ->
    is_final final = true ->
    Js.truthy (Js.prop final "assistant_message") = false ->
    mappable (messages s) ->
    exists s',
      on_events c self (events ++ [final]) s = Ok s'
      /\ Forall2 (settled (assistantId c) fragments final)
                 (messages s) (messages s').
Proof.
  intros c self events fragments final s Hev Hfinal Hmsg.
  revert s. induction Hev as [|event f events fragments [Htype Hf] _ IH];
    intros s Hmap.
  - cbn [app on_events].
    destruct (on_event_final c self final s Hfinal Hmsg Hmap) as (s' & -> & Hms).
    exists s'. split; [reflexivity|]. rewrite Hms. clear.
    induction (messages s) as [|m r IH]; cbn [map]; constructor; [|exact IH].
    unfold settled. destruct (targets (assistantId c) m); [|reflexivity].
    intros t Ht. unfold fallback_final. rewrite prop_spread_same, Ht.
    cbn [join_all fold_right]. rewrite append_empty. reflexivity.
  - cbn [app on_events]. rewrite on_event_partial by assumption.
    destruct (IH (setMessages
                    (map (fun m => if targets (assistantId c) m
                                   then append_partial event m else m)
                         (messages s)) s)) as (s' & Hrun & Hms).
    { apply mappable_map; [reflexivity|exact Hmap]. }
    exists s'. split; [exact Hrun|].
    cbn [messages setMessages] in Hms. apply Forall2_map_left in Hms.
    eapply Forall2_impl; [|exact Hms]. cbv beta.
    intros m m'. pose proof (append_partial_step (assistantId c) event m) as Hstep.
    unfold settled, partial_step in *.
    destruct (targets (assistantId c) m) eqn:Hm.
    + destruct Hstep as (_ & Hid & _ & _ & Hcontent).
      assert (Hm' : targets (assistantId c) (append_partial event m) = true).
      { unfold targets in *. rewrite Hid. exact Hm. }
      rewrite Hm'. intros Hsettled t Ht.
      rewrite (Hsettled (t ++ f)) by (apply Hcontent; assumption).
      cbn [join_all fold_right]. rewrite append_assoc. reflexivity.
    + rewrite Hm. tauto.
Qed.

Lemma partials_then_final_witness :
  let c := mkClosure FromStartAnalysis "stream-1000" (obj1 "id" (VStr "c1")) in
  let s := setMessages [obj1 "id" (VStr "m-1");
                        placeholder "stream-1000" (VStr "c1") "t0"]
                       initial_session in
  let final := VObj [("type", VStr "final"); ("assistant_message", VNull);
                     ("result", obj1 "visualizations" (arr []))] in
  Forall2 carries_fragment [partial_event "Rev"; partial_event "enue is up"]
          ["Rev"; "enue is up"]
  /\ is_final final = true
  /\ Js.truthy (Js.prop final "assistant_message") = false
  /\ mappable (messages s)
  /\ exists s',
       on_events c 0 ([partial_event "Rev"; partial_event "enue is up"] ++ [final]) s
       = Ok s'
       /\ Forall2 (settled "stream-1000" ["Rev"; "enue is up"] final)
                  (messages s) (messages s').
Proof.
  cbv zeta.
  split; [repeat constructor|]. split; [reflexivity|].
  split; [reflexivity|]. split; [repeat constructor|].
  apply (partials_then_final
           (mkClosure FromStartAnalysis "stream-1000" (obj1 "id" (VStr "c1"))) 0).
  - repeat constructor.
  - reflexivity.
  - reflexivity.
  - repeat constructor.
Defined.

(** C6 as stated fails: a final event that supplies the empty string as
    its [final_output] does not make that value the content; the
    accumulated fragments stay. *)
Lemma empty_final_output_is_ignored :
  let c := mkClosure FromStartAnalysis "stream-1000" (obj1 "id" (VStr "c1")) in
  let s := setMessages [placeholder "stream-1000" (VStr "c1") "t0"]
                       initial_session in
  let final := VObj [("type", VStr "final"); ("final_output", VStr "")] in
  final_output final = VStr ""
  /\ Js.truthy (Js.prop final "assistant_message") = false
  /\ exists s',
       on_events c 0 [partial_event "Rev"; final] s = Ok s'
       /\ map (fun m => Js.prop m "content") (messages s') = [VStr "Rev"]
       /\ map (fun m => Js.prop m "content") (messages s') <> [final_output final].
Proof.
  cbv zeta. split; [reflexivity|]. split; [reflexivity|].
  eexists. split; [reflexivity|]. split; [reflexivity|]. discriminate.
Qed.

(** ** The session controller *)

Lemma create_conversation_log (title : value) (be : backend)
    (log : list request) :
  snd (conversationsApi.create title be log)
  = (log ++ [PostConversations title])%list.
Proof.
  unfold conversationsApi.create, bind, fetch, json, throw, ret, lift.
  destruct (be (PostConversations title)) as [r|e]; [|reflexivity].
  destruct (ok r); cbn [negb]; [|reflexivity].
  destruct (json_body r); reflexivity.
Qed.

Lemma create_conversation_bad_status (title : value) (be : backend)
    (r : Response) :
  be (PostConversations title) = Resolves r ->
  ok r = false ->
  run (conversationsApi.create title) be
  = (Throw (Error "Failed to create conversation"), [PostConversations title]).
Proof.
  intros Hbe Hok. unfold run, conversationsApi.create, bind, fetch.
  rewrite Hbe, Hok. reflexivity.
Qed.

(** The handler's test for a usable identity is the test that [id_of]
    reads something that is not falsy. *)
Lemma usable_identity (conversation : value) :
  Js.truthy (with_id conversation)
  && Js.truthy (Js.prop (with_id conversation) "id")
  = Js.truthy (id_of conversation).
Proof.
  unfold with_id. destruct (Js.truthy (id_of conversation)) eqn:Hid.
  - rewrite prop_spread_same, Hid. reflexivity.
  - unfold id_of, Js.coalesce in Hid.
    destruct (Js.prop conversation "id") eqn:Hp; cbn [Js.nullish] in Hid;
      first [rewrite Hid; apply andb_false_r | apply andb_false_r].
Qed.

(** C4. When conversation creation fails during the start of a session
    that was idle, by a non-success status or by a created conversation
    with no usable identity, the handler reports the failure in an alert,
    after the one request it made; the session is idle again, the message
    list is as it was (no placeholder has been installed), and no stream
    has been opened or stopped.  What remains of the attempt is that the
    page has left its start form ([hasStarted]). *)
Theorem failed_start_leaves_idle :
  forall (be : backend) (w : World) (now : Z) (created_at : string),
    idle (session w) ->
    Js.is_empty (Js.trim (initialQuery (session w))) = false ->
    creation_fails be (title_of (initialQuery (session w))) ->
    let w' := snd (handleStartAnalysis now created_at be w) in
    fst (handleStartAnalysis now created_at be w) = Ok tt
    /\ (exists msg,
           trace w'
           = (trace w
                ++ [Requested (PostConversations
                                 (title_of (initialQuery (session w))));
                    Alerted msg])%list)
    /\ idle (session w')
    /\ messages (session w') = messages (session w)
    /\ streams w' = streams w
    /\ streamControllerRef (session w') = streamControllerRef (session w)
    /\ hasStarted (session w') = true.
Proof.
  intros be w now created_at [Hconv Hload] Hquery Hfail. cbv zeta.
  unfold handleStartAnalysis. rewrite Hquery.
  unfold try_catch_finally. unfold bind, modify, call, emit, throw.
  cbn [session streams trace].
  pose proof (create_conversation_log
                (title_of (initialQuery (session w))) be []) as Hlog.
  fold (run (conversationsApi.create (title_of (initialQuery (session w)))) be)
    in Hlog.
  cbn [initialQuery setHasStarted setIsLoading].
  destruct (run (conversationsApi.create (title_of (initialQuery (session w)))) be)
    as [[conversation|e] log] eqn:Hrun; cbn [snd app] in Hlog; subst log.
  - assert (Hid : Js.truthy (id_of conversation) = false).
    { destruct Hfail as [(r & Hbe & Hok)|(conversation' & Hcreate & Hid)].
      - rewrite (create_conversation_bad_status _ _ _ Hbe Hok) in Hrun.
        discriminate.
      - rewrite Hrun in Hcreate. cbn [fst] in Hcreate. congruence. }
    pose proof (usable_identity conversation) as Husable.
    rewrite Hid in Husable.
    replace (negb (Js.truthy (with_id conversation))
             || negb (Js.truthy (Js.prop (with_id conversation) "id")))
      with true
      by (rewrite <- negb_andb, Husable; reflexivity).
    cbn [fst snd session streams trace map app messages currentConversation
         isLoading hasStarted streamControllerRef setIsLoading setHasStarted].
    repeat split; try assumption.
    rewrite <- app_assoc. eexists. reflexivity.
  - cbn [fst snd session streams trace map app messages currentConversation
         isLoading hasStarted streamControllerRef setIsLoading setHasStarted].
    repeat split; try assumption.
    rewrite <- app_assoc. eexists. reflexivity.
Qed.

Lemma failed_start_leaves_idle_witness :
  let be := always (mkResponse 500 "overloaded" None) in
  let w := perform decode_table be initial_world (TypeQuery "Revenue trend Q1") in
  idle (session w)
  /\ Js.is_empty (Js.trim (initialQuery (session w))) = false
  /\ creation_fails be (title_of (initialQuery (session w)))
  /\ idle (session (snd (handleStartAnalysis 1000 "t0" be w)))
  /\ trace (snd (handleStartAnalysis 1000 "t0" be w))
     = [Requested (PostConversations (VStr "Revenue trend Q1"));
        Alerted "Failed to create conversation"].
Proof.
  cbv zeta.
  split; [split; reflexivity|]. split; [reflexivity|].
  split; [left; eexists; split; reflexivity|].
  split; [|reflexivity].
  apply (failed_start_leaves_idle
           (always (mkResponse 500 "overloaded" None))
           (perform decode_table (always (mkResponse 500 "overloaded" None))
                    initial_world (TypeQuery "Revenue trend Q1"))
           1000 "t0").
  - split; reflexivity.
  - reflexivity.
  - left. eexists. split; reflexivity.
Defined.






Lemma stop_nth_length (h : handle) (ss : list (closure * stream)) :
  List.length (stop_nth h ss) = List.length ss.
Proof.
  revert h. induction ss as [|[c s] r IH]; intros [|h]; cbn; congruence.
Qed.



(** ** Message lists without a null entry *)

Lemma truthy_not_nullish (v : value) : Js.truthy v = true -> Js.nullish v = false.
Proof. destruct v; first [discriminate|reflexivity]. Qed.


Lemma update_where_mappable (id : string) (f : value -> value)
    (prev ms : list value) :
  (forall m, Js.nullish (f m) = false) ->
  mappable prev ->
  update_where id f prev = Ok ms -> mappable ms.
Proof.
  intros Hf Hprev. rewrite (update_where_map _ _ _ Hprev). intros [= <-].
  apply mappable_map; assumption.
Qed.

Lemma on_event_mappable (c : closure) (self : handle) (event : value)
    (s s' : Session) :
  mappable (messages s) ->
  on_event c self event s = Ok s' -> mappable (messages s').
Proof.
  intros Hmap. unfold on_event.
  destruct (get event "type") as [type|e]; [|discriminate].
  destruct (Js.is_str type "partial").
  { destruct (update_where _ _ _) as [ms|e] eqn:Hup; [|discriminate].
    intros [= <-]. eapply update_where_mappable; [|exact Hmap|exact Hup].
    reflexivity. }
  destruct (Js.is_str type "final").
  { destruct (update_where _ _ _) as [ms|e] eqn:Hup; [|discriminate].
    assert (Hms : mappable ms).
    { eapply update_where_mappable; [|exact Hmap|exact Hup].
      destruct (Js.truthy (Js.prop event "assistant_message")) eqn:Ht;
        intros m; [apply truthy_not_nullish, Ht|reflexivity]. }
    destruct (Js.truthy (Js.prop event "conversation_id")
              && negb (Js.strict_eq (Js.prop (conversation c) "id")
                                    (Js.prop event "conversation_id")));
      intros [= <-]; destruct (opened_by c); exact Hms. }
  destruct (Js.is_str type "error").
  { destruct (update_where _ _ _) as [ms|e] eqn:Hup; [|discriminate].
    intros [= <-]. eapply update_where_mappable; [|exact Hmap|exact Hup].
    reflexivity. }
  intros [= <-]. exact Hmap.
Qed.

Lemma deliver_all_mappable (h : handle) (events : list value) :
  forall w,
    mappable (messages (session w)) ->
    mappable (messages (session (deliver_all h events w))).
Proof.
  unfold deliver_all. induction events as [|event events IH]; intros w Hw;
    cbn [fold_left]; [exact Hw|].
  apply IH. unfold deliver.
  destruct (nth_error (streams w) h) as [[c st]|]; [|exact Hw].
  destruct (on_event c h event (session w)) as [s'|e] eqn:Hev; [|exact Hw].
  exact (on_event_mappable _ _ _ _ _ Hw Hev).
Qed.

(** ** Interleaved stream events *)

Lemma message_update_not_nullish (event : value) (f : value -> value) :
  message_update event = Some f -> forall m, Js.nullish (f m) = false.
Proof.
  unfold message_update. destruct (get event "type") as [type|e]; [|discriminate].
  destruct (Js.is_str type "partial"); [intros [= <-]; reflexivity|].
  destruct (Js.is_str type "final").
  { intros [= <-] m.
    destruct (Js.truthy (Js.prop event "assistant_message")) eqn:Ht;
      [apply truthy_not_nullish, Ht|reflexivity]. }
  destruct (Js.is_str type "error"); [intros [= <-]; reflexivity|discriminate].
Qed.

(** On a message list without null entries, delivering an event maps the
    list with the update the event asks for. *)
Lemma deliver_messages (h : handle) (event : value) (w : World)
    (c : closure) (st : stream) :
  nth_error (streams w) h = Some (c, st) ->
  mappable (messages (session w)) ->
  streams (deliver h event w) = streams w
  /\ messages (session (deliver h event w))
     = match message_update event with
       | Some f => map (update_one (assistantId c) f) (messages (session w))
       | None => messages (session w)
       end.
Proof.
  intros Hh Hmap. unfold deliver, on_event, message_update. rewrite Hh.
  destruct (get event "type") as [type|e]; [|split; reflexivity].
  destruct (Js.is_str type "partial").
  { rewrite update_where_map by exact Hmap. split; reflexivity. }
  destruct (Js.is_str type "final").
  { rewrite update_where_map by exact Hmap.
    destruct (Js.truthy (Js.prop event "conversation_id")
              && negb (Js.strict_eq (Js.prop (conversation c) "id")
                                    (Js.prop event "conversation_id")));
      destruct (opened_by c); split; reflexivity. }
  destruct (Js.is_str type "error").
  { rewrite update_where_map by exact Hmap. split; reflexivity. }
  split; reflexivity.
Qed.




Lemma deliver_mappable (h : handle) (event : value) (w : World) :
  mappable (messages (session w)) ->
  mappable (messages (session (deliver h event w))).
Proof. exact (deliver_all_mappable h [event] w). Qed.


(** ** The reload of the message list *)

Lemma reload_request (conversationId : value) (be : backend) :
  Js.truthy conversationId = true ->
  snd (run (messagesApi.getByConversation conversationId) be)
  = [GetMessages conversationId].
Proof.
  intros Hid. unfold run, messagesApi.getByConversation, bind, fetch, json,
    throw, ret, lift. rewrite Hid. cbn [negb].
  destruct (be _) as [r|e]; [|reflexivity].
  destruct (ok r); cbn [negb]; [|reflexivity].
  destruct (json_body r) as [result|]; [|reflexivity].
  destruct (get result "messages"); reflexivity.
Qed.

(** A render with the effect due and a conversation that has an identity
    sends the request for its messages; the reload is then in flight. *)
Lemma render_due (be : backend) (w : World) :
  effect_due w = true ->
  Js.truthy (currentConversation (session w)) = true ->
  Js.truthy (id_of (currentConversation (session w))) = true ->
  snd (render be w)
  = mkWorld (session w) (streams w)
      (trace w ++ [Requested (GetMessages (id_of (currentConversation (session w))))])%list
      false
      (reloads w
         ++ [fst (run (messagesApi.getByConversation
                         (id_of (currentConversation (session w)))) be)])%list.
Proof.
  intros Hdue Hcc Hid. unfold render. rewrite Hdue, Hcc, Hid. cbn [negb].
  cbn [session streams trace reloads].
  pose proof (reload_request _ be Hid) as Hlog.
  destruct (run (messagesApi.getByConversation _) be) as [r log].
  cbn [snd fst] in *. subst log. reflexivity.
Qed.

(** What a render leaves alone, and what it depends on. *)
Lemma render_page (be : backend) (w : World) :
  session (snd (render be w)) = session w
  /\ streams (snd (render be w)) = streams w
  /\ effect_due (snd (render be w)) = false
  /\ exists started,
       reloads (snd (render be w)) = (reloads w ++ started)%list
       /\ Forall (fun r => exists id,
                    r = fst (run (messagesApi.getByConversation id) be))
                 started
       /\ forall w',
            effect_due w' = effect_due w ->
            currentConversation (session w') = currentConversation (session w) ->
            reloads (snd (render be w')) = (reloads w' ++ started)%list.
Proof.
  unfold render. destruct (effect_due w) eqn:Hdue; cbn [negb].
  2:{ repeat split; [exact Hdue|]. exists []. rewrite app_nil_r.
      repeat split; [constructor|].
      intros w' -> _. cbn [negb snd]. rewrite app_nil_r. reflexivity. }
  destruct (Js.truthy (currentConversation (session w))) eqn:Hcc; cbn [negb].
  2:{ repeat split. exists []. cbn [snd reloads]. rewrite app_nil_r.
      repeat split; [constructor|].
      intros w' -> ->. rewrite Hcc. cbn [negb snd reloads].
      rewrite app_nil_r. reflexivity. }
  destruct (Js.truthy (id_of (currentConversation (session w)))) eqn:Hid;
    cbn [negb].
  2:{ repeat split. exists []. cbn [snd reloads]. rewrite app_nil_r.
      repeat split; [constructor|].
      intros w' -> ->. rewrite Hcc, Hid. cbn [negb snd reloads].
      rewrite app_nil_r. reflexivity. }
  cbn [session streams trace reloads].
  destruct (run (messagesApi.getByConversation _) be) as [r log] eqn:Hrun.
  cbn [snd session streams effect_due reloads]. repeat split.
  exists [r]. repeat split.
  - constructor; [|constructor]. eexists. rewrite Hrun. reflexivity.
  - intros w' -> ->. rewrite Hcc, Hid. cbn [negb session streams trace reloads].
    rewrite Hrun. reflexivity.
Qed.

Lemma nth_error_in_flight {A} (l : list A) (x : A) :
  nth_error (l ++ [x]) (List.length l) = Some x.
Proof.
  rewrite nth_error_app2 by lia. rewrite Nat.sub_diag. reflexivity.
Qed.


(** ** What an event does to the page besides the message list *)

Lemma deliver_page (h : handle) (event : value) (w : World)
    (c : closure) (st : stream) :
  nth_error (streams w) h = Some (c, st) ->
  mappable (messages (session w)) ->
  effect_due (deliver h event w) = effect_due w || adopts c event
  /\ reloads (deliver h event w) = reloads w
  /\ trace (deliver h event w) = trace w
  /\ currentConversation (session (deliver h event w))
     = if adopts c event
       then Js.spread_with (conversation c) "id" (Js.prop event "conversation_id")
       else currentConversation (session w).
Proof.
  intros Hh Hmap. unfold deliver, on_event, adopts. rewrite Hh.
  destruct (Js.nullish event) eqn:Hnull.
  { destruct event; try discriminate Hnull; cbn [get Js.prop Js.is_str andb];
      rewrite orb_false_r; repeat split. }
  rewrite (get_not_nullish _ _ Hnull).
  destruct (Js.is_str (Js.prop event "type") "partial") eqn:Hp.
  { rewrite update_where_map by exact Hmap.
    apply is_str_eq in Hp. rewrite Hp.
    change (Js.is_str (VStr "partial") "final") with false.
    cbn [andb effect_due reloads trace session currentConversation setMessages].
    rewrite orb_false_r. repeat split. }
  destruct (Js.is_str (Js.prop event "type") "final") eqn:Hf.
  { rewrite update_where_map by exact Hmap. cbn [andb].
    destruct (Js.truthy (Js.prop event "conversation_id")
              && negb (Js.strict_eq (Js.prop (conversation c) "id")
                                    (Js.prop event "conversation_id")));
      destruct (opened_by c); repeat split. }
  cbn [andb]. rewrite orb_false_r.
  destruct (Js.is_str (Js.prop event "type") "error").
  { rewrite update_where_map by exact Hmap. repeat split. }
  repeat split.
Qed.

(** Events on which the callback adopts no conversation leave the
    conversation, the effect, the reloads in flight and the trace alone. *)
Lemma deliver_all_quiet (h : handle) (c : closure) (st : stream)
    (events : list value) :
  forall w,
    nth_error (streams w) h = Some (c, st) ->
    mappable (messages (session w)) ->
    Forall (fun event => adopts c event = false) events ->
    currentConversation (session (deliver_all h events w))
    = currentConversation (session w)
    /\ effect_due (deliver_all h events w) = effect_due w
    /\ reloads (deliver_all h events w) = reloads w
    /\ trace (deliver_all h events w) = trace w.
Proof.
  unfold deliver_all.
  induction events as [|event events IH]; intros w Hh Hmap Hquiet;
    cbn [fold_left]; [repeat split|].
  inversion Hquiet as [|? ? Hevent Hrest]; subst.
  destruct (deliver_page h event w c st Hh Hmap) as (Hd & Hr & Ht & Hc).
  rewrite Hevent in Hd, Hc. rewrite orb_false_r in Hd.
  destruct (deliver_messages h event w c st Hh Hmap) as [Hs _].
  destruct (IH (deliver h event w)) as (Hc' & Hd' & Hr' & Ht').
  - rewrite Hs. exact Hh.
  - apply deliver_mappable, Hmap.
  - exact Hrest.
  - repeat split; congruence.
Qed.

Lemma spread_truthy (o : value) (k : string) (x : value) :
  Js.truthy (Js.spread_with o k x) = true.
Proof. reflexivity. Qed.

Lemma id_of_spread (o x : value) :
  Js.truthy x = true -> id_of (Js.spread_with o "id" x) = x.
Proof.
  intros Hx. unfold id_of. rewrite prop_spread_same. unfold Js.coalesce.
  rewrite (truthy_not_nullish _ Hx). rewrite (truthy_not_nullish _ Hx).
  reflexivity.
Qed.

(** A final event on which the callback adopts a conversation: the page
    holds that conversation, the next render requests its messages, and
    when the reload settles with a list, that list is the message list. *)
Lemma adopting_final_reloads (be : backend) (h : handle) (c : closure)
    (st : stream) (event : value) (w : World) :
  nth_error (streams w) h = Some (c, st) ->
  mappable (messages (session w)) ->
  adopts c event = true ->
  let id := Js.prop event "conversation_id" in
  let w' := deliver h event w in
  effect_due w' = true
  /\ currentConversation (session w') = Js.spread_with (conversation c) "id" id
  /\ trace (snd (render be w')) = (trace w ++ [Requested (GetMessages id)])%list
  /\ reloads (snd (render be w'))
     = (reloads w ++ [fst (run (messagesApi.getByConversation id) be)])%list
  /\ forall msgs,
       fst (run (messagesApi.getByConversation id) be) = Ok (arr msgs) ->
       shown_after (List.length (reloads w)) (snd (render be w')) = Some msgs.
Proof.
  intros Hh Hmap Hadopts. cbv zeta.
  destruct (deliver_page h event w c st Hh Hmap) as (Hd & Hr & Ht & Hc).
  rewrite Hadopts in Hd, Hc. rewrite orb_true_r in Hd.
  assert (Hid : Js.truthy (Js.prop event "conversation_id") = true).
  { unfold adopts in Hadopts. apply andb_prop in Hadopts as [_ H].
    apply andb_prop in H. apply H. }
  assert (Hrender := render_due be (deliver h event w) Hd).
  rewrite Hc, (id_of_spread _ _ Hid), Ht, Hr in Hrender.
  specialize (Hrender (spread_truthy _ _ _) Hid).
  split; [exact Hd|]. split; [exact Hc|]. rewrite Hrender.
  cbn [trace reloads]. split; [reflexivity|]. split; [reflexivity|].
  intros msgs Hmsgs. unfold shown_after, loaded. cbn [reloads].
  rewrite nth_error_in_flight, Hmsgs. reflexivity.
Qed.

(** ** Stream events among renders and reloads *)


(** ** Supersession *)






(** * Further properties of the code *)

(** ** The identity search and the normaliser *)

(** Induction over values, through the lists they nest. *)
Lemma value_nested_ind (P : value -> Prop) :
  P VUndef -> P VNull -> (forall b, P (VBool b)) -> (forall n, P (VNum n)) ->
  (forall s, P (VStr s)) ->
  (forall es extra,
      Forall P es -> Forall (fun kv => P (snd kv)) extra -> P (VArr es extra)) ->
  (forall ps, Forall (fun kv => P (snd kv)) ps -> P (VObj ps)) ->
  forall v, P v.
Proof.
  intros HU HN HB HNum HS HA HO. fix IH 1.
  intros [ | | b | n | s | es extra | ps];
    [exact HU|exact HN|apply HB|apply HNum|apply HS| | ].
  - apply HA.
    + induction es as [|e es IHes]; constructor; [apply IH|exact IHes].
    + induction extra as [|[k v] r IHr]; constructor; [apply IH|exact IHr].
  - apply HO. induction ps as [|[k v] r IHr]; constructor; [apply IH|exact IHr].
Qed.

Lemma lookup_forall (P : value -> Prop) (k : string)
    (ps : list (string * value)) :
  P VUndef -> Forall (fun kv => P (snd kv)) ps -> P (Js.lookup k ps).
Proof.
  intros HU. induction 1 as [|[k' v] r Hv _ IH]; cbn [Js.lookup]; [exact HU|].
  destruct (String.eqb k' k); [exact Hv|exact IH].
Qed.

(** X1. The identity search answers [null] or a truthy value: it never
    hands back [undefined], an empty string, zero or [false], whatever the
    payload. *)
Theorem tryGetId_null_or_truthy :
  forall obj : value,
    tryGetId obj = VNull \/ Js.truthy (tryGetId obj) = true.
Proof.
  induction obj as [ | | b | n | s | es extra IHes IHextra | ps IHps]
    using value_nested_ind; try (left; reflexivity).
  - destruct s; [left|right]; reflexivity.
  - rewrite tryGetId_array. cbn [Js.prop Js.first].
    destruct (Js.truthy (Js.lookup "id" extra)) eqn:Hid; [right; exact Hid|].
    destruct (Js.truthy (Js.lookup "conversation_id" extra)) eqn:Hcid;
      [right; exact Hcid|].
    destruct (Js.truthy (Js.lookup "data" extra)).
    + apply (lookup_forall
               (fun v => tryGetId v = VNull \/ Js.truthy (tryGetId v) = true));
        [left; reflexivity|exact IHextra].
    + destruct IHes as [|e es He _]; [left; reflexivity|exact He].
  - rewrite tryGetId_object. cbn [Js.prop].
    destruct (Js.truthy (Js.lookup "id" ps)) eqn:Hid; [right; exact Hid|].
    destruct (Js.truthy (Js.lookup "conversation_id" ps)) eqn:Hcid;
      [right; exact Hcid|].
    destruct (Js.truthy (Js.lookup "data" ps)).
    + apply (lookup_forall
               (fun v => tryGetId v = VNull \/ Js.truthy (tryGetId v) = true));
        [left; reflexivity|exact IHps].
    + clear Hid Hcid. induction IHps as [|[k v] r Hv _ IH];
        cbn [search_props]; [left; reflexivity|].
      destruct (Js.truthy v && Js.typeof_object v); [|exact IH].
      cbn [snd] in Hv. cbv zeta.
      destruct (Js.truthy (tryGetId v)) eqn:Ht; [right; exact Ht|exact IH].
Qed.

Lemma fill_id_identified (ps : list (string * value)) :
  Js.truthy (Js.lookup "id" ps) = true -> Normalize.fill_id (VObj ps) = VObj ps.
Proof.
  intros Hid. unfold Normalize.fill_id.
  cbn [Js.truthy Js.typeof_object andb Js.prop]. rewrite Hid.
  cbn [negb]. rewrite andb_false_r. reflexivity.
Qed.

Lemma unwrap_late_identified (ps : list (string * value)) :
  Js.truthy (Js.lookup "id" ps) = true ->
  Normalize.unwrap_late (VObj ps) = VObj ps.
Proof.
  intros Hid. unfold Normalize.unwrap_late.
  cbn [Js.truthy andb Js.prop]. rewrite Hid. reflexivity.
Qed.

(** The steps after the first unwrapping leave an identified object alone. *)
Lemma normalize_tail_identified (title : value) (ps : list (string * value)) :
  Js.truthy (Js.lookup "id" ps) = true ->
  Normalize.unwrap_late
    (Normalize.pick_first
       (Normalize.promote_string title
          (Normalize.fill_id (VObj ps))))
  = VObj ps.
Proof.
  intros Hid. rewrite fill_id_identified by exact Hid.
  cbn [Normalize.promote_string Js.is_string Normalize.pick_first Js.isArray
       andb].
  apply unwrap_late_identified, Hid.
Qed.

(** X2. The shapes the normaliser unwraps: an entity that is an object
    with a truthy [id] comes back unchanged when the payload is the entity
    itself, a [data] envelope around it, a [conversation] envelope around
    it, or an array that starts with it. *)
Theorem normalize_unwraps :
  forall (title : value) (entity : list (string * value)),
    Js.truthy (Js.lookup "id" entity) = true ->
    (Js.truthy (Js.lookup "conversation" entity) = false ->
     Js.truthy (Js.lookup "data" entity) = false ->
     Normalize.normalize title (VObj entity) = Ok (VObj entity))
    /\ (forall envelope,
           Js.truthy (Js.lookup "conversation" envelope) = false ->
           Js.lookup "data" envelope = VObj entity ->
           Normalize.normalize title (VObj envelope) = Ok (VObj entity))
    /\ (forall envelope,
           Js.lookup "conversation" envelope = VObj entity ->
           Js.truthy (Js.lookup "data" entity) = false ->
           Normalize.normalize title (VObj envelope) = Ok (VObj entity))
    /\ (forall rest,
           Normalize.normalize title (arr (VObj entity :: rest))
           = Ok (VObj entity)).
Proof.
  intros title entity Hid.
  pose proof (normalize_tail_identified title entity Hid) as Hkeep.
  unfold Normalize.normalize. repeat split.
  - intros Hconv Hdata. cbn [get Js.prop]. unfold Js.or. rewrite Hconv.
    unfold Normalize.unwrap_data. cbn [Js.prop]. rewrite Hdata, andb_false_r.
    change (Normalize.pick_first (VObj entity)) with (VObj entity).
    exact (f_equal Ok Hkeep).
  - intros envelope Hconv Hdata. cbn [get Js.prop]. unfold Js.or.
    rewrite Hconv. unfold Normalize.unwrap_data.
    cbn [Js.prop]. rewrite Hdata. cbn [Js.truthy andb].
    change (Normalize.pick_first (VObj entity)) with (VObj entity).
    exact (f_equal Ok Hkeep).
  - intros envelope Hconv Hdata. cbn [get Js.prop]. unfold Js.or.
    rewrite Hconv. cbn [Js.truthy]. unfold Normalize.unwrap_data.
    cbn [Js.prop]. rewrite Hdata, andb_false_r.
    change (Normalize.pick_first (VObj entity)) with (VObj entity).
    exact (f_equal Ok Hkeep).
  - intros rest.
    change (Normalize.normalize title (arr (VObj entity :: rest)))
      with (Ok (Normalize.unwrap_late
                  (Normalize.pick_first
                     (Normalize.promote_string title
                        (Normalize.fill_id (VObj entity)))))).
    exact (f_equal Ok Hkeep).
Qed.

Lemma normalize_unwraps_witness :
  let entity := [("id", VStr "c1"); ("title", VStr "Q1")] in
  Js.truthy (Js.lookup "id" entity) = true
  /\ Normalize.normalize VUndef (VObj [("status", VStr "ok"); ("data", VObj entity)])
     = Ok (VObj entity).
Proof.
  cbv zeta. split; [reflexivity|].
  destruct (normalize_unwraps VUndef [("id", VStr "c1"); ("title", VStr "Q1")]
              eq_refl) as (_ & Henvelope & _).
  apply Henvelope; reflexivity.
Defined.

(** X3. An object payload without a truthy [conversation] or [data] key,
    in which the identity search finds something, comes back carrying
    exactly what the search found as its [id]. *)
Theorem normalize_recovers_identity :
  forall (title : value) (ps : list (string * value)),
    Js.truthy (Js.lookup "conversation" ps) = false ->
    Js.truthy (Js.lookup "data" ps) = false ->
    Js.truthy (tryGetId (VObj ps)) = true ->
    identity (Normalize.normalize title (VObj ps)) = tryGetId (VObj ps).
Proof.
  intros title ps Hconv Hdata Hfound.
  unfold Normalize.normalize. cbn [get Js.prop]. unfold Js.or. rewrite Hconv.
  unfold Normalize.unwrap_data. cbn [Js.prop]. rewrite Hdata, andb_false_r.
  unfold Normalize.pick_first at 2. cbn [Js.isArray andb].
  unfold Normalize.fill_id. cbn [Js.truthy Js.typeof_object andb Js.prop].
  rewrite Hfound. cbn [andb].
  destruct (Js.truthy (Js.lookup "id" ps)) eqn:Hid; cbn [negb].
  - unfold Normalize.promote_string, Normalize.pick_first, Normalize.unwrap_late.
    cbn [Js.is_string Js.isArray Js.truthy Js.prop andb]. rewrite Hid.
    cbn [negb andb identity Js.prop].
    rewrite tryGetId_object. cbn [Js.prop]. rewrite Hid. reflexivity.
  - unfold Js.set_prop, Normalize.promote_string, Normalize.pick_first,
      Normalize.unwrap_late.
    cbn [Js.is_string Js.isArray Js.truthy Js.prop andb].
    rewrite lookup_assign_same, Hfound. cbn [negb andb identity Js.prop].
    apply lookup_assign_same.
Qed.

Lemma normalize_recovers_identity_witness :
  let ps := [("value", obj1 "row" (obj1 "conversation_id" (VNum (Int 7))))] in
  Js.truthy (Js.lookup "conversation" ps) = false
  /\ Js.truthy (Js.lookup "data" ps) = false
  /\ Js.truthy (tryGetId (VObj ps)) = true
  /\ identity (Normalize.normalize VUndef (VObj ps)) = VNum (Int 7).
Proof.
  cbv zeta. split; [reflexivity|]. split; [reflexivity|].
  split; [reflexivity|].
  etransitivity.
  - apply (normalize_recovers_identity VUndef
             [("value", obj1 "row" (obj1 "conversation_id" (VNum (Int 7))))]);
      reflexivity.
  - reflexivity.
Defined.

(** ** The resource clients: requests and failures *)

Ltac unfold_clients :=
  unfold run, invoke, documentsApi.getAll, documentsApi.upload,
    documentsApi.delete, queriesApi.create, conversationsApi.create,
    conversationsApi.getAll, messagesApi.getByConversation,
    messagesApi.create, bind, fetch, json, lift, throw, ret.

(** X4. Whatever the backend answers, a client operation sends exactly one
    request, the one of [request_of], and none at all when a message
    operation is called without a conversation identity: nothing is retried
    and nothing else is fetched. *)
Theorem one_request_per_operation :
  forall (op : operation) (be : backend),
    snd (run (invoke op) be)
    = if reaches_backend op then [request_of op] else [].
Proof.
  intros op be.
  destruct op as [ |file|id|queryText|title| |conversationId
                 |conversationId role content];
    cbn [reaches_backend request_of]; unfold_clients;
    try (destruct (Js.truthy conversationId); cbn [negb snd]; [|reflexivity]);
    destruct (be _) as [r|e]; cbn [snd app]; try reflexivity;
    destruct (ok r); cbn [negb snd]; try reflexivity;
    destruct (json_body r) as [result|]; cbn [snd]; try reflexivity;
    repeat match goal with
           | |- context [match ?x with _ => _ end] => destruct x
           end;
    reflexivity.
Qed.

(** X5. A request the transport rejects (the network is down, the request
    is aborted) makes the operation fail with that very rejection, after
    its one request. *)
Theorem rejected_fetch_propagates :
  forall (op : operation) (be : backend) (e : exn),
    reaches_backend op = true ->
    be (request_of op) = Rejects e ->
    run (invoke op) be = (Throw e, [request_of op]).
Proof.
  intros op be e Hreach Hbe.
  destruct op; cbn [reaches_backend request_of] in *; unfold_clients;
    try rewrite Hreach; cbn [negb]; rewrite Hbe; reflexivity.
Qed.

Lemma rejected_fetch_propagates_witness :
  let e := mkExn "TypeError" "Failed to fetch" in
  let be := fun _ : request => Rejects e in
  reaches_backend (MessageList (VStr "c1")) = true
  /\ be (request_of (MessageList (VStr "c1"))) = Rejects e
  /\ run (messagesApi.getByConversation (VStr "c1")) be
     = (Throw e, [GetMessages (VStr "c1")]).
Proof.
  cbv zeta. split; [reflexivity|]. split; [reflexivity|].
  apply (rejected_fetch_propagates (MessageList (VStr "c1"))); reflexivity.
Defined.

(** X6. A success status with a body that is not JSON makes every
    operation that decodes the body fail with the decoder's SyntaxError;
    deleting a document never reads the body and succeeds on any success
    status. *)
Theorem undecodable_body :
  forall (op : operation) (be : backend) (r : Response),
    reaches_backend op = true ->
    be (request_of op) = Resolves r ->
    ok r = true ->
    json_body r = None ->
    run (invoke op) be
    = (match op with
       | DocumentDelete _ => Ok VUndef
       | _ => Throw SyntaxError
       end, [request_of op]).
Proof.
  intros op be r Hreach Hbe Hok Hbody.
  destruct op; cbn [reaches_backend request_of] in *; unfold_clients;
    try rewrite Hreach; cbn [negb]; rewrite Hbe, Hok; cbn [negb];
    try rewrite Hbody; reflexivity.
Qed.

Lemma undecodable_body_witness :
  let r := mkResponse 200 "<html>ok</html>" None in
  reaches_backend (DocumentDelete "d1") = true
  /\ always r (request_of (DocumentDelete "d1")) = Resolves r
  /\ ok r = true
  /\ json_body r = None
  /\ run (invoke (DocumentDelete "d1")) (always r)
     = (Ok VUndef, [DeleteDocument "d1"])
  /\ run (invoke DocumentList) (always r) = (Throw SyntaxError, [GetDocuments]).
Proof.
  cbv zeta. split; [reflexivity|]. split; [reflexivity|].
  split; [reflexivity|]. split; [reflexivity|]. split.
  - apply (undecodable_body (DocumentDelete "d1")
             (always (mkResponse 200 "<html>ok</html>" None))
             (mkResponse 200 "<html>ok</html>" None)); reflexivity.
  - apply (undecodable_body DocumentList
             (always (mkResponse 200 "<html>ok</html>" None))
             (mkResponse 200 "<html>ok</html>" None)); reflexivity.
Defined.

(** X7. Whenever the list of documents returns, what it returns is an
    array, whatever the backend sent. *)
Theorem document_list_is_an_array :
  forall (be : backend) (docs : value),
    fst (run documentsApi.getAll be) = Ok docs -> Js.isArray docs = true.
Proof.
  intros be docs. unfold_clients.
  destruct (be GetDocuments) as [r|e]; [|discriminate].
  destruct (ok r); cbn [negb fst]; [|discriminate].
  destruct (json_body r) as [result|]; [|discriminate].
  destruct (get result "documents") as [d|e]; cbn [fst]; [|discriminate].
  destruct (Js.isArray d) eqn:Hd; [intros [= <-]; exact Hd|].
  destruct (Js.isArray result) eqn:Hr; intros [= <-]; [exact Hr|reflexivity].
Qed.

Lemma document_list_is_an_array_witness :
  fst (run documentsApi.getAll (always (ok_json (VStr "none")))) = Ok (arr [])
  /\ Js.isArray (arr []) = true.
Proof.
  split; [reflexivity|].
  apply (document_list_is_an_array (always (ok_json (VStr "none")))).
  reflexivity.
Defined.

(** X8. The two shapes every list operation accepts: a bare array comes
    back as it is, and so does an array wrapped under the conventional key
    ([documents], [conversations], [messages]), whatever else the wrapper
    holds. *)
Theorem list_shapes :
  forall (es : list value) (wrapper : list (string * value)) (id : value),
    Js.truthy id = true ->
    let bare := always (ok_json (arr es)) in
    let wrapped := always (ok_json (VObj wrapper)) in
    (run documentsApi.getAll bare = (Ok (arr es), [GetDocuments])
     /\ run conversationsApi.getAll bare = (Ok (arr es), [GetConversations])
     /\ run (messagesApi.getByConversation id) bare
        = (Ok (arr es), [GetMessages id]))
    /\ (Js.lookup "documents" wrapper = arr es ->
        run documentsApi.getAll wrapped = (Ok (arr es), [GetDocuments]))
    /\ (Js.lookup "conversations" wrapper = arr es ->
        run conversationsApi.getAll wrapped = (Ok (arr es), [GetConversations]))
    /\ (Js.lookup "messages" wrapper = arr es ->
        run (messagesApi.getByConversation id) wrapped
        = (Ok (arr es), [GetMessages id])).
Proof.
  intros es wrapper id Hid. cbv zeta. unfold_clients. unfold always, ok_json.
  rewrite Hid.
  cbn [negb ok status andb Z.leb Z.compare json_body get Js.prop arr
       Js.lookup Js.isArray Js.or Js.truthy].
  repeat split; try (intros ->; cbn [Js.isArray Js.truthy]; reflexivity).
Qed.

Lemma list_shapes_witness :
  let wrapper := [("count", VNum (Int 1)); ("messages", arr [obj1 "id" (VStr "m1")])] in
  Js.truthy (VStr "c1") = true
  /\ Js.lookup "messages" wrapper = arr [obj1 "id" (VStr "m1")]
  /\ run (messagesApi.getByConversation (VStr "c1")) (always (ok_json (VObj wrapper)))
     = (Ok (arr [obj1 "id" (VStr "m1")]), [GetMessages (VStr "c1")]).
Proof.
  cbv zeta. split; [reflexivity|]. split; [reflexivity|].
  destruct (list_shapes [obj1 "id" (VStr "m1")]
              [("count", VNum (Int 1)); ("messages", arr [obj1 "id" (VStr "m1")])]
              (VStr "c1") eq_refl) as (_ & _ & _ & Hmessages).
  apply Hmessages. reflexivity.
Defined.

(** ** The streaming consumer: error responses and framing *)

(** X9. A non-success initial response gives the callback exactly one
    event, an error event whose text shows the status code and the body,
    and the stream emits nothing after it, with or without a body and
    whatever the transport does next. *)
Theorem bad_response_one_error :
  forall (parse : string -> option value) (r : Response) (has_body : bool)
         (rest : list transport),
    ok r = false ->
    let description := Js.decimal (status r) ++ " " ++ text r in
    emitted parse opened (Responds r has_body :: rest) = [error_event description]
    /\ includes description (Js.decimal (status r)) = true
    /\ includes description (text r) = true.
Proof.
  intros parse r has_body rest Hok. cbv zeta. split; [|split].
  - unfold opened. cbn [emitted]. unfold step. cbn [at_phase aborted consume].
    rewrite Hok. cbn [negb]. rewrite emitted_closed. reflexivity.
  - exact (includes_append "" (Js.decimal (status r)) (" " ++ text r)).
  - rewrite <- append_assoc. apply includes_suffix.
Qed.

Lemma bad_response_one_error_witness :
  ok (mkResponse 500 "overloaded" None) = false
  /\ emitted decode_table opened
       [Responds (mkResponse 500 "overloaded" None) true;
        ChunkRead ("data: " ++ final_frame ++ blank_line)]
     = [error_event "500 overloaded"].
Proof.
  split; [reflexivity|].
  apply (bad_response_one_error decode_table (mkResponse 500 "overloaded" None)).
  reflexivity.
Defined.

Lemma split_blank_single_line (s : string) :
  single_line s = true -> split_blank s = [s].
Proof.
  induction s as [|c r IH]; [reflexivity|].
  cbn [single_line]. intros H. apply andb_true_iff in H as [Hc Hr].
  destruct r as [|c2 r2]; [reflexivity|].
  rewrite split_blank_two. apply negb_true_iff in Hc. rewrite Hc.
  cbn [andb]. rewrite (IH Hr). reflexivity.
Qed.

(** A part without a line feed, closed by a blank line, is split off
    whole. *)
Lemma split_blank_line (q rest : string) :
  single_line q = true ->
  split_blank (q ++ blank_line ++ rest) = q :: split_blank rest.
Proof.
  induction q as [|c q IH]; [reflexivity|].
  cbn [single_line]. intros H. apply andb_true_iff in H as [Hc Hq].
  apply negb_true_iff in Hc. specialize (IH Hq).
  cbn [String.append]. destruct q as [|c2 q'].
  - change (String c ("" ++ blank_line ++ rest))
      with (String c (String newline (String newline rest))).
    rewrite split_blank_two, Hc. cbn [andb].
    change (String newline (String newline rest))
      with ("" ++ blank_line ++ rest).
    rewrite IH. reflexivity.
  - change (String c (String c2 q' ++ blank_line ++ rest))
      with (String c (String c2 (q' ++ blank_line ++ rest))).
    rewrite split_blank_two, Hc. cbn [andb].
    change (String c2 (q' ++ blank_line ++ rest))
      with (String c2 q' ++ blank_line ++ rest).
    rewrite IH. reflexivity.
Qed.

Lemma single_line_data (p : string) :
  single_line p = true -> single_line ("data: " ++ p) = true.
Proof. intros H. cbn. exact H. Qed.

Lemma split_blank_framed (payloads : list string) (tail : string) :
  Forall (fun p => single_line p = true) payloads ->
  single_line tail = true ->
  split_blank (framed payloads ++ tail)
  = (map (String.append "data: ") payloads ++ [tail])%list.
Proof.
  intros Hps Htail. induction Hps as [|p r Hp _ IH].
  - apply split_blank_single_line, Htail.
  - cbn [framed map app].
    replace (("data: " ++ p ++ blank_line ++ framed r) ++ tail)
      with (("data: " ++ p) ++ blank_line ++ (framed r ++ tail)).
    + rewrite split_blank_line by (apply single_line_data, Hp).
      rewrite IH. reflexivity.
    + rewrite !append_assoc. reflexivity.
Qed.

Lemma on_part_data (parse : string -> option value) (p : string) :
  on_part parse ("data: " ++ p) = decoded parse p.
Proof.
  unfold on_part, decoded, Js.trim.
  change (Js.trim_start ("data: " ++ p)) with ("data: " ++ p).
  change ("data: " ++ p) with (String "d" ("ata: " ++ p)) at 1.
  cbn [Js.trim_end].
  assert (Hprefix : String.prefix "data: " ("data: " ++ p) = true)
    by apply prefix_append.
  rewrite Hprefix.
  change (Js.drop 6 ("data: " ++ p)) with p.
  change (Js.is_space "d") with false.
  destruct (Js.trim_end ("ata: " ++ p)); reflexivity.
Qed.

Lemma frames_framed (parse : string -> option value)
    (payloads : list string) (tail : string) :
  Forall (fun p => single_line p = true) payloads ->
  single_line tail = true ->
  frames parse (framed payloads ++ tail) = flat_map (decoded parse) payloads.
Proof.
  intros Hps Htail. unfold frames.
  rewrite split_blank_framed by assumption. rewrite removelast_last.
  clear. induction payloads as [|p r IH]; [reflexivity|].
  cbn [map flat_map]. rewrite on_part_data, IH. reflexivity.
Qed.

(** X10. Deframing undoes framing.  When the bytes of a stream are a
    sequence of one-line payloads, each written as [data: ], the payload
    and a blank line, then however they are cut into chunks the callback
    receives the decoding of each payload, in order; a payload that does
    not decode is skipped without disturbing the ones after it; and a last
    payload that is not closed by a blank line is never delivered, not even
    when the transport closes. *)
Theorem framed_stream_round_trip :
  forall (parse : string -> option value) (r : Response)
         (payloads : list string) (tail : string) (chunks : list string)
         (rest : list transport),
    ok r = true ->
    Forall (fun p => single_line p = true) payloads ->
    single_line tail = true ->
    join_all chunks = framed payloads ++ tail ->
    emitted parse opened
      (Responds r true :: map ChunkRead chunks ++ DoneRead :: rest)
    = flat_map (decoded parse) payloads.
Proof.
  intros parse r payloads tail chunks rest Hok Hps Htail Hjoin.
  unfold opened. cbn [emitted]. unfold step. cbn [at_phase aborted consume].
  rewrite Hok. cbn [negb app]. rewrite emitted_chunks. cbn [emitted].
  unfold step. cbn [at_phase aborted consume]. rewrite emitted_closed.
  rewrite app_nil_r, Hjoin. apply frames_framed; assumption.
Qed.

Lemma framed_stream_round_trip_witness :
  let payloads := [partial_frame; "not json"; final_frame] in
  let chunks := ["data: " ++ partial_frame ++ String newline "";
                 String newline ("data: not json" ++ blank_line ++ "data: ");
                 final_frame ++ blank_line ++ "data: " ++ partial_frame] in
  ok (mkResponse 200 "" None) = true
  /\ Forall (fun p => single_line p = true) payloads
  /\ single_line ("data: " ++ partial_frame) = true
  /\ join_all chunks = framed payloads ++ "data: " ++ partial_frame
  /\ emitted decode_table opened
       (Responds (mkResponse 200 "" None) true
          :: map ChunkRead chunks ++ DoneRead :: [])
     = [partial_event "x"; final_value].
Proof.
  cbv zeta. split; [reflexivity|]. split; [repeat constructor|].
  split; [reflexivity|]. split; [reflexivity|].
  etransitivity.
  - apply (framed_stream_round_trip decode_table (mkResponse 200 "" None)
             [partial_frame; "not json"; final_frame]
             ("data: " ++ partial_frame)).
    + reflexivity.
    + repeat constructor.
    + reflexivity.
    + reflexivity.
  - reflexivity.
Defined.

(** ** The handlers of the agent page *)

Ltac run_handler :=
  unfold try_catch_finally;
  unfold bind, modify, call, emit, throw, ret, stop_existing,
    generateAgentResponseStream;
  cbn [fst snd session streams trace messages currentConversation isLoading
       initialQuery hasStarted workflowResult streamControllerRef
       setMessages setIsLoading setHasStarted setCurrentConversation
       setStreamControllerRef negb orb andb].

(** X11. No exception escapes the two handlers of the agent page: whatever
    the backend does, each returns normally, and once it has run (a
    non-blank query, a conversation to send to) it has put [isLoading] back
    to false. *)
Theorem handlers_never_throw :
  forall (be : backend) (w : World) (content : string) (now : Z)
         (created_at : string),
    let started := handleStartAnalysis now created_at be w in
    let sent := handleSendMessage content now created_at be w in
    fst started = Ok tt
    /\ fst sent = Ok tt
    /\ (Js.is_empty (Js.trim (initialQuery (session w))) = false ->
        isLoading (session (snd started)) = false)
    /\ (Js.truthy (currentConversation (session w)) = true ->
        isLoading (session (snd sent)) = false).
Proof.
  intros be w content now created_at. cbv zeta.
  unfold handleStartAnalysis, handleSendMessage.
  destruct (Js.is_empty (Js.trim (initialQuery (session w))));
    destruct (Js.truthy (currentConversation (session w)));
    run_handler;
    repeat match goal with
           | |- context [match ?x with _ => _ end] => destruct x; run_handler
           end;
    repeat split; intros; try reflexivity; try discriminate.
Qed.










Lemma one_request_log (conversationId : value) (content : string)
    (be : backend) :
  Js.truthy conversationId = true ->
  snd (run (messagesApi.create conversationId "user" content) be)
  = [PostMessages conversationId "user" content].
Proof.
  intros Hid. unfold_clients. rewrite Hid. cbn [negb].
  destruct (be _) as [r|e]; [|reflexivity].
  destruct (ok r); cbn [negb]; [|reflexivity].
  destruct (json_body r) as [result|]; [|reflexivity].
  destruct (get result "message"); reflexivity.
Qed.

(** X14. A turn that cannot be sent changes nothing but the alert: with no
    conversation the handler does nothing at all, and when the conversation
    has no identity or the creation of the user's message fails, the
    message list, the streams and the handle on record are as they were,
    nothing is stopped, and one alert with the fixed text is raised. *)
Theorem failed_send_changes_nothing :
  forall (be : backend) (w : World) (content : string) (now : Z)
         (created_at : string),
    let cc := currentConversation (session w) in
    let w' := snd (handleSendMessage content now created_at be w) in
    (Js.truthy cc = false -> w' = w)
    /\ (Js.truthy cc = true ->
        Js.truthy (id_of cc) = false
        \/ (exists e, fst (run (messagesApi.create (id_of cc) "user" content) be)
                      = Throw e) ->
        session w' = setIsLoading false (session w)
        /\ streams w' = streams w
        /\ trace w'
           = (trace w
                ++ (if Js.truthy (id_of cc)
                    then [Requested (PostMessages (id_of cc) "user" content)]
                    else [])
                ++ [Alerted "Failed to send message. Please try again."])%list).
Proof.
  intros be w content now created_at. cbv zeta. split.
  - intros Hcc. unfold handleSendMessage. rewrite Hcc. reflexivity.
  - intros Hcc Hfail. unfold handleSendMessage. rewrite Hcc. run_handler.
    destruct (Js.truthy (id_of (currentConversation (session w)))) eqn:Hid;
      run_handler.
    + destruct Hfail as [Hfalse|[e He]]; [discriminate|].
      pose proof (one_request_log (id_of (currentConversation (session w)))
                    content be Hid) as Hlog.
      destruct (run (messagesApi.create _ _ _) be) as [[u|e'] log];
        cbn [fst snd] in He, Hlog; [discriminate|]. subst log.
      run_handler. cbn [map app]. rewrite <- !app_assoc. repeat split.
    + cbn [app]. repeat split.
Qed.

Lemma failed_send_changes_nothing_witness :
  let be := always (mkResponse 503 "busy" None) in
  let w := mkWorld (setCurrentConversation (obj1 "id" (VStr "c1"))
                      (setMessages [obj1 "id" (VStr "m1")] initial_session))
                   [] [] false [] in
  let w' := snd (handleSendMessage "more" 2000 "t1" be w) in
  Js.truthy (currentConversation (session w)) = true
  /\ fst (run (messagesApi.create (id_of (currentConversation (session w)))
                                  "user" "more") be)
     = Throw (Error "Failed to create message")
  /\ messages (session w') = [obj1 "id" (VStr "m1")]
  /\ trace w'
     = [Requested (PostMessages (VStr "c1") "user" "more");
        Alerted "Failed to send message. Please try again."].
Proof.
  cbv zeta.
  destruct (failed_send_changes_nothing
              (always (mkResponse 503 "busy" None))
              (mkWorld (setCurrentConversation (obj1 "id" (VStr "c1"))
                          (setMessages [obj1 "id" (VStr "m1")] initial_session))
                       [] [] false [])
              "more" 2000 "t1") as [_ Hfail].
  destruct (Hfail eq_refl
              (or_intror (ex_intro _ (Error "Failed to create message") eq_refl)))
    as (Hsession & _ & Htrace).
  split; [reflexivity|]. split; [reflexivity|].
  split; [rewrite Hsession; reflexivity|exact Htrace].
Defined.

Lemma handlers_never_throw_witness :
  let be := fun _ : request => Rejects (mkExn "TypeError" "Failed to fetch") in
  let w := perform decode_table be initial_world (TypeQuery "Revenue") in
  Js.is_empty (Js.trim (initialQuery (session w))) = false
  /\ fst (handleStartAnalysis 1000 "t0" be w) = Ok tt
  /\ isLoading (session (snd (handleStartAnalysis 1000 "t0" be w))) = false.
Proof.
  cbv zeta.
  destruct (handlers_never_throw
              (fun _ : request => Rejects (mkExn "TypeError" "Failed to fetch"))
              (perform decode_table
                 (fun _ : request => Rejects (mkExn "TypeError" "Failed to fetch"))
                 initial_world (TypeQuery "Revenue"))
              "more" 1000 "t0") as (Hstart & _ & Hloading & _).
  split; [reflexivity|]. split; [exact Hstart|]. apply Hloading. reflexivity.
Defined.

(** ** The title of a conversation *)

Lemma substring_short (n : nat) (s : string) :
  String.length s <= n -> String.substring 0 n s = s.
Proof.
  revert n. induction s as [|c s IH]; intros n Hn.
  - destruct n; reflexivity.
  - destruct n as [|n]; cbn in Hn; [lia|].
    cbn [String.substring]. rewrite IH by lia. reflexivity.
Qed.

Lemma substring_length (n : nat) (s : string) :
  n <= String.length s -> String.length (String.substring 0 n s) = n.
Proof.
  revert n. induction s as [|c s IH]; intros n Hn.
  - cbn in Hn. assert (n = 0) by lia. subst. reflexivity.
  - destruct n as [|n]; [reflexivity|].
    cbn [String.substring String.length]. cbn in Hn. rewrite IH by lia.
    reflexivity.
Qed.

Lemma append_length (a b : string) :
  String.length (a ++ b) = String.length a + String.length b.
Proof. induction a as [|c a IH]; cbn; congruence. Qed.

(** X15. The title given to a new conversation is the query itself when
    the query has at most 50 characters, and otherwise its first 50
    characters followed by three dots; it is never longer than 53
    characters and always starts with the first 50 characters of the
    query. *)
Theorem title_is_bounded :
  forall q : string,
    exists t : string,
      title_of q = VStr t
      /\ String.length t <= 53
      /\ String.prefix (String.substring 0 50 q) t = true
      /\ (String.length q <= 50 -> t = q)
      /\ (50 < String.length q ->
          t = String.substring 0 50 q ++ "..." /\ String.length t = 53).
Proof.
  intros q. unfold title_of. eexists. split; [reflexivity|].
  destruct (Nat.ltb_spec 50 (String.length q)) as [Hlong|Hshort].
  - rewrite append_length, substring_length by lia.
    repeat split; try (cbn; lia).
    + apply prefix_append.
  - rewrite append_empty, substring_short by lia.
    repeat split; try lia.
    rewrite <- (append_empty q) at 2. apply prefix_append.
Qed.

Lemma title_is_bounded_witness :
  50 < String.length "0123456789012345678901234567890123456789012345678901234"
  /\ title_of "0123456789012345678901234567890123456789012345678901234"
     = VStr "01234567890123456789012345678901234567890123456789...".
Proof.
  split; [cbn; lia|].
  destruct (title_is_bounded
              "0123456789012345678901234567890123456789012345678901234")
    as (t & Ht & _ & _ & _ & Hlong).
  rewrite Ht. destruct (Hlong ltac:(cbn; lia)) as [-> _]. reflexivity.
Defined.

(** ** Terminal events and the placeholder *)

Lemma on_event_error (c : closure) (self : handle) (event : value)
    (s : Session) :
  Js.is_str (Js.prop event "type") "error" = true ->
  mappable (messages s) ->
  on_event c self event s
  = Ok (setMessages (map (update_one (assistantId c) (mark_error event))
                         (messages s)) s).
Proof.
  intros Htype Hmap. unfold on_event.
  rewrite (type_read _ _ Htype), (is_str_eq _ _ Htype).
  cbn [Js.is_str String.eqb Ascii.eqb Bool.eqb].
  rewrite update_where_map by exact Hmap. reflexivity.
Qed.

(** X16. An error event rewrites the content of the messages that carry
    the placeholder identity to [Error: ] followed by the event's error
    text, or by a fixed default when the event carries none; accumulated
    text is replaced, identity and role are kept, and every other message
    and the rest of the session are unchanged. *)
Theorem error_marks_placeholder_only :
  forall (c : closure) (self : handle) (event : value) (s : Session),
    Js.is_str (Js.prop event "type") "error" = true ->
    mappable (messages s) ->
    exists ms,
      on_event c self event s = Ok (setMessages ms s)
      /\ Forall2
           (fun m m' =>
              if targets (assistantId c) m
              then Js.prop m' "content"
                   = VStr ("Error: "
                           ++ (if Js.truthy (Js.prop event "error")
                               then Js.to_string (Js.prop event "error")
                               else "An error occurred during analysis."))
                   /\ Js.prop m' "id" = Js.prop m "id"
                   /\ Js.prop m' "role" = Js.prop m "role"
              else m' = m)
           (messages s) ms.
Proof.
  intros c self event s Htype Hmap. eexists.
  split; [apply on_event_error; assumption|].
  clear. induction (messages s) as [|m r IH]; cbn [map]; constructor;
    [|exact IH].
  unfold update_one. destruct (targets (assistantId c) m); [|reflexivity].
  unfold mark_error, Js.or. repeat split.
  - rewrite prop_spread_same.
    destruct (Js.truthy (Js.prop event "error")); reflexivity.
  - apply prop_spread_other; [discriminate|reflexivity].
  - apply prop_spread_other; [discriminate|reflexivity].
Qed.

Lemma error_marks_placeholder_only_witness :
  let c := mkClosure FromSendMessage "stream-2000" (obj1 "id" (VStr "c1")) in
  let half := Js.spread_with (placeholder "stream-2000" (VStr "c1") "t1")
                             "content" (VStr "Reven") in
  let s := setMessages [obj1 "id" (VStr "m-1"); half] initial_session in
  let event := obj1 "type" (VStr "error") in
  Js.is_str (Js.prop event "type") "error" = true
  /\ mappable (messages s)
  /\ exists s',
       on_event c 1 event s = Ok s'
       /\ map (fun m => Js.prop m "content") (messages s')
          = [VUndef; VStr "Error: An error occurred during analysis."].
Proof.
  cbv zeta. split; [reflexivity|]. split; [repeat constructor|].
  destruct (error_marks_placeholder_only
              (mkClosure FromSendMessage "stream-2000" (obj1 "id" (VStr "c1"))) 1
              (obj1 "type" (VStr "error"))
              (setMessages
                 [obj1 "id" (VStr "m-1");
                  Js.spread_with (placeholder "stream-2000" (VStr "c1") "t1")
                                 "content" (VStr "Reven")] initial_session)
              eq_refl ltac:(repeat constructor)) as (ms & Hev & _).
  eexists. split; [exact Hev|]. vm_compute in Hev.
  injection Hev as <-. reflexivity.
Defined.

Lemma final_result_truthy (event : value) :
  is_final event = true -> Js.truthy (result_of event) = true.
Proof.
  unfold is_final, result_of, Js.or. intros Hfinal.
  destruct (Js.truthy (Js.prop event "result")) eqn:H1;
    [rewrite H1; exact H1|].
  destruct (Js.truthy (Js.prop event "workflow_result")) eqn:H2;
    [rewrite ?H2; reflexivity|].
  destruct event; try discriminate; reflexivity.
Qed.

Lemma on_event_final_message (c : closure) (self : handle) (event : value)
    (s : Session) :
  is_final event = true ->
  Js.truthy (Js.prop event "assistant_message") = true ->
  mappable (messages s) ->
  exists s',
    on_event c self event s = Ok s'
    /\ messages s'
       = map (update_one (assistantId c)
                         (fun _ => Js.prop event "assistant_message"))
             (messages s)
    /\ workflowResult s' = result_of event
    /\ streamControllerRef s'
       = match opened_by c with
         | FromStartAnalysis => Some self
         | FromSendMessage => streamControllerRef s
         end.
Proof.
  unfold is_final. intros Htype Hmsg Hmap. unfold on_event.
  rewrite (type_read _ _ Htype), Htype, Hmsg.
  rewrite (is_str_eq _ _ Htype). cbn [Js.is_str String.eqb Ascii.eqb Bool.eqb].
  rewrite update_where_map by exact Hmap.
  assert (Hres : Js.or (result_of event) VNull = result_of event).
  { unfold Js.or. rewrite (final_result_truthy event Htype). reflexivity. }
  destruct (Js.truthy (Js.prop event "conversation_id")
            && negb (Js.strict_eq (Js.prop (conversation c) "id")
                                  (Js.prop event "conversation_id")));
    eexists; (split; [reflexivity|]); destruct (opened_by c);
    cbn [messages workflowResult streamControllerRef setMessages
         setWorkflowResult setStreamControllerRef setCurrentConversation];
    rewrite Hres; repeat split.
Qed.

(** X17. A final event that carries an authoritative message puts that
    message, whole, in the place of every message with the placeholder
    identity and leaves the other messages, the length and the order of the
    list alone; the structured result of the session becomes the event's
    result (its [result], else its [workflow_result], else the event
    itself), never [null]. *)
Theorem final_message_replaces_placeholder :
  forall (c : closure) (self : handle) (event : value) (s : Session),
    is_final event = true ->
    Js.truthy (Js.prop event "assistant_message") = true ->
    mappable (messages s) ->
    exists s',
      on_event c self event s = Ok s'
      /\ Forall2 (fun m m' =>
                    m' = if targets (assistantId c) m
                         then Js.prop event "assistant_message" else m)
                 (messages s) (messages s')
      /\ workflowResult s' = result_of event
      /\ Js.truthy (workflowResult s') = true.
Proof.
  intros c self event s Hfinal Hmsg Hmap.
  destruct (on_event_final_message c self event s Hfinal Hmsg Hmap)
    as (s' & Hev & Hms & Hres & _).
  exists s'. split; [exact Hev|]. split; [|split; [exact Hres|]].
  - rewrite Hms. clear. induction (messages s) as [|m r IH]; cbn [map];
      constructor; [reflexivity|exact IH].
  - rewrite Hres. apply final_result_truthy, Hfinal.
Qed.

Lemma final_message_replaces_placeholder_witness :
  let c := mkClosure FromSendMessage "stream-2000" (obj1 "id" (VStr "c1")) in
  let reply := VObj [("id", VStr "m-9"); ("content", VStr "Up 4%")] in
  let event := VObj [("type", VStr "final"); ("assistant_message", reply)] in
  let s := setMessages [obj1 "id" (VStr "m-1");
                        placeholder "stream-2000" (VStr "c1") "t1"]
                       initial_session in
  is_final event = true
  /\ Js.truthy (Js.prop event "assistant_message") = true
  /\ mappable (messages s)
  /\ exists s',
       on_event c 1 event s = Ok s'
       /\ messages s' = [obj1 "id" (VStr "m-1"); reply]
       /\ workflowResult s' = event.
Proof.
  cbv zeta. split; [reflexivity|]. split; [reflexivity|].
  split; [repeat constructor|].
  destruct (final_message_replaces_placeholder
              (mkClosure FromSendMessage "stream-2000" (obj1 "id" (VStr "c1"))) 1
              (VObj [("type", VStr "final");
                     ("assistant_message",
                      VObj [("id", VStr "m-9"); ("content", VStr "Up 4%")])])
              (setMessages [obj1 "id" (VStr "m-1");
                            placeholder "stream-2000" (VStr "c1") "t1"]
                           initial_session)
              eq_refl eq_refl ltac:(repeat constructor))
    as (s' & Hev & _ & Hres & _).
  exists s'. split; [exact Hev|]. vm_compute in Hev. injection Hev as <-.
  split; reflexivity.
Defined.

Lemma update_where_absent (id : string) (f : value -> value)
    (prev ms : list value) :
  absent id prev -> update_where id f prev = Ok ms -> ms = prev.
Proof.
  intros Habs Hup. apply update_where_frame in Hup.
  induction Hup as [|m m' r r' Hm _ IH]; [reflexivity|].
  inversion Habs as [|? ? Ht Hr]; subst. rewrite Ht. f_equal. apply IH, Hr.
Qed.

Lemma on_event_absent (c : closure) (self : handle) (event : value)
    (s s' : Session) :
  absent (assistantId c) (messages s) ->
  on_event c self event s = Ok s' -> messages s' = messages s.
Proof.
  intros Habs. unfold on_event.
  destruct (get event "type") as [type|e]; [|discriminate].
  destruct (Js.is_str type "partial").
  { destruct (update_where _ _ _) as [ms|e] eqn:Hup; [|discriminate].
    intros [= <-]. exact (update_where_absent _ _ _ _ Habs Hup). }
  destruct (Js.is_str type "final").
  { destruct (update_where _ _ _) as [ms|e] eqn:Hup; [|discriminate].
    apply (update_where_absent _ _ _ _ Habs) in Hup.
    destruct (Js.truthy (Js.prop event "conversation_id")
              && negb (Js.strict_eq (Js.prop (conversation c) "id")
                                    (Js.prop event "conversation_id")));
      intros [= <-]; destruct (opened_by c); exact Hup. }
  destruct (Js.is_str type "error").
  { destruct (update_where _ _ _) as [ms|e] eqn:Hup; [|discriminate].
    intros [= <-]. exact (update_where_absent _ _ _ _ Habs Hup). }
  intros [= <-]. reflexivity.
Qed.

Lemma deliver_all_absent (h : handle) (c : closure)
    (st : stream) (events : list value) :
  forall w,
    nth_error (streams w) h = Some (c, st) ->
    absent (assistantId c) (messages (session w)) ->
    messages (session (deliver_all h events w)) = messages (session w).
Proof.
  unfold deliver_all.
  induction events as [|event events IH]; intros w Hh Habs; cbn [fold_left];
    [reflexivity|].
  assert (Hone : streams (deliver h event w) = streams w
                 /\ messages (session (deliver h event w))
                    = messages (session w)).
  { unfold deliver. rewrite Hh.
    destruct (on_event c h event (session w)) as [s'|e] eqn:Hev;
      [|split; reflexivity].
    split; [reflexivity|]. exact (on_event_absent _ _ _ _ _ Habs Hev). }
  destruct Hone as [Hs Hm].
  rewrite IH; [exact Hm|rewrite Hs; exact Hh|rewrite Hm; exact Habs].
Qed.



(** ** Reloading the messages of the conversation *)

Lemma message_list_log (conversationId : value) (be : backend) :
  Js.truthy conversationId = true ->
  snd (run (messagesApi.getByConversation conversationId) be)
  = [GetMessages conversationId].
Proof.
  intros Hid. unfold_clients. rewrite Hid. cbn [negb].
  destruct (be _) as [r|e]; [|reflexivity].
  destruct (ok r); cbn [negb]; [|reflexivity].
  destruct (json_body r) as [result|]; [|reflexivity].
  destruct (get result "messages"); reflexivity.
Qed.

(** X19. The reload fetches nothing and changes nothing when the session
    has no conversation or the conversation has no identity; and when the
    fetch fails, for whatever reason, the message list stays as it was and
    no alert is raised: the one request is all that shows. *)
Theorem reload_guards_and_failure :
  forall (be : backend) (w : World),
    let cc := currentConversation (session w) in
    (Js.truthy cc = false \/ Js.truthy (id_of cc) = false ->
     loadMessages be w = Some w)
    /\ (forall e,
           Js.truthy cc = true ->
           Js.truthy (id_of cc) = true ->
           fst (run (messagesApi.getByConversation (id_of cc)) be) = Throw e ->
           loadMessages be w
           = Some (mkWorld (session w) (streams w)
                     (trace w ++ [Requested (GetMessages (id_of cc))])%list
                     (effect_due w) (reloads w))).
Proof.
  intros be w. cbv zeta. unfold loadMessages. split.
  - intros [Hcc|Hid].
    + rewrite Hcc. reflexivity.
    + rewrite Hid. destruct (Js.truthy (currentConversation (session w)));
        reflexivity.
  - intros e Hcc Hid Hfail. rewrite Hcc, Hid. cbn [negb].
    pose proof (message_list_log _ be Hid) as Hlog.
    destruct (run (messagesApi.getByConversation _) be) as [[v|e'] log];
      cbn [fst snd] in Hfail, Hlog; [discriminate|].
    subst log. reflexivity.
Qed.

Lemma reload_guards_and_failure_witness :
  let be := always (mkResponse 500 "down" None) in
  let w := mkWorld (setCurrentConversation (obj1 "id" (VStr "c1"))
                      (setMessages [obj1 "id" (VStr "m1")] initial_session))
                   [] [] false [] in
  loadMessages be initial_world = Some initial_world
  /\ Js.truthy (currentConversation (session w)) = true
  /\ option_map (fun w' => (messages (session w'), trace w')) (loadMessages be w)
     = Some ([obj1 "id" (VStr "m1")], [Requested (GetMessages (VStr "c1"))]).
Proof.
  cbv zeta. split; [|split; [reflexivity|]].
  - destruct (reload_guards_and_failure (always (mkResponse 500 "down" None))
                initial_world) as [Hguard _].
    apply Hguard. left. reflexivity.
  - destruct (reload_guards_and_failure (always (mkResponse 500 "down" None))
                (mkWorld (setCurrentConversation (obj1 "id" (VStr "c1"))
                            (setMessages [obj1 "id" (VStr "m1")] initial_session))
                         [] [] false [])) as [_ Hfail].
    rewrite (Hfail (Error "Failed to fetch messages") eq_refl eq_refl eq_refl).
    reflexivity.
Defined.

(** X20. A reload that succeeds puts the list the backend returned in
    the place of the whole message list, whether [loadMessages] is run in
    one step or as the effect of a render whose request settles later.
    When that list holds no message with the placeholder identity of a
    stream, the callback of the stream can no longer write into it:
    whatever events it receives, the message list stays the list that was
    loaded, and unless one of them is a final event that names another
    conversation, the conversation, the effect, the reloads in flight and
    the requests stay as they were too.  A final event that names another
    conversation makes the effect due again. *)
Theorem reload_replaces_the_list :
  forall (be : backend) (w : World) (es : list value)
         (extra : list (string * value))
         (h : handle) (c : closure) (st : stream),
    let cc := currentConversation (session w) in
    Js.truthy cc = true ->
    Js.truthy (id_of cc) = true ->
    fst (run (messagesApi.getByConversation (id_of cc)) be) = Ok (VArr es extra) ->
    nth_error (streams w) h = Some (c, st) ->
    absent (assistantId c) es ->
    exists w',
      loadMessages be w = Some w'
      /\ messages (session w') = es
      /\ streams w' = streams w
      /\ trace w' = (trace w ++ [Requested (GetMessages (id_of cc))])%list
      /\ (effect_due w = true ->
          shown_after (List.length (reloads w)) (snd (render be w)) = Some es
          /\ trace (snd (render be w)) = trace w')
      /\ (forall events,
             messages (session (deliver_all h events w')) = es)
      /\ (forall events,
             mappable es ->
             Forall (fun event => adopts c event = false) events ->
             let w2 := deliver_all h events w' in
             currentConversation (session w2) = cc
             /\ effect_due w2 = effect_due w
             /\ reloads w2 = reloads w
             /\ trace w2 = trace w')
      /\ (forall event,
             mappable es ->
             adopts c event = true ->
             effect_due (deliver h event w') = true).
Proof.
  intros be w es extra h c st. cbv zeta.
  intros Hcc Hid Hload Hh Habs.
  unfold loadMessages. rewrite Hcc, Hid. cbn [negb].
  pose proof (message_list_log _ be Hid) as Hlog.
  pose proof (render_due be w) as Hrender.
  destruct (run (messagesApi.getByConversation _) be) as [[v|e'] log];
    cbn [fst snd] in Hload, Hlog, Hrender; [|discriminate].
  injection Hload as ->. subst log.
  eexists. split; [reflexivity|]. cbn [session streams trace messages map app].
  split; [reflexivity|]. split; [reflexivity|]. split; [reflexivity|].
  split; [|split; [|split]].
  - intros Hdue. rewrite (Hrender Hdue Hcc Hid).
    unfold shown_after, loaded. cbn [reloads trace].
    rewrite nth_error_in_flight. split; reflexivity.
  - intros events.
    apply (deliver_all_absent h c st events);
      cbn [session streams messages setMessages]; assumption.
  - intros events Hmap Hquiet.
    match goal with
    | |- context [deliver_all h events ?w'] =>
        exact (deliver_all_quiet h c st events w' Hh Hmap Hquiet)
    end.
  - intros event Hmap Hadopts.
    match goal with
    | |- effect_due (deliver h event ?w') = true =>
        destruct (deliver_page h event w' c st Hh Hmap) as (Hd & _)
    end.
    rewrite Hd, Hadopts. apply orb_true_r.
Qed.

Lemma reload_replaces_the_list_witness :
  let w := perform_all decode_table demo_backend initial_world
             [TypeQuery "Revenue trend Q1"; SubmitStart 1000 "t0"] in
  let stored := [VObj [("id", VStr "m-1"); ("content", VStr "Revenue trend Q1")]] in
  let be := always (ok_json (arr stored)) in
  let c := mkClosure FromStartAnalysis "stream-1000"
             (VObj [("id", VStr "c1"); ("title", VStr "Revenue trend Q1")]) in
  Js.truthy (currentConversation (session w)) = true
  /\ Js.truthy (id_of (currentConversation (session w))) = true
  /\ fst (run (messagesApi.getByConversation
                 (id_of (currentConversation (session w)))) be)
     = Ok (arr stored)
  /\ nth_error (streams w) 0 = Some (c, opened)
  /\ absent "stream-1000" stored
  /\ mappable stored
  /\ adopts c (final_for "c2") = true
  /\ exists w',
       loadMessages be w = Some w'
       /\ messages (session (deliver_all 0 [partial_event "Rev"] w')) = stored
       /\ trace (deliver_all 0 [partial_event "Rev"] w') = trace w'
       /\ effect_due (deliver 0 (final_for "c2") w') = true.
Proof.
  cbv zeta. split; [reflexivity|]. split; [reflexivity|].
  split; [reflexivity|]. split; [reflexivity|]. split; [repeat constructor|].
  split; [repeat constructor|]. split; [reflexivity|].
  destruct (reload_replaces_the_list
              (always (ok_json (arr [VObj [("id", VStr "m-1");
                                           ("content", VStr "Revenue trend Q1")]])))
              (perform_all decode_table demo_backend initial_world
                 [TypeQuery "Revenue trend Q1"; SubmitStart 1000 "t0"])
              [VObj [("id", VStr "m-1"); ("content", VStr "Revenue trend Q1")]]
              [] 0
              (mkClosure FromStartAnalysis "stream-1000"
                 (VObj [("id", VStr "c1"); ("title", VStr "Revenue trend Q1")]))
              opened
              eq_refl eq_refl eq_refl eq_refl ltac:(repeat constructor))
    as (w' & Hload & _ & _ & _ & _ & Hsilent & Hquiet & Hadopt).
  exists w'. split; [exact Hload|].
  split; [exact (Hsilent [partial_event "Rev"])|].
  split.
  - exact (proj2 (proj2 (proj2
             (Hquiet [partial_event "Rev"]
                     ltac:(repeat constructor) ltac:(repeat constructor))))).
  - exact (Hadopt (final_for "c2") ltac:(repeat constructor) eq_refl).
Defined.

(** ** Leaving a conversation and leaving the page *)

Lemma deliver_seq_empty (ds : list (handle * value)) :
  forall w,
    messages (session w) = [] ->
    messages (session (deliver_seq ds w)) = []
    /\ streams (deliver_seq ds w) = streams w
    /\ trace (deliver_seq ds w) = trace w.
Proof.
  unfold deliver_seq. induction ds as [|[h event] ds IH]; intros w Hw;
    cbn [fold_left fst snd]; [repeat split; exact Hw|].
  assert (Hone : messages (session (deliver h event w)) = []
                 /\ streams (deliver h event w) = streams w
                 /\ trace (deliver h event w) = trace w).
  { unfold deliver. destruct (nth_error (streams w) h) as [[c st]|];
      [|repeat split; exact Hw].
    destruct (on_event c h event (session w)) as [s'|e] eqn:Hev;
      [|repeat split; exact Hw].
    repeat split. rewrite <- Hw. apply (on_event_absent c h event); [|exact Hev].
    rewrite Hw. constructor. }
  destruct Hone as (Hm & Hs & Ht).
  destruct (IH (deliver h event w) Hm) as (Hm' & Hs' & Ht').
  repeat split; congruence.
Qed.

(** X21. Starting a new conversation empties the session (no
    conversation, no messages, an empty query, the start form again) but
    stops nothing: no stream is aborted and nothing is requested, by the
    handler or by the render that follows it.  The callbacks of the streams
    still in flight find no message to update: under any events they
    receive the message list stays empty and nothing is requested.  A
    final event that names another conversation than its turn's, however,
    makes the page adopt a conversation again: the next render requests
    its messages, and when that reload settles with a list, the list is
    shown. *)
Theorem new_conversation_stops_nothing :
  forall (be : backend) (w : World),
    let w' := snd (handleNewConversation be w) in
    currentConversation (session w') = VNull
    /\ messages (session w') = []
    /\ initialQuery (session w') = ""
    /\ hasStarted (session w') = false
    /\ streamControllerRef (session w') = streamControllerRef (session w)
    /\ streams w' = streams w
    /\ trace w' = trace w
    /\ reloads w' = reloads w
    /\ trace (snd (render be w')) = trace w
    /\ reloads (snd (render be w')) = reloads w
    /\ (forall ds : list (handle * value),
          messages (session (deliver_seq ds w')) = []
          /\ streams (deliver_seq ds w') = streams w
          /\ trace (deliver_seq ds w') = trace w)
    /\ (forall h c st event msgs,
          nth_error (streams w) h = Some (c, st) ->
          adopts c event = true ->
          let id := Js.prop event "conversation_id" in
          let w2 := deliver h event w' in
          currentConversation (session w2)
          = Js.spread_with (conversation c) "id" id
          /\ messages (session w2) = []
          /\ effect_due w2 = true
          /\ trace (snd (render be w2))
             = (trace w ++ [Requested (GetMessages id)])%list
          /\ (fst (run (messagesApi.getByConversation id) be) = Ok (arr msgs) ->
              shown_after (List.length (reloads w)) (snd (render be w2))
              = Some msgs)).
Proof.
  intros be w. cbv zeta. unfold handleNewConversation, bind, adopt, modify.
  cbn [fst snd session streams trace effect_due reloads].
  set (w' := mkWorld _ _ _ _ _).
  do 8 (split; [reflexivity|]).
  split; [|split; [|split]].
  - unfold render. destruct (effect_due w'); reflexivity.
  - unfold render. destruct (effect_due w'); reflexivity.
  - intros ds. exact (deliver_seq_empty ds w' eq_refl).
  - intros h c st event msgs Hh Hadopts. cbv zeta.
    destruct (adopting_final_reloads be h c st event w' Hh
                ltac:(constructor) Hadopts) as (Hd & Hc & Ht & _ & Hshown).
    split; [exact Hc|].
    split; [exact (deliver_all_absent h c st [event] w' Hh ltac:(constructor))|].
    split; [exact Hd|]. split; [exact Ht|exact (Hshown msgs)].
Qed.

Lemma new_conversation_stops_nothing_witness :
  let be := serving_backend in
  let w := perform_all decode_table be initial_world
             [TypeQuery "Revenue trend Q1"; SubmitStart 1000 "t0"] in
  let c := mkClosure FromStartAnalysis "stream-1000"
             (VObj [("id", VStr "c1"); ("title", VStr "Revenue trend Q1")]) in
  let w' := snd (handleNewConversation be w) in
  let w2 := deliver 0 (final_for "c2") w' in
  nth_error (streams w) 0 = Some (c, opened)
  /\ adopts c (final_for "c2") = true
  /\ currentConversation (session w') = VNull
  /\ currentConversation (session w2)
     = VObj [("id", VStr "c2"); ("title", VStr "Revenue trend Q1")]
  /\ messages (session w2) = []
  /\ shown_after 1 (snd (render be w2)) = Some [stored_message].
Proof.
  cbv zeta.
  destruct (new_conversation_stops_nothing serving_backend
              (perform_all decode_table serving_backend initial_world
                 [TypeQuery "Revenue trend Q1"; SubmitStart 1000 "t0"]))
    as (Hnone & _ & _ & _ & _ & _ & _ & _ & _ & _ & _ & Hadopt).
  destruct (Hadopt 0
              (mkClosure FromStartAnalysis "stream-1000"
                 (VObj [("id", VStr "c1"); ("title", VStr "Revenue trend Q1")]))
              opened (final_for "c2") [stored_message] eq_refl eq_refl)
    as (Hconv & Hmessages & _ & _ & Hshown).
  split; [reflexivity|]. split; [reflexivity|]. split; [exact Hnone|].
  split; [exact Hconv|]. split; [exact Hmessages|exact (Hshown eq_refl)].
Defined.

(** X22. Leaving the page stops the stream on record, if there is one,
    and forgets it; it never throws, touches nothing else, and a second
    teardown finds nothing to stop and changes nothing. *)
Theorem unmount_is_idempotent :
  forall (be : backend) (w : World),
    let w' := snd (unmount be w) in
    fst (unmount be w) = Ok tt
    /\ session w' = setStreamControllerRef None (session w)
    /\ streams w'
       = match streamControllerRef (session w) with
         | Some h => stop_nth h (streams w)
         | None => streams w
         end
    /\ trace w'
       = (trace w ++ match streamControllerRef (session w) with
                     | Some h => [Stopped h]
                     | None => []
                     end)%list
    /\ snd (unmount be w') = w'.
Proof.
  intros be w. cbv zeta. unfold unmount, bind, stop_existing, modify.
  destruct w as [s ss tr due rs]. cbn [session streams trace effect_due reloads].
  destruct (streamControllerRef s) as [h|] eqn:Href;
    cbn [fst snd session streams trace effect_due reloads streamControllerRef
         setStreamControllerRef];
    rewrite ?app_nil_r; repeat split.
Qed.

(** ** Invariants of the page over its whole life *)

Lemma persists_refl (ss : list (closure * stream)) : persists ss ss.
Proof. intros h c st H. exists st. auto. Qed.

Lemma persists_trans (a b c : list (closure * stream)) :
  persists a b -> persists b c -> persists a c.
Proof.
  intros Hab Hbc h cl st H.
  destruct (Hab h cl st H) as (st1 & H1 & Ha1 & Hc1).
  destruct (Hbc h cl st1 H1) as (st2 & H2 & Ha2 & Hc2).
  exists st2. auto.
Qed.

Lemma persists_append (ss l : list (closure * stream)) :
  persists ss (ss ++ l)%list.
Proof.
  intros h c st H. exists st. split; [|auto].
  rewrite nth_error_app1; [exact H|]. apply nth_error_Some. congruence.
Qed.

Lemma persists_stop_nth (old : handle) (ss : list (closure * stream)) :
  persists ss (stop_nth old ss).
Proof.
  revert old. induction ss as [|[c0 s0] r IH]; intros old h c st H.
  - destruct h; discriminate.
  - destruct old as [|old], h as [|h]; cbn in *.
    + injection H as <- <-. exists (stop s0). auto.
    + exists st. auto.
    + exists st. auto.
    + apply IH, H.
Qed.

Lemma persists_set_stream (h0 : handle) (s' : stream)
    (ss : list (closure * stream)) :
  (forall c s, nth_error ss h0 = Some (c, s) ->
               (aborted s = true -> aborted s' = true)
               /\ (at_phase s = Closed -> at_phase s' = Closed)) ->
  persists ss (set_stream h0 s' ss).
Proof.
  revert h0. induction ss as [|[c0 s0] r IH]; intros h0 Hkeep h c st H.
  - destruct h; discriminate.
  - destruct h0 as [|h0], h as [|h]; cbn in *.
    + injection H as <- <-. exists s'. split; [reflexivity|].
      apply (Hkeep c0 s0 eq_refl).
    + exists st. auto.
    + exists st. auto.
    + apply (IH h0); [exact Hkeep|exact H].
Qed.

Lemma step_keeps (parse : string -> option value) (s : stream) (t : transport) :
  (aborted s = true -> aborted (fst (step parse s t)) = true)
  /\ (at_phase s = Closed -> at_phase (fst (step parse s t)) = Closed).
Proof.
  unfold step. destruct s as [p ab]. cbn [at_phase aborted].
  destruct (consume parse p t) as [p' events] eqn:Hc. cbn [fst at_phase aborted].
  split; [auto|]. intros ->. cbn in Hc. congruence.
Qed.

Lemma deliver_streams (h : handle) (event : value) (w : World) :
  streams (deliver h event w) = streams w.
Proof.
  unfold deliver. destruct (nth_error (streams w) h) as [[c st]|];
    [|reflexivity].
  destruct (on_event c h event (session w)); reflexivity.
Qed.

Lemma deliver_all_streams (h : handle) (events : list value) :
  forall w, streams (deliver_all h events w) = streams w.
Proof.
  unfold deliver_all. induction events as [|e r IH]; intros w; cbn [fold_left];
    [reflexivity|].
  rewrite IH. apply deliver_streams.
Qed.

Lemma start_analysis_streams (now : Z) (created_at : string) (be : backend)
    (w : World) :
  let w' := snd (handleStartAnalysis now created_at be w) in
  persists (streams w) (streams w')
  /\ streamControllerRef (session w') = streamControllerRef (session w).
Proof.
  cbv zeta. unfold handleStartAnalysis.
  destruct (Js.is_empty (Js.trim (initialQuery (session w))));
    [split; [apply persists_refl|reflexivity]|].
  run_handler.
  destruct (run (conversationsApi.create _) be) as [[conversation|e] log];
    run_handler; [|split; [apply persists_refl|reflexivity]].
  destruct (negb (Js.truthy (with_id conversation))
            || negb (Js.truthy (Js.prop (with_id conversation) "id")));
    run_handler; [split; [apply persists_refl|reflexivity]|].
  unfold adopt, awaiting, call.
  cbn [fst snd session streams trace effect_due reloads].
  destruct (run (messagesApi.create _ _ _) be) as [[userMessage|e] log'];
    match goal with
    | |- context [render be ?x] =>
        destruct (render_page be x) as (Hs & Hst & _);
        destruct (render be x) as [r0 wr]; cbn [snd] in Hs, Hst
    end;
    run_handler; rewrite ?Hs, ?Hst;
    cbn [session streams streamControllerRef setCurrentConversation
         setIsLoading setHasStarted];
    [|split; [apply persists_refl|reflexivity]].
  destruct (streamControllerRef (session w)) as [old|] eqn:Href; run_handler;
    rewrite ?Hst; cbn [streams].
  - split; [|exact Href].
    eapply persists_trans; [apply persists_stop_nth|apply persists_append].
  - split; [apply persists_append|exact Href].
Qed.

Lemma loaded_keeps (be : backend) (k : nat) (w : World) :
  let w' := match loaded k w with
            | Some w' => w'
            | None => snd (unmount be w)
            end in
  persists (streams w) (streams w')
  /\ (streamControllerRef (session w') = streamControllerRef (session w)
      \/ streamControllerRef (session w') = None).
Proof.
  cbv zeta. unfold loaded.
  destruct (nth_error (reloads w) k) as [[v|e]|];
    try (split; [apply persists_refl|left; reflexivity]).
  destruct v; try (split; [apply persists_refl|left; reflexivity]);
    unfold unmount, bind, stop_existing, modify;
    (destruct (streamControllerRef (session w));
     cbn [snd session streams streamControllerRef setStreamControllerRef];
     (split; [first [apply persists_stop_nth|apply persists_refl]
             |right; reflexivity])).
Qed.

Lemma send_message_streams (content : string) (now : Z) (created_at : string)
    (be : backend) (w : World) :
  let w' := snd (handleSendMessage content now created_at be w) in
  persists (streams w) (streams w')
  /\ (streamControllerRef (session w') = streamControllerRef (session w)
      /\ List.length (streams w') = List.length (streams w)
      \/ streamControllerRef (session w') = Some (List.length (streams w))
         /\ List.length (streams w') = S (List.length (streams w))).
Proof.
  cbv zeta. unfold handleSendMessage.
  destruct (negb (Js.truthy (currentConversation (session w))));
    [split; [apply persists_refl|left; split; reflexivity]|].
  run_handler.
  destruct (negb (Js.truthy (id_of (currentConversation (session w)))));
    run_handler; [split; [apply persists_refl|left; split; reflexivity]|].
  destruct (run (messagesApi.create _ _ _) be) as [[userMessage|e] log'];
    run_handler; [|split; [apply persists_refl|left; split; reflexivity]].
  destruct (streamControllerRef (session w)) as [old|] eqn:Href; run_handler.
  - split.
    + eapply persists_trans; [apply persists_stop_nth|apply persists_append].
    + right. rewrite length_app, !stop_nth_length. cbn. split; [reflexivity|lia].
  - split; [apply persists_append|].
    right. rewrite length_app. cbn. split; [reflexivity|lia].
Qed.

Lemma set_stream_length (h : handle) (s' : stream)
    (ss : list (closure * stream)) :
  List.length (set_stream h s' ss) = List.length ss.
Proof.
  revert h. induction ss as [|[c s] r IH]; intros [|h]; cbn; congruence.
Qed.

Lemma persists_length (ss ss' : list (closure * stream)) :
  persists ss ss' -> List.length ss <= List.length ss'.
Proof.
  intros H. destruct ss as [|x r] eqn:E; [cbn; lia|]. rewrite <- E in *.
  destruct (nth_error ss (List.length ss - 1)) as [[c st]|] eqn:Hlast.
  - destruct (H _ _ _ Hlast) as (st' & H' & _).
    assert (List.length ss - 1 < List.length ss')
      by (apply nth_error_Some; congruence).
    lia.
  - apply nth_error_None in Hlast. subst ss. cbn in Hlast. lia.
Qed.

(** X23. Streams are only ever added.  Through any sequence of user
    actions and transport events, a stream that was opened keeps its handle
    and the callback it was given; once its handle's [stop()] has been
    called it stays aborted, and once it has ended it stays ended. *)
Theorem streams_persist :
  forall (parse : string -> option value) (be : backend) (acts : list action)
         (w : World),
    persists (streams w) (streams (perform_all parse be w acts)).
Proof.
  intros parse be acts. unfold perform_all.
  induction acts as [|a acts IH]; intros w; cbn [fold_left];
    [apply persists_refl|].
  eapply persists_trans; [|apply IH]. destruct a; cbn [perform].
  - apply persists_refl.
  - apply start_analysis_streams.
  - apply send_message_streams.
  - apply persists_refl.
  - unfold unmount, bind, stop_existing, modify.
    destruct (streamControllerRef (session w)); cbn [snd streams];
      [apply persists_stop_nth|apply persists_refl].
  - unfold net. destruct (nth_error (streams w) h) as [[c st]|] eqn:Hh;
      [|apply persists_refl].
    pose proof (step_keeps parse st t) as Hkeep.
    destruct (step parse st t) as [st' events]. cbn [fst] in Hkeep.
    rewrite deliver_all_streams. cbn [streams].
    apply persists_set_stream. intros c0 s0 H0.
    rewrite Hh in H0. injection H0 as <- <-. exact Hkeep.
  - destruct (render_page be w) as (_ & -> & _). apply persists_refl.
  - apply (loaded_keeps be k w).
Qed.

Lemma on_event_ref (c : closure) (self : handle) (event : value)
    (s s' : Session) :
  on_event c self event s = Ok s' ->
  streamControllerRef s' = streamControllerRef s
  \/ streamControllerRef s' = Some self.
Proof.
  unfold on_event. destruct (get event "type") as [type|e]; [|discriminate].
  destruct (Js.is_str type "partial").
  { destruct (update_where _ _ _); [|discriminate]. intros [= <-]. left.
    reflexivity. }
  destruct (Js.is_str type "final").
  { destruct (update_where _ _ _); [|discriminate].
    destruct (Js.truthy (Js.prop event "conversation_id")
              && negb (Js.strict_eq (Js.prop (conversation c) "id")
                                    (Js.prop event "conversation_id")));
      intros [= <-]; destruct (opened_by c); cbn; auto. }
  destruct (Js.is_str type "error").
  { destruct (update_where _ _ _); [|discriminate]. intros [= <-]. left.
    reflexivity. }
  intros [= <-]. left. reflexivity.
Qed.

Lemma deliver_all_valid (h : handle) (events : list value) :
  forall w,
    handle_on_record_valid w -> handle_on_record_valid (deliver_all h events w).
Proof.
  unfold deliver_all. induction events as [|event events IH]; intros w Hw;
    cbn [fold_left]; [exact Hw|].
  apply IH. unfold handle_on_record_valid in *.
  rewrite deliver_streams. unfold deliver.
  destruct (nth_error (streams w) h) as [[c st]|] eqn:Hh; [|exact Hw].
  destruct (on_event c h event (session w)) as [s'|e] eqn:Hev; [|exact Hw].
  cbn [session]. destruct (on_event_ref _ _ _ _ _ Hev) as [->| ->];
    [exact Hw|].
  apply nth_error_Some. congruence.
Qed.

(** X24. The handle on record is always the handle of a stream that was
    opened: whatever the user and the transports do, from the first render
    on, [streamControllerRef.current] is empty or names an existing stream,
    so the [stop()] calls of the controller always have a stream to
    stop. *)
Theorem handle_on_record_is_valid :
  forall (parse : string -> option value) (be : backend) (acts : list action),
    handle_on_record_valid (perform_all parse be initial_world acts).
Proof.
  intros parse be acts. unfold perform_all.
  assert (H : handle_on_record_valid initial_world) by exact I.
  revert H. generalize initial_world.
  induction acts as [|a acts IH]; intros w Hw; cbn [fold_left]; [exact Hw|].
  apply IH. destruct a; cbn [perform].
  - exact Hw.
  - destruct (start_analysis_streams now created_at be w) as [Hp Href].
    unfold handle_on_record_valid in *. rewrite Href.
    destruct (streamControllerRef (session w)); [|exact I].
    pose proof (persists_length _ _ Hp). lia.
  - destruct (send_message_streams content now created_at be w)
      as [Hp [[Href Hlen]|[Href Hlen]]];
      unfold handle_on_record_valid in *; rewrite Href.
    + destruct (streamControllerRef (session w)); [|exact I]. lia.
    + lia.
  - exact Hw.
  - unfold unmount, bind, stop_existing, modify.
    destruct (streamControllerRef (session w)); exact I.
  - unfold net. destruct (nth_error (streams w) h) as [[c st]|] eqn:Hh;
      [|exact Hw].
    destruct (step parse st t) as [st' events].
    apply deliver_all_valid. unfold handle_on_record_valid in *.
    cbn [session streams]. rewrite set_stream_length. exact Hw.
  - destruct (render_page be w) as (Hs & Hst & _).
    unfold handle_on_record_valid in *. rewrite Hs, Hst. exact Hw.
  - destruct (loaded_keeps be k w) as [Hp [Href|Href]];
      unfold handle_on_record_valid in *; rewrite Href; [|exact I].
    destruct (streamControllerRef (session w)); [|exact I].
    pose proof (persists_length _ _ Hp). lia.
Qed.

(** ** The ingestion page *)

Ltac run_page :=
  unfold attempt;
  unfold bind, IngestPage.modify, IngestPage.call, IngestPage.emit,
    QueryPage.modify, QueryPage.call, QueryPage.emit, throw, ret, lift;
  cbn [fst snd IngestPage.state IngestPage.effects IngestPage.documents
       IngestPage.isUploading IngestPage.isLoading IngestPage.setDocuments
       IngestPage.setIsUploading IngestPage.setIsLoading
       QueryPage.state QueryPage.effects QueryPage.query QueryPage.isQuerying
       QueryPage.answer QueryPage.sources QueryPage.setQuery
       QueryPage.setIsQuerying QueryPage.setAnswer QueryPage.setSources
       negb orb andb].

Lemma without_id_filter (id : string) (docs : list value) :
  mappable docs ->
  IngestPage.without_id id docs
  = Ok (filter (fun doc => negb (targets id doc)) docs).
Proof.
  induction 1 as [|doc r Hdoc _ IH]; [reflexivity|].
  cbn [IngestPage.without_id filter].
  rewrite (get_not_nullish _ _ Hdoc), IH. unfold targets.
  destruct (Js.is_str (Js.prop doc "id") id); reflexivity.
Qed.

Lemma delete_log (id : string) (be : backend) :
  snd (run (documentsApi.delete id) be) = [DeleteDocument id].
Proof.
  unfold_clients. destruct (be _) as [r|e]; [|reflexivity].
  destruct (ok r); reflexivity.
Qed.

(** X25. Deleting a document.  Unless the user confirms, nothing is
    requested and nothing changes.  When the backend accepts the deletion,
    the list loses exactly the documents with that identity: none of them
    remains, and every other document stays, in the order it had.  When the
    deletion fails the list is as it was and one alert is raised. *)
Theorem delete_removes_exactly :
  forall (be : backend) (p : IngestPage.Page) (id : string),
    let docs := IngestPage.documents (IngestPage.state p) in
    let deleted := IngestPage.handleDelete id true be p in
    mappable docs ->
    IngestPage.handleDelete id false be p = (Ok tt, p)
    /\ fst deleted = Ok tt
    /\ (fst (run (documentsApi.delete id) be) = Ok tt ->
        IngestPage.documents (IngestPage.state (snd deleted))
        = filter (fun doc => negb (targets id doc)) docs
        /\ Forall (fun doc => targets id doc = false)
                  (IngestPage.documents (IngestPage.state (snd deleted)))
        /\ (forall doc, In doc docs -> targets id doc = false ->
                        In doc (IngestPage.documents
                                  (IngestPage.state (snd deleted))))
        /\ IngestPage.effects (snd deleted)
           = (IngestPage.effects p ++ [Requested (DeleteDocument id)])%list)
    /\ ((exists e, fst (run (documentsApi.delete id) be) = Throw e) ->
        IngestPage.state (snd deleted) = IngestPage.state p
        /\ IngestPage.effects (snd deleted)
           = (IngestPage.effects p
                ++ [Requested (DeleteDocument id);
                    Alerted "Failed to delete document. Please try again."])%list).
Proof.
  intros be p id. cbv zeta. intros Hmap.
  unfold IngestPage.handleDelete. cbn [negb]. run_page.
  pose proof (delete_log id be) as Hlog.
  rewrite (without_id_filter id _ Hmap).
  destruct (run (documentsApi.delete id) be) as [[[]|e] log];
    cbn [snd] in Hlog; subst log; run_page; cbn [map app];
    rewrite <- ?app_assoc; (split; [reflexivity|]); (split; [reflexivity|]);
    split.
  - intros _. split; [reflexivity|]. split; [|split; [|reflexivity]].
    + apply Forall_forall. intros doc Hin. apply filter_In in Hin as [_ H].
      apply negb_true_iff, H.
    + intros doc Hin Hdoc. apply filter_In. split; [exact Hin|].
      rewrite Hdoc. reflexivity.
  - intros [e He]. discriminate.
  - discriminate.
  - intros _. split; [destruct p as [[] ?]|]; reflexivity.
Qed.

Lemma delete_removes_exactly_witness :
  let docs := [obj1 "id" (VStr "d1"); obj1 "id" (VStr "d2"); obj1 "id" (VStr "d1")] in
  let p := IngestPage.mkPage (IngestPage.mkState docs false false) [] in
  let be := always (mkResponse 204 "" None) in
  mappable docs
  /\ fst (run (documentsApi.delete "d1") be) = Ok tt
  /\ IngestPage.documents
       (IngestPage.state (snd (IngestPage.handleDelete "d1" true be p)))
     = [obj1 "id" (VStr "d2")].
Proof.
  cbv zeta. split; [repeat constructor|]. split; [reflexivity|].
  destruct (delete_removes_exactly
              (always (mkResponse 204 "" None))
              (IngestPage.mkPage
                 (IngestPage.mkState
                    [obj1 "id" (VStr "d1"); obj1 "id" (VStr "d2");
                     obj1 "id" (VStr "d1")] false false) [])
              "d1" ltac:(repeat constructor)) as (_ & _ & Hok & _).
  destruct (Hok eq_refl) as (-> & _). reflexivity.
Defined.

Lemma upload_log (file : File) (be : backend) :
  snd (run (documentsApi.upload file) be) = [PostIngestAuto file].
Proof.
  unfold_clients. destruct (be _) as [r|e]; [|reflexivity].
  destruct (ok r); cbn [negb]; [|reflexivity].
  destruct (json_body r) as [result|]; [|reflexivity].
  destruct (get result "document"); reflexivity.
Qed.

Lemma document_list_log (be : backend) :
  snd (run documentsApi.getAll be) = [GetDocuments].
Proof.
  unfold_clients. destruct (be _) as [r|e]; [|reflexivity].
  destruct (ok r); cbn [negb]; [|reflexivity].
  destruct (json_body r) as [result|]; [|reflexivity].
  destruct (get result "documents") as [d|e]; [|reflexivity].
  cbn [snd]. destruct (Js.isArray d); [reflexivity|].
  destruct (Js.isArray result); reflexivity.
Qed.

(** X26. Uploading a document never throws and always ends with
    [isUploading] false.  When the upload fails, one alert is raised and
    the list of documents is neither reloaded nor changed.  When it
    succeeds, the list is reloaded with exactly one further request and
    without any alert: the page shows the reloaded list, or keeps the list
    it had when the reload fails. *)
Theorem upload_then_reload :
  forall (be : backend) (p : IngestPage.Page) (file : File),
    let p' := snd (IngestPage.handleUpload file be p) in
    fst (IngestPage.handleUpload file be p) = Ok tt
    /\ IngestPage.isUploading (IngestPage.state p') = false
    /\ ((exists e, fst (run (documentsApi.upload file) be) = Throw e) ->
        IngestPage.documents (IngestPage.state p')
        = IngestPage.documents (IngestPage.state p)
        /\ IngestPage.effects p'
           = (IngestPage.effects p
                ++ [Requested (PostIngestAuto file);
                    Alerted "Failed to upload document. Please try again."])%list)
    /\ ((exists doc, fst (run (documentsApi.upload file) be) = Ok doc) ->
        IngestPage.effects p'
        = (IngestPage.effects p
             ++ [Requested (PostIngestAuto file); Requested GetDocuments])%list
        /\ IngestPage.isLoading (IngestPage.state p') = false
        /\ IngestPage.documents (IngestPage.state p')
           = match fst (run documentsApi.getAll be) with
             | Ok docs => IngestPage.array_or_empty docs
             | Throw _ => IngestPage.documents (IngestPage.state p)
             end).
Proof.
  intros be p file. cbv zeta.
  unfold IngestPage.handleUpload, IngestPage.loadDocuments. run_page.
  pose proof (upload_log file be) as Hup.
  pose proof (document_list_log be) as Hlist.
  destruct (run (documentsApi.upload file) be) as [[doc|e] log];
    cbn [snd] in Hup; subst log; run_page.
  - destruct (run documentsApi.getAll be) as [[docs|e] log];
      cbn [snd] in Hlist; subst log; run_page; cbn [map app];
      rewrite <- ?app_assoc; (split; [reflexivity|]);
      (split; [reflexivity|]);
      (split; [intros [e' He']; discriminate|]);
      intros _; repeat split.
  - cbn [map app]. rewrite <- ?app_assoc. split; [reflexivity|].
    split; [reflexivity|]. split; [|intros [d Hd]; discriminate].
    intros _. split; reflexivity.
Qed.

Lemma upload_then_reload_witness :
  let be := fun rq =>
              match rq with
              | PostIngestAuto _ => Resolves (ok_json (obj1 "id" (VStr "d9")))
              | _ => Resolves (mkResponse 500 "down" None)
              end in
  let p := IngestPage.mkPage
             (IngestPage.mkState [obj1 "id" (VStr "d1")] false false) [] in
  let p' := snd (IngestPage.handleUpload (mkFile "q1.csv" "a,b") be p) in
  fst (run (documentsApi.upload (mkFile "q1.csv" "a,b")) be)
  = Ok (obj1 "id" (VStr "d9"))
  /\ IngestPage.documents (IngestPage.state p') = [obj1 "id" (VStr "d1")]
  /\ IngestPage.effects p'
     = [Requested (PostIngestAuto (mkFile "q1.csv" "a,b")); Requested GetDocuments].
Proof.
  cbv zeta. split; [reflexivity|].
  destruct (upload_then_reload
              (fun rq =>
                 match rq with
                 | PostIngestAuto _ => Resolves (ok_json (obj1 "id" (VStr "d9")))
                 | _ => Resolves (mkResponse 500 "down" None)
                 end)
              (IngestPage.mkPage
                 (IngestPage.mkState [obj1 "id" (VStr "d1")] false false) [])
              (mkFile "q1.csv" "a,b")) as (_ & _ & _ & Hok).
  destruct (Hok (ex_intro _ (obj1 "id" (VStr "d9")) eq_refl))
    as (Heffects & _ & Hdocs).
  split; [rewrite Hdocs; reflexivity|exact Heffects].
Defined.

(** ** The query page *)

Lemma query_log (q : string) (be : backend) :
  snd (run (queriesApi.create q) be) = [GetQuery q].
Proof.
  unfold_clients. destruct (be _) as [r|e]; [|reflexivity].
  destruct (ok r); cbn [negb]; [|reflexivity].
  destruct (json_body r) as [result|]; [|reflexivity].
  destruct (get result "query"); reflexivity.
Qed.

Lemma coalesce_not_nullish (a b : value) :
  Js.nullish b = false -> Js.nullish (Js.coalesce a b) = false.
Proof.
  intros Hb. unfold Js.coalesce. destruct (Js.nullish a) eqn:Ha; assumption.
Qed.

(** X27. Submitting a query.  A blank query does nothing.  Otherwise the
    handler never throws, sends one request with the trimmed query and ends
    with [isQuerying] false, in one of two ways: without an alert and with
    an answer that is neither null nor undefined, or with one alert and the
    earlier answer and sources cleared. *)
Theorem submit_outcomes :
  forall (be : backend) (p : QueryPage.Page),
    let q := Js.trim (QueryPage.query (QueryPage.state p)) in
    let p' := snd (QueryPage.handleSubmit be p) in
    (Js.is_empty q = true -> QueryPage.handleSubmit be p = (Ok tt, p))
    /\ (Js.is_empty q = false ->
        fst (QueryPage.handleSubmit be p) = Ok tt
        /\ QueryPage.isQuerying (QueryPage.state p') = false
        /\ QueryPage.query (QueryPage.state p')
           = QueryPage.query (QueryPage.state p)
        /\ ((QueryPage.effects p'
             = (QueryPage.effects p ++ [Requested (GetQuery q)])%list
             /\ Js.nullish (QueryPage.answer (QueryPage.state p')) = false)
            \/ (QueryPage.effects p'
                = (QueryPage.effects p
                     ++ [Requested (GetQuery q);
                         Alerted "Failed to execute query. Please try again."])%list
                /\ QueryPage.answer (QueryPage.state p') = VNull
                /\ QueryPage.sources (QueryPage.state p') = []))).
Proof.
  intros be p. cbv zeta. unfold QueryPage.handleSubmit.
  destruct (Js.is_empty (Js.trim (QueryPage.query (QueryPage.state p))));
    (split; [intros H; try discriminate H; try reflexivity|]);
    intros H; try discriminate H.
  run_page.
  pose proof (query_log (Js.trim (QueryPage.query (QueryPage.state p))) be)
    as Hlog.
  destruct (run (queriesApi.create _) be) as [[result|e] log];
    cbn [snd] in Hlog; subst log; run_page; cbn [map app];
    rewrite <- ?app_assoc.
  - destruct (negb (Js.truthy result)
              || negb (Js.truthy (Js.prop result "query"))); run_page;
      rewrite <- ?app_assoc; (split; [reflexivity|]);
      (split; [reflexivity|]); (split; [reflexivity|]).
    + right. repeat split.
    + left. split; [reflexivity|]. apply coalesce_not_nullish. reflexivity.
  - split; [reflexivity|]. split; [reflexivity|]. split; [reflexivity|].
    right. repeat split.
Qed.

Lemma submit_outcomes_witness :
  let be := always (ok_json (VObj [("sources", VNull)])) in
  let p := QueryPage.mkPage
             (QueryPage.mkState " churn by region " false (VStr "old")
                                [obj1 "id" (VStr "d1")]) [] in
  Js.is_empty (Js.trim (QueryPage.query (QueryPage.state p))) = false
  /\ fst (QueryPage.handleSubmit be p) = Ok tt
  /\ QueryPage.answer (QueryPage.state (snd (QueryPage.handleSubmit be p)))
     = VNull.
Proof.
  cbv zeta. split; [reflexivity|].
  destruct (submit_outcomes
              (always (ok_json (VObj [("sources", VNull)])))
              (QueryPage.mkPage
                 (QueryPage.mkState " churn by region " false (VStr "old")
                                    [obj1 "id" (VStr "d1")]) []))
    as (_ & Hsubmit).
  destruct (Hsubmit eq_refl) as (Hok & _). split; [exact Hok|reflexivity].
Defined.

(** ** The upload widget *)

Lemma split_dot_nonempty (s : string) : FileUpload.split_dot s <> [].
Proof.
  induction s as [|c r IH]; cbn [FileUpload.split_dot]; [discriminate|].
  destruct (FileUpload.is_dot c); [discriminate|].
  destruct (FileUpload.split_dot r); [contradiction|discriminate].
Qed.

Lemma split_dot_dotless (s : string) : dotless s = true -> FileUpload.split_dot s = [s].
Proof.
  induction s as [|c r IH]; cbn [dotless FileUpload.split_dot]; [reflexivity|].
  intros H. apply andb_prop in H as [Hc Hr].
  apply negb_true_iff in Hc. rewrite Hc, (IH Hr). reflexivity.
Qed.

Lemma split_dot_append (base ext : string) :
  dotless ext = true ->
  FileUpload.split_dot (base ++ "." ++ ext) = (FileUpload.split_dot base ++ [ext])%list.
Proof.
  intros Hext. induction base as [|c r IH].
  - cbn. rewrite (split_dot_dotless _ Hext). reflexivity.
  - change ((String c r) ++ "." ++ ext) with (String c (r ++ "." ++ ext)).
    cbn [FileUpload.split_dot]. rewrite IH. destruct (FileUpload.is_dot c); [reflexivity|].
    pose proof (split_dot_nonempty r) as Hne.
    destruct (FileUpload.split_dot r); [contradiction|reflexivity].
Qed.

Lemma last_segment (name ext : string) :
  dotless ext = true ->
  name = ext \/ (exists base, name = base ++ "." ++ ext) ->
  last (FileUpload.split_dot name) EmptyString = ext.
Proof.
  intros Hext [->|[base ->]].
  - rewrite (split_dot_dotless _ Hext). reflexivity.
  - rewrite (split_dot_append _ _ Hext). apply last_last.
Qed.

(** X28. The check of a picked file looks only at its MIME type and at the
    part of its name after the last dot, in lower case; for a name without
    a dot that part is the whole name.  A file whose last part is an allowed
    extension in any letter case is handed to [handleUpload] whatever its
    type; a file that passes neither check raises one alert, sends no
    request and leaves the page as it was. *)
Theorem file_check_by_last_segment :
  forall (f : FileUpload.Picked) (ext : string),
    let name := file_name (FileUpload.file f) in
    let extension := "." ++ FileUpload.toLowerCase ext in
    dotless ext = true ->
    name = ext \/ (exists base, name = base ++ "." ++ ext) ->
    FileUpload.fileExtension name = extension
    /\ (FileUpload.includes_string FileUpload.allowedExtensions extension = true ->
        forall be p,
          FileUpload.handleFile f be p = IngestPage.handleUpload (FileUpload.file f) be p)
    /\ (FileUpload.includes_string FileUpload.allowedTypes (FileUpload.type f) = false ->
        FileUpload.includes_string FileUpload.allowedExtensions extension = false ->
        forall be p,
          FileUpload.handleFile f be p
          = (Ok tt,
             IngestPage.mkPage
               (IngestPage.state p)
               (IngestPage.effects p
                  ++ [Alerted "Please upload PDF, TXT, DOCX, or MD files only."])%list)).
Proof.
  intros f ext. cbv zeta. intros Hext Hname.
  assert (Hfe : FileUpload.fileExtension (file_name (FileUpload.file f))
                = "." ++ FileUpload.toLowerCase ext).
  { unfold FileUpload.fileExtension. rewrite (last_segment _ _ Hext Hname). reflexivity. }
  split; [exact Hfe|]. unfold FileUpload.handleFile, FileUpload.accepted. rewrite Hfe. split.
  - intros ->. rewrite orb_true_r. reflexivity.
  - intros -> ->. reflexivity.
Qed.

Lemma file_check_by_last_segment_witness :
  let f := FileUpload.mkPicked (mkFile "Report.final.PDF" "%PDF-1.7") "" in
  dotless "PDF" = true
  /\ file_name (FileUpload.file f) = "Report.final" ++ "." ++ "PDF"
  /\ forall be p,
       FileUpload.handleFile f be p = IngestPage.handleUpload (FileUpload.file f) be p.
Proof.
  cbv zeta. split; [reflexivity|]. split; [reflexivity|].
  destruct (file_check_by_last_segment
              (FileUpload.mkPicked (mkFile "Report.final.PDF" "%PDF-1.7") "") "PDF"
              eq_refl (or_intror (ex_intro _ "Report.final" eq_refl)))
    as (_ & Hup & _).
  exact (Hup eq_refl).
Defined.

(** ** The chat box *)

Lemma trim_start_head (s : string) :
  Js.trim_start s = s -> Js.trim_start (Js.trim_end s) = Js.trim_end s.
Proof.
  destruct s as [|c r]; [reflexivity|]. cbn [Js.trim_start Js.trim_end].
  destruct (Js.is_space c) eqn:Hc.
  - intros H. exfalso.
    assert (Hlen : String.length (Js.trim_start r) <= String.length r).
    { clear. induction r as [|d r IH]; cbn [Js.trim_start]; [lia|].
      destruct (Js.is_space d); cbn [String.length]; lia. }
    rewrite H in Hlen. cbn [String.length] in Hlen. lia.
  - intros _. destruct (Js.trim_end r); cbn [Js.trim_start]; rewrite Hc;
      reflexivity.
Qed.

Lemma trim_start_idempotent (s : string) :
  Js.trim_start (Js.trim_start s) = Js.trim_start s.
Proof.
  induction s as [|c r IH]; [reflexivity|]. cbn [Js.trim_start].
  destruct (Js.is_space c) eqn:Hc; [exact IH|].
  cbn [Js.trim_start]. rewrite Hc. reflexivity.
Qed.

Lemma trim_end_idempotent (s : string) :
  Js.trim_end (Js.trim_end s) = Js.trim_end s.
Proof.
  induction s as [|c r IH]; [reflexivity|]. cbn [Js.trim_end].
  destruct (Js.trim_end r) as [|d t] eqn:Hr.
  - destruct (Js.is_space c) eqn:Hc; [reflexivity|].
    cbn [Js.trim_end]. rewrite Hc. reflexivity.
  - cbn [Js.trim_end] in IH |- *. cbn [Js.trim_end]. rewrite IH. reflexivity.
Qed.

Lemma trim_idempotent (s : string) : Js.trim (Js.trim s) = Js.trim s.
Proof.
  unfold Js.trim.
  rewrite (trim_start_head _ (trim_start_idempotent s)).
  apply trim_end_idempotent.
Qed.

(** X29. What the chat box sends.  While the page is loading, or when the
    input is blank, nothing is handed to [onSendMessage] and the input stays
    as typed.  Otherwise the content handed over is the trimmed input: it is
    not empty, trimming it again changes nothing, and the input field is
    cleared. *)
Theorem chat_box_sends_trimmed :
  forall (input : string) (isLoading : bool),
    match ChatInterface.handleSubmit input isLoading with
    | (Some content, input') =>
        isLoading = false
        /\ content = Js.trim input
        /\ Js.is_empty content = false
        /\ Js.trim content = content
        /\ input' = EmptyString
    | (None, input') =>
        input' = input
        /\ (isLoading = true \/ Js.is_empty (Js.trim input) = true)
    end.
Proof.
  intros input isLoading. unfold ChatInterface.handleSubmit.
  destruct (Js.is_empty (Js.trim input)) eqn:Hblank; cbn [negb andb].
  - split; [reflexivity|right; reflexivity].
  - destruct isLoading; cbn [negb].
    + split; [reflexivity|left; reflexivity].
    + repeat split; [exact Hblank|apply trim_idempotent].
Qed.

(** ** The first ingestion form *)

(** X30. The error text of the first ingestion form.  When the upload is
    rejected, the message shown is the text [Error: ] followed by the
    [message] of the response's [data] as a string, whatever the [message]
    of the error itself is: for an error without a response, such as a
    network failure, the form shows [Error: undefined]. *)
Theorem rejected_upload_text :
  forall (stringify : value -> value) (post : value -> Ingest.settled)
         (s : Ingest.State) (error : value),
    Js.truthy (Ingest.file s) = true ->
    post (Ingest.file s) = Ingest.Rejected error ->
    Js.nullish error = false ->
    exists d,
      Ingest.detail error = Ok d
      /\ Ingest.handleSubmit stringify post s
         = Ok (Ingest.setMessage (VStr ("Error: " ++ Js.to_string d)) s)
      /\ (Js.nullish (Js.prop error "response") = true ->
          Ingest.handleSubmit stringify post s
          = Ok (Ingest.setMessage (VStr "Error: undefined") s)).
Proof.
  intros stringify post s error Hfile Hpost Herror.
  unfold Ingest.handleSubmit, Ingest.detail.
  rewrite Hfile, Hpost, (get_not_nullish _ _ Herror). cbn [negb].
  eexists. split; [reflexivity|].
  assert (Hor : forall d m,
             Js.or (Js.plus (VStr "Error: ") d) m
             = VStr ("Error: " ++ Js.to_string d)) by reflexivity.
  rewrite Hor. split; [reflexivity|].
  intros Hnull. destruct (Js.prop error "response"); try discriminate Hnull;
    reflexivity.
Qed.

Lemma rejected_upload_text_witness :
  let error := VObj [("message", VStr "Network Error")] in
  let s := Ingest.mkState (VObj [("name", VStr "q1.csv")]) (VStr "") in
  Js.truthy (Ingest.file s) = true
  /\ Js.nullish error = false
  /\ Ingest.handleSubmit (fun _ => VUndef) (fun _ => Ingest.Rejected error) s
     = Ok (Ingest.setMessage (VStr "Error: undefined") s).
Proof.
  cbv zeta. split; [reflexivity|]. split; [reflexivity|].
  destruct (rejected_upload_text
              (fun _ => VUndef)
              (fun _ => Ingest.Rejected (VObj [("message", VStr "Network Error")]))
              (Ingest.mkState (VObj [("name", VStr "q1.csv")]) (VStr ""))
              (VObj [("message", VStr "Network Error")])
              eq_refl eq_refl eq_refl) as (d & _ & _ & Hundef).
  exact (Hundef eq_refl).
Defined.
